(** * Movie catalogue: cross-store search and benchmark engine

    A shallow embedding of the query-equivalence and benchmarking core of
    the application ([src/app.py], [src/backend/api/compare_routes.py]):

    - [PyFloat]: Python floats as IEEE-754 binary64 values, computed with
      the reference implementation of [SpecFloat];
    - [Stats]: the statistics reducer [calc_metrics];
    - [Compare]: the comparison summary of [compare_top_movies] and
      [compare_trending];
    - [Catalog]: the relational tables, the document collections and the
      two query strategies [search_postgres] and [search_mongo];
    - [Py], [TextOps]: the few Python built-ins and text operators the
      handlers rely on;
    - [Web]: the interactive search handlers;
    - [Bench]: the benchmark handler [benchmark_run];
    - [Sample]: a small catalogue on which the definitions are run;
    - [Session]: the database selector kept in the session;
    - [CompareBench]: the benchmark of the comparison API
      ([backend/api/compare_routes.py]);
    - [UserRatings]: the ratings browser of the user view;
    - [Admin]: the administration functions for genres, ratings and
      people ([src/admin_query.py]).

    The modules whose names end in [Facts] hold the properties. *)

From Stdlib Require Import String Ascii DecimalString ZArith QArith Bool Lia Lqa.
From Stdlib Require Import Permutation Sorted List.
From Stdlib Require Import Floats.SpecFloat.
Import ListNotations.

Open Scope Z_scope.

(* ================================================================== *)
(** * Python floats *)
(* ================================================================== *)

Module PyFloat.

(** A Python [float] is a binary64 value: 53 bits of precision and
    exponent bound 1024. *)
Definition float := spec_float.
Definition prec : Z := 53.
Definition emax : Z := 1024.

Definition add : float -> float -> float := SFadd prec emax.
Definition sub : float -> float -> float := SFsub prec emax.
Definition mul : float -> float -> float := SFmul prec emax.
Definition ltb : float -> float -> bool := SFltb.
Definition eqb : float -> float -> bool := SFeqb.

(** [float(n)] for an integer [n] (round to nearest, ties to even). *)
Definition of_Z (n : Z) : float := binary_normalize prec emax n 0 false.

(** The float denoted by the decimal literal [num / den], for integers
    that binary64 holds exactly: the nearest double to the quotient. *)
Definition of_dec (num den : Z) : float :=
  SFdiv prec emax (of_Z num) (of_Z den).

Definition zero : float := S754_zero false.
Definition one : float := of_Z 1.

Definition is_zero (x : float) : bool :=
  match x with S754_zero _ => true | _ => false end.

Definition is_finite (x : float) : bool :=
  match x with S754_zero _ | S754_finite _ _ _ => true | _ => false end.

(** [x / y]: Python raises [ZeroDivisionError] when the divisor is
    zero, of either sign ([None] here). *)
Definition div (x y : float) : option float :=
  if is_zero y then None else Some (SFdiv prec emax x y).

(** [x > 0], the truth test used before dividing by a total. *)
Definition gt0 (x : float) : bool := ltb zero x.

(** [int(x)]: truncation toward zero; [None] for NaN and infinities
    (Python raises [ValueError] or [OverflowError]). *)
Definition to_int (x : float) : option Z :=
  match x with
  | S754_zero _ => Some 0
  | S754_finite s m e =>
      let a := match e with
               | Zneg p => Z.shiftr (Zpos m) (Zpos p)
               | _ => Z.shiftl (Zpos m) e
               end in
      Some (if s then - a else a)
  | _ => None
  end.

(** Nearest integer to [n / d] for [0 <= n] and [0 < d], ties to even. *)
Definition round_half_even_div (n d : Z) : Z :=
  let q := n / d in
  let r := n mod d in
  match 2 * r ?= d with
  | Lt => q
  | Gt => q + 1
  | Eq => if Z.even q then q else q + 1
  end.

(** [round(x, ndigits)] for [0 <= ndigits]: the exact binary value of
    [x] is rounded half-even to [ndigits] decimal places, and the
    decimal obtained is converted back to the nearest double.  NaN,
    infinities and zeros round to themselves. *)
Definition round (x : float) (ndigits : Z) : float :=
  match x with
  | S754_finite s m e =>
      let num := Zpos m * 10 ^ ndigits * 2 ^ (Z.max e 0) in
      let den := 2 ^ (Z.max (- e) 0) in
      match round_half_even_div num den with
      | Zpos k =>
          SFdiv prec emax (S754_finite s k 0)
                (S754_finite false (Z.to_pos (10 ^ ndigits)) 0)
      | _ => S754_zero s
      end
  | _ => x
  end.

(** [max(l)] and [min(l)] keep the first extremal element; on an empty
    list Python raises [ValueError]. *)
Definition max_list (l : list float) : option float :=
  match l with
  | [] => None
  | x :: r => Some (fold_left (fun m y => if ltb m y then y else m) r x)
  end.

Definition min_list (l : list float) : option float :=
  match l with
  | [] => None
  | x :: r => Some (fold_left (fun m y => if ltb y m then y else m) r x)
  end.

(** [sorted(l)]: a stable sort that compares with [<] only. *)
Fixpoint insert (x : float) (l : list float) : list float :=
  match l with
  | [] => [x]
  | y :: r => if ltb y x then y :: insert x r else x :: l
  end.

Fixpoint sorted (l : list float) : list float :=
  match l with
  | [] => []
  | x :: r => insert x (sorted r)
  end.

(** [sum(l)], added left to right from the integer [0] (plain
    summation, as CPython computes it before version 3.12). *)
Definition sum (l : list float) : float := fold_left add l zero.

End PyFloat.

(* ================================================================== *)
(** * Statistics reducer *)
(* ================================================================== *)

Module Stats.
Import PyFloat.

(** [l[i]] with Python's index rule: a negative index counts from the
    end, and an index out of range raises [IndexError] ([None]). *)
Definition py_index {A} (l : list A) (i : Z) : option A :=
  let n := Z.of_nat (length l) in
  if i <? 0 then
    if - i <=? n then nth_error l (Z.to_nat (n + i)) else None
  else nth_error l (Z.to_nat i).

(** The literal [0.95]. *)
Definition c095 : float := of_dec 95 100.

(** [int(len(latencies) * 0.95)]. *)
Definition p95_index (n : nat) : option Z :=
  to_int (mul (of_Z (Z.of_nat n)) c095).

(** The expression bound to ["p95_latency_ms"]:
    [round(sorted(latencies)[int(len(latencies) * 0.95)], 3)
       if len(latencies) >= 20 else round(max(latencies), 3)]. *)
Definition p95_latency_ms (latencies : list float) : option float :=
  if (20 <=? length latencies)%nat then
    match p95_index (length latencies) with
    | Some i => option_map (fun x => round x 3) (py_index (sorted latencies) i)
    | None => None
    end
  else option_map (fun x => round x 3) (max_list latencies).

Definition max_latency_ms (latencies : list float) : option float :=
  option_map (fun x => round x 3) (max_list latencies).

Definition min_latency_ms (latencies : list float) : option float :=
  option_map (fun x => round x 3) (min_list latencies).

(** [statistics.mean]: the samples are added exactly, as fractions, and
    the exact mean is converted to the nearest double.  A finite float
    is [m * 2^e]; the exact sum is kept as an integer multiple of
    [2^e0] for the least exponent [e0] met. *)
Definition exact_add (acc : Z * Z) (x : float) : Z * Z :=
  let '(m0, e0) := acc in
  match x with
  | S754_finite s m e =>
      let v := if s then Zneg m else Zpos m in
      let e' := Z.min e0 e in
      (m0 * 2 ^ (e0 - e') + v * 2 ^ (e - e'), e')
  | _ => acc
  end.

Definition mean (l : list float) : option float :=
  match l with
  | [] => None
  | _ =>
      if forallb is_finite l then
        let '(m, e) := fold_left exact_add l (0, 0) in
        let n := Pos.of_nat (length l) in
        Some match m with
             | Z0 => zero
             | Zpos p =>
                 SFdiv prec emax (S754_finite false p e) (S754_finite false n 0)
             | Zneg p =>
                 SFdiv prec emax (S754_finite true p e) (S754_finite false n 0)
             end
      else Some S754_nan
  end.

(** [statistics.median]: the middle element of the sorted data, or the
    float mean of the two middle ones. *)
Definition median (l : list float) : option float :=
  let data := sorted l in
  let n := length data in
  match n with
  | O => None
  | _ =>
      if Nat.odd n then nth_error data (n / 2)
      else
        match nth_error data (n / 2 - 1), nth_error data (n / 2) with
        | Some a, Some b => div (add a b) (of_Z 2)
        | _, _ => None
        end
  end.

(** [round(len(latencies) / (total_time / 1000), 2) if total_time > 0
    else 0]. *)
Definition ops_per_sec (n : nat) (total_time : float) : option float :=
  if gt0 total_time then
    match div total_time (of_Z 1000) with
    | Some secs =>
        match div (of_Z (Z.of_nat n)) secs with
        | Some r => Some (round r 2)
        | None => None
        end
    | None => None
    end
  else Some zero.

Record metrics := {
  avg_latency_ms_f : float;
  median_latency_ms_f : float;
  p95_latency_ms_f : float;
  min_latency_ms_f : float;
  max_latency_ms_f : float;
  total_time_ms_f : float;
  ops_per_sec_f : float;
  runs_f : nat;
  warmup_f : nat;
  result_count_f : nat
}.

(** What a call of [calc_metrics] yields: Python's [None] for an empty
    sample, a dictionary of metrics, or an exception raised while a
    field is computed. *)
Inductive calc_result :=
| NoMetrics
| Metrics (m : metrics)
| CalcRaised.

(** [calc_metrics(latencies, result_count)], closed over [warmup_runs]. *)
Definition calc_metrics (warmup_runs : nat) (latencies : list float)
           (result_count : nat) : calc_result :=
  match latencies with
  | [] => NoMetrics
  | _ =>
      let total_time := sum latencies in
      match mean latencies, median latencies, p95_latency_ms latencies,
            min_latency_ms latencies, max_latency_ms latencies,
            ops_per_sec (length latencies) total_time with
      | Some a, Some md, Some p, Some mn, Some mx, Some ops =>
          Metrics {| avg_latency_ms_f := round a 3;
                     median_latency_ms_f := round md 3;
                     p95_latency_ms_f := p;
                     min_latency_ms_f := mn;
                     max_latency_ms_f := mx;
                     total_time_ms_f := round total_time 3;
                     ops_per_sec_f := ops;
                     runs_f := length latencies;
                     warmup_f := warmup_runs;
                     result_count_f := result_count |}
      | _, _, _, _, _, _ => CalcRaised
      end
  end.

(** ** The nearest-rank percentile, as the specification words it

    The [p]-th percentile by nearest rank of [n] sorted samples is the
    sample of ordinal rank [ceil (p * n / 100)], counted from 1. *)
Definition nearest_rank_position (p : Z) (n : nat) : Z :=
  (p * Z.of_nat n + 99) / 100.

Definition nearest_rank (p : Z) (l : list float) : option float :=
  nth_error (sorted l) (Z.to_nat (nearest_rank_position p (length l) - 1)).

End Stats.

(* ================================================================== *)
(** * Comparison reporter *)
(* ================================================================== *)

Module Compare.
Import PyFloat.

Inductive engine := Sql | Nosql.

(** The ['comparison'] entry of the response. *)
Record comparison := {
  faster : engine;
  speedup_factor : float;
  difference_ms : float;
  analysis_speedup : float
}.

(** [max(a, b)] and [min(a, b)] return the first argument unless the
    second is strictly better. *)
Definition py_max (a b : float) : float := if ltb a b then b else a.
Definition py_min (a b : float) : float := if ltb b a then b else a.

(** The comparison summary of [compare_top_movies] and of
    [compare_trending] (the two handlers share it verbatim):
    [[
      faster = 'sql' if sql_time < nosql_time else 'nosql'
      speedup = max(sql_time, nosql_time) / min(sql_time, nosql_time)
    ]]
    [None] stands for the [ZeroDivisionError] of the division. *)
Definition comparison_summary (sql_time nosql_time : float)
  : option comparison :=
  let faster := if ltb sql_time nosql_time then Sql else Nosql in
  match div (py_max sql_time nosql_time) (py_min sql_time nosql_time) with
  | Some speedup =>
      Some {| faster := faster;
              speedup_factor := round speedup 2;
              difference_ms := round (SFabs (sub sql_time nosql_time)) 2;
              analysis_speedup := speedup |}
  | None => None
  end.

(** The handler's answer once both timings are taken: the summary with
    status 200, or, through [except Exception], an error with status
    500. *)
Inductive response :=
| Ok200 (c : comparison)
| Error500.

Definition compare_response (sql_time nosql_time : float) : response :=
  match comparison_summary sql_time nosql_time with
  | Some c => Ok200 c
  | None => Error500
  end.

End Compare.

(* ================================================================== *)
(** * Python strings and integers *)
(* ================================================================== *)

Module Py.
Open Scope string_scope.

(** Exceptions that leave a piece of Python code. *)
Inductive exn :=
| ValueError
| TypeError
| AttributeError
| OverflowError
| ZeroDivisionError
| EngineError (msg : string).

(** Truth value of an optional string ([None] and [""] are false) and
    of an optional integer ([None] and [0] are false). *)
Definition str_true (s : option string) : bool :=
  match s with
  | Some t => negb (t =? "")
  | None => false
  end.

Definition int_true (n : option Z) : bool :=
  match n with
  | Some z => negb (z =? 0)%Z
  | None => false
  end.

(** [x if x else None], as the handlers pass their text fields on. *)
Definition or_none (s : string) : option string :=
  if s =? "" then None else Some s.

(** Text is held by its UTF-8 bytes.  [is_ascii] tells the text all of
    whose characters are ASCII. *)
Fixpoint is_ascii (s : string) : bool :=
  match s with
  | String c r => (nat_of_ascii c <? 128)%nat && is_ascii r
  | EmptyString => true
  end.

(** The ASCII characters [str.isspace] holds true for: U+0009 to
    U+000D, U+001C to U+001F and the blank. *)
Definition is_space (c : ascii) : bool :=
  let n := nat_of_ascii c in
  ((9 <=? n) && (n <=? 13) || (28 <=? n) && (n <=? 32))%nat.

(** The ASCII characters C's [isspace] holds true for, which is what
    [int] skips among the ASCII characters: U+0009 to U+000D and the
    blank. *)
Definition is_c_space (c : ascii) : bool :=
  let n := nat_of_ascii c in
  ((9 <=? n) && (n <=? 13) || (n =? 32))%nat.

(** The white space outside ASCII, by its UTF-8 bytes: U+0085 and
    U+00A0 take two bytes; U+1680, U+2000 to U+200A, U+2028, U+2029,
    U+202F, U+205F and U+3000 take three. *)
Definition is_space2 (a b : ascii) : bool :=
  let '(x, y) := (nat_of_ascii a, nat_of_ascii b) in
  ((x =? 194) && ((y =? 133) || (y =? 160)))%nat.

Definition is_space3 (a b c : ascii) : bool :=
  let '(x, y, z) := (nat_of_ascii a, nat_of_ascii b, nat_of_ascii c) in
  ((x =? 225) && (y =? 154) && (z =? 128)
   || (x =? 226) && (y =? 128)
      && ((128 <=? z) && (z <=? 138) || (z =? 168) || (z =? 169) || (z =? 175))
   || (x =? 226) && (y =? 129) && (z =? 159)
   || (x =? 227) && (y =? 128) && (z =? 128))%nat.

(** The text without the white space it starts with; [sp] tells the
    ASCII white space. *)
Fixpoint lstrip_with (sp : ascii -> bool) (s : string) : string :=
  match s with
  | String a r =>
      if sp a then lstrip_with sp r
      else
        match r with
        | String b r2 =>
            if is_space2 a b then lstrip_with sp r2
            else
              match r2 with
              | String c r3 =>
                  if is_space3 a b c then lstrip_with sp r3 else s
              | EmptyString => s
              end
        | EmptyString => s
        end
  | EmptyString => EmptyString
  end.

(** The text without the white space it ends with: what is left of
    the text once nothing but white space follows. *)
Fixpoint rstrip_with (sp : ascii -> bool) (s : string) : string :=
  match s with
  | String a r =>
      if lstrip_with sp s =? "" then EmptyString
      else String a (rstrip_with sp r)
  | EmptyString => EmptyString
  end.

(** [s.strip()]. *)
Definition strip (s : string) : string :=
  rstrip_with is_space (lstrip_with is_space s).

Definition digit_of (c : ascii) : option Z :=
  let n := nat_of_ascii c in
  if ((48 <=? n) && (n <=? 57))%nat then Some (Z.of_nat n - 48)%Z else None.

(** Digits of an integer literal: decimal digits, where single
    underscores may separate two digits. [prev] tells whether the
    character before was a digit. *)
Fixpoint parse_digits (s : string) (acc : Z) (prev : bool) : option Z :=
  match s with
  | EmptyString => if prev then Some acc else None
  | String c r =>
      match digit_of c with
      | Some d => parse_digits r (10 * acc + d)%Z true
      | None =>
          if (Ascii.eqb c "_" && prev)%bool then
            match r with
            | String c' _ =>
                match digit_of c' with
                | Some _ => parse_digits r acc false
                | None => None
                end
            | EmptyString => None
            end
          else None
      end
  end.

(** The number of digits of a literal. *)
Fixpoint digit_count (s : string) : Z :=
  match s with
  | String c r =>
      (match digit_of c with Some _ => 1 | None => 0 end + digit_count r)%Z
  | EmptyString => 0%Z
  end.

(** [sys.get_int_max_str_digits()], as the interpreter starts. *)
Definition int_max_str_digits : Z := 4300.

(** [int(s)] for a string: white space around is skipped, a sign may
    precede the digits, and a literal of more than
    [int_max_str_digits] digits is refused; anything else raises
    [ValueError] ([None]).  The digits are the ASCII ones: Python
    converts the decimal digits of other scripts as well, so on text
    that is not ASCII a refusal here need not be one of Python; the
    facts that rest on a refusal are stated for ASCII text. *)
Definition int_of_string (s : string) : option Z :=
  let t := rstrip_with is_c_space (lstrip_with is_c_space s) in
  if (int_max_str_digits <? digit_count t)%Z then None
  else
    match t with
    | String "-" r => option_map Z.opp (parse_digits r 0 false)
    | String "+" r => parse_digits r 0 false
    | _ => parse_digits t 0 false
    end.

(** [str(n)], also what an f-string prints for an integer. *)
Definition str_of_int (n : Z) : string :=
  NilZero.string_of_int (Z.to_int n).

End Py.

(* ================================================================== *)
(** * The catalogue and the two query strategies *)
(* ================================================================== *)

Module Catalog.
Import Py.
Open Scope string_scope.
Open Scope list_scope.

(** ** Relational tables

    The columns the combined search reads.  Numeric columns are kept as
    exact rationals. *)

Record date := { d_year : Z; d_month : Z; d_day : Z }.

Record movie := {
  movie_id : Z;
  title : option string;
  released_date : option date;
  popularity : option Q
}.

Record rating := { rating_id : Z; r_movie_id : Z; r_rating : Q }.
Record genre := { genre_id : Z; genre_name : string }.
Record movie_genre := { mg_movie_id : Z; mg_genre_id : Z }.
Record person := { person_id : Z; person_name : option string }.
Record movie_cast := { mc_movie_id : Z; mc_person_id : Z }.

Record pg_db := {
  movies : list movie;
  ratings : list rating;
  genres : list genre;
  movie_genres : list movie_genre;
  people : list person;
  movie_casts : list movie_cast
}.

(** ** Document collections

    Documents as [load_csv_to_mongo.py] writes them: every key is
    present and may hold [null] ([None]).  The fields parsed from
    text ([genres], [cast]) may have any shape. *)

Inductive genre_elem :=
| GenreDoc (name : option string)   (* a sub-document; [None]: no ["name"] key *)
| GenreOther.                       (* an element that is not a document *)

Inductive genres_field :=
| GenresList (l : list genre_elem)
| GenresOther.                      (* null, a string, a document *)

Record movie_doc := {
  doc_id : Z;
  doc_title : option string;
  doc_original_title : option string;
  doc_release_date : option string;
  doc_popularity : option Q;
  doc_genres : genres_field
}.

Inductive cast_field :=
| CastAbsent                        (* no ["cast"] key *)
| CastNull
| CastList (names : list (option string))  (* sub-documents, by their ["name"] *)
| CastString (s : string).

Record credit_doc := { cr_id : option Z; cr_cast : cast_field }.

Record rating_doc := { rd_movie_id : Z; rd_rating : option Q }.

Record mongo_db := {
  movies_col : list movie_doc;
  credits_col : list credit_doc;
  ratings_col : list rating_doc
}.

(** ** The uniform result row *)

Inductive date_value :=
| DateNone
| DateOf (d : date)                 (* a [datetime.date] from the relational engine *)
| DateStr (s : string).             (* the stored text of the document engine *)

Record result_row := {
  row_movie_id : Z;
  row_title : option string;
  row_released_date : date_value;
  row_popularity : Q;
  row_avg_rating : Q;
  row_num_ratings : nat;
  row_genres : string
}.

(** ** Helpers shared by both engines *)

Definition qsum (l : list Q) : Q := fold_right Qplus 0%Q l.

(** Average of a list of numbers, [None] (SQL [NULL], BSON [null]) when
    there is none. *)
Definition average (l : list Q) : option Q :=
  match l with
  | [] => None
  | _ => Some (qsum l / inject_Z (Z.of_nat (length l)))%Q
  end.

Definition qgtb (x y : Q) : bool :=
  match (x ?= y)%Q with Gt => true | _ => false end.

(** Descending order with absent values last: does [x] come strictly
    before [y]? *)
Definition before_desc (x y : option Q) : bool :=
  match x, y with
  | Some a, Some b => qgtb a b
  | Some _, None => true
  | None, _ => false
  end.

Definition same_key (x y : option Q) : bool :=
  match x, y with
  | Some a, Some b => Qeq_bool a b
  | None, None => true
  | _, _ => false
  end.

(** A stable sort: [before a b] tells that [a] must precede [b]; rows
    that neither precede the other keep their order. *)
Section StableSort.
Context {A : Type} (before : A -> A -> bool).

Fixpoint insert_by (x : A) (l : list A) : list A :=
  match l with
  | [] => [x]
  | y :: r => if before y x then y :: insert_by x r else x :: l
  end.

Fixpoint sort_by (l : list A) : list A :=
  match l with
  | [] => []
  | x :: r => insert_by x (sort_by r)
  end.
End StableSort.

Definition float_or_zero (x : option Q) : Q :=
  match x with
  | Some q => if Qeq_bool q 0 then 0%Q else q
  | None => 0%Q
  end.

(** ** The relational strategy: the query that [search_postgres] builds

    The SQL text is assembled from optional fragments; the fragments
    are kept here as data, in the order the code appends them. *)

Inductive join_clause :=
| JoinMovieGenres      (* JOIN movie_genres mg ON m.movie_id = mg.movie_id *)
| JoinGenres           (* JOIN genres g ON mg.genre_id = g.genre_id *)
| JoinMovieCast        (* JOIN movie_cast mc ON m.movie_id = mc.movie_id *)
| JoinPeople.          (* JOIN people p ON mc.person_id = p.person_id *)

Inductive condition :=
| CondTrue                         (* 1=1 *)
| TitleILike (pat : string)        (* m.title ILIKE %s *)
| GenreNameILike (pat : string)    (* g.genre_name ILIKE %s *)
| PersonNameILike (pat : string)   (* p.name ILIKE %s *)
| YearBetween (a b : Z).           (* EXTRACT(YEAR FROM m.released_date) BETWEEN %s AND %s *)

Inductive order_by :=
| OrderRatingPopularity  (* ORDER BY avg_rating DESC NULLS LAST, m.popularity DESC NULLS LAST *)
| OrderPopularity.       (* ORDER BY m.popularity DESC NULLS LAST *)

Record query := {
  q_joins : list join_clause;
  q_where : list condition;
  q_order : order_by;
  q_limit : nat
}.

(** The fragment [f t] when the optional text [o] is true, nothing
    otherwise. *)
Definition when_str {A} (o : option string) (f : string -> list A) : list A :=
  match o with
  | Some t => if t =? "" then [] else f t
  | None => []
  end.

Definition both_years (year_start year_end : option Z) : option (Z * Z) :=
  match year_start, year_end with
  | Some a, Some b => if (negb (a =? 0) && negb (b =? 0))%Z%bool then Some (a, b) else None
  | _, _ => None
  end.

Definition build_query (genre actor : option string)
           (year_start year_end : option Z) (sort_by : string)
           (limit : nat) (title : option string) : query :=
  {| q_joins :=
       when_str genre (fun _ => [JoinMovieGenres; JoinGenres]) ++
       when_str actor (fun _ => [JoinMovieCast; JoinPeople]);
     q_where :=
       [CondTrue] ++
       when_str title (fun t => [TitleILike ("%" ++ t ++ "%")%string]) ++
       when_str genre (fun g => [GenreNameILike ("%" ++ g ++ "%")%string]) ++
       when_str actor (fun a => [PersonNameILike ("%" ++ a ++ "%")%string]) ++
       match both_years year_start year_end with
       | Some (a, b) => [YearBetween a b]
       | None => []
       end;
     q_order := if sort_by =? "rating" then OrderRatingPopularity
                else OrderPopularity;
     q_limit := limit |}.

(** A row of the join: the movie, the unconditional left joins ([r],
    [mg2], [g2]) and the inner joins added for the filters. *)
Record jrow := {
  j_m : movie;
  j_r : option rating;
  j_mg2 : option movie_genre;
  j_g2 : option genre;
  j_mg : option movie_genre;
  j_g : option genre;
  j_mc : option movie_cast;
  j_p : option person
}.

(** [LEFT JOIN]: the matching rows, or one all-[NULL] row. *)
Definition left_join {B} (on : B -> bool) (bs : list B) : list (option B) :=
  match filter on bs with
  | [] => [None]
  | l => map Some l
  end.

(** [FROM movies m LEFT JOIN ratings r ... LEFT JOIN movie_genres mg2
    ... LEFT JOIN genres g2 ...], for one row [m] of [movies]. *)
Definition from_clause (db : pg_db) (m : movie) : list jrow :=
  flat_map (fun r =>
    flat_map (fun mg2 =>
      map (fun g2 =>
             {| j_m := m; j_r := r; j_mg2 := mg2; j_g2 := g2;
                j_mg := None; j_g := None; j_mc := None; j_p := None |})
          (left_join (fun g2 => match mg2 with
                                | Some x => (mg_genre_id x =? genre_id g2)%Z
                                | None => false
                                end) (genres db)))
      (left_join (fun mg2 => (movie_id m =? mg_movie_id mg2)%Z) (movie_genres db)))
    (left_join (fun r => (movie_id m =? r_movie_id r)%Z) (ratings db)).

(** One inner join applied to one row. *)
Definition apply_join (db : pg_db) (j : join_clause) (row : jrow) : list jrow :=
  match j with
  | JoinMovieGenres =>
      map (fun mg =>
             {| j_m := j_m row; j_r := j_r row; j_mg2 := j_mg2 row;
                j_g2 := j_g2 row; j_mg := Some mg; j_g := j_g row;
                j_mc := j_mc row; j_p := j_p row |})
          (filter (fun mg => (movie_id (j_m row) =? mg_movie_id mg)%Z)
                  (movie_genres db))
  | JoinGenres =>
      match j_mg row with
      | Some mg =>
          map (fun g =>
                 {| j_m := j_m row; j_r := j_r row; j_mg2 := j_mg2 row;
                    j_g2 := j_g2 row; j_mg := j_mg row; j_g := Some g;
                    j_mc := j_mc row; j_p := j_p row |})
              (filter (fun g => (mg_genre_id mg =? genre_id g)%Z) (genres db))
      | None => []
      end
  | JoinMovieCast =>
      map (fun mc =>
             {| j_m := j_m row; j_r := j_r row; j_mg2 := j_mg2 row;
                j_g2 := j_g2 row; j_mg := j_mg row; j_g := j_g row;
                j_mc := Some mc; j_p := j_p row |})
          (filter (fun mc => (movie_id (j_m row) =? mc_movie_id mc)%Z)
                  (movie_casts db))
  | JoinPeople =>
      match j_mc row with
      | Some mc =>
          map (fun p =>
                 {| j_m := j_m row; j_r := j_r row; j_mg2 := j_mg2 row;
                    j_g2 := j_g2 row; j_mg := j_mg row; j_g := j_g row;
                    j_mc := j_mc row; j_p := Some p |})
              (filter (fun p => (mc_person_id mc =? person_id p)%Z) (people db))
      | None => []
      end
  end.

Definition joined_rows (db : pg_db) (joins : list join_clause) (m : movie)
  : list jrow :=
  fold_left (fun rows j => flat_map (apply_join db j) rows) joins
            (from_clause db m).

(** An aggregated row, as the cursor returns it. *)
Record sql_row := {
  c_movie_id : Z;
  c_title : option string;
  c_released_date : option date;
  c_popularity : option Q;
  c_avg_rating : Q;
  c_num_ratings : nat;
  c_genres : option string
}.

Fixpoint somes {A} (l : list (option A)) : list A :=
  match l with
  | [] => []
  | Some a :: r => a :: somes r
  | None :: r => somes r
  end.

(** [GROUP BY m.movie_id, ...] with the aggregates of the select list,
    over the rows of one movie ([movie_id] is the key of [movies]):
    [COALESCE(AVG(r.rating), 0)], [COUNT(DISTINCT r.rating_id)] and
    [STRING_AGG(DISTINCT g2.genre_name, ', ' ORDER BY g2.genre_name)]. *)
Definition aggregate (m : movie) (rows : list jrow) : sql_row :=
  let rs := somes (map j_r rows) in
  let names := sort_by String.ltb
                 (nodup string_dec (map genre_name (somes (map j_g2 rows)))) in
  {| c_movie_id := movie_id m;
     c_title := title m;
     c_released_date := released_date m;
     c_popularity := popularity m;
     c_avg_rating := match average (map r_rating rs) with
                     | Some a => a
                     | None => 0%Q
                     end;
     c_num_ratings := length (nodup Z.eq_dec (map rating_id rs));
     c_genres := match names with
                 | [] => None
                 | _ => Some (String.concat ", " names)
                 end |}.

Definition sql_before (o : order_by) (a b : sql_row) : bool :=
  match o with
  | OrderRatingPopularity =>
      qgtb (c_avg_rating a) (c_avg_rating b)
      || (Qeq_bool (c_avg_rating a) (c_avg_rating b)
          && before_desc (c_popularity a) (c_popularity b))
  | OrderPopularity => before_desc (c_popularity a) (c_popularity b)
  end.

Definition row_of_sql (r : sql_row) : result_row :=
  {| row_movie_id := c_movie_id r;
     row_title := c_title r;
     row_released_date := match c_released_date r with
                          | Some d => DateOf d
                          | None => DateNone
                          end;
     row_popularity := float_or_zero (c_popularity r);
     row_avg_rating := float_or_zero (Some (c_avg_rating r));
     row_num_ratings := c_num_ratings r;
     row_genres := match c_genres r with Some g => g | None => "" end |}.

(** ** The document strategy: stages and operations of [search_mongo] *)

Inductive match_cond :=
| TitleOr (re : string)              (* "$or": title or original_title matches *)
| GenresElemMatch (re : string)      (* "genres": {"$elemMatch": {"name": ...}} *)
| ReleaseDateRange (lo hi : string)  (* "release_date": {"$gte": lo, "$lte": hi} *)
| IdIn (ids : list Z).               (* "id": {"$in": ids} *)

Inductive stage :=
| Match (conds : list match_cond)
| LookupRatings          (* $lookup from ratings, id = movieId, as "ratings" *)
| AddRatingFields        (* $addFields avg_rating, num_ratings *)
| ProjectOutRatings      (* $project {"ratings": 0, "_id": 0} *)
| SortRatingPopularity   (* $sort {"avg_rating": -1, "popularity": -1} *)
| SortPopularity         (* $sort {"popularity": -1} *)
| Limit (n : nat).

Inductive credits_query :=
| CastNameRegex (re : string)   (* {"cast.name": regex} *)
| CastRegex (re : string).      (* {"cast": regex} *)

(** The calls made on the collections, in order. *)
Inductive mongo_op :=
| CreditsFindOne
| CreditsFind (q : credits_query) (limit : nat)
| MoviesAggregate (pipeline : list stage).

(** A document on its way through the pipeline: the stored movie and
    the fields the stages add. *)
Record pdoc := {
  pd_doc : movie_doc;
  pd_ratings : option (list rating_doc);
  pd_avg_rating : option Q;
  pd_num_ratings : option nat
}.

Definition pdoc_of (d : movie_doc) : pdoc :=
  {| pd_doc := d; pd_ratings := None;
     pd_avg_rating := None; pd_num_ratings := None |}.

Definition pdoc_before (by_rating : bool) (a b : pdoc) : bool :=
  if by_rating then
    before_desc (pd_avg_rating a) (pd_avg_rating b)
    || (same_key (pd_avg_rating a) (pd_avg_rating b)
        && before_desc (doc_popularity (pd_doc a)) (doc_popularity (pd_doc b)))
  else before_desc (doc_popularity (pd_doc a)) (doc_popularity (pd_doc b)).

(** A writer monad that records the collection calls. *)
Definition M (A : Type) : Type := (A * list mongo_op)%type.
Definition ret {A} (a : A) : M A := (a, []).
Definition bind {A B} (m : M A) (f : A -> M B) : M B :=
  let '(a, l) := m in let '(b, l') := f a in (b, (l ++ l')%list).

Notation "x <- m ;; k" := (bind m (fun x => k))
  (at level 61, m at next level, right associativity).

Section Engines.

(** The text operators of the engines are parameters of the model:
    [ilike pat s] is [s ILIKE pat] of the relational engine, and
    [regex_i re s] tells whether the string [s] matches
    [{"$regex": re, "$options": "i"}] in the document engine. *)
Variable ilike : string -> string -> bool.
Variable regex_i : string -> string -> bool.

(** *** Relational engine *)

(** A condition of the [WHERE] clause is true on a row ([NULL]
    operands make it not true). *)
Definition holds (row : jrow) (c : condition) : bool :=
  match c with
  | CondTrue => true
  | TitleILike pat =>
      match title (j_m row) with
      | Some t => ilike pat t
      | None => false
      end
  | GenreNameILike pat =>
      match j_g row with
      | Some g => ilike pat (genre_name g)
      | None => false
      end
  | PersonNameILike pat =>
      match j_p row with
      | Some p =>
          match person_name p with
          | Some n => ilike pat n
          | None => false
          end
      | None => false
      end
  | YearBetween a b =>
      match released_date (j_m row) with
      | Some d => ((a <=? d_year d) && (d_year d <=? b))%Z
      | None => false
      end
  end.

(** The rows of one movie that pass [WHERE]. *)
Definition group (db : pg_db) (q : query) (m : movie) : list jrow :=
  filter (fun row => forallb (holds row) (q_where q))
         (joined_rows db (q_joins q) m).

(** The groups, one aggregated row for each movie that keeps a row. *)
Definition grouped (db : pg_db) (q : query) : list sql_row :=
  flat_map (fun m => match group db q m with
                     | [] => []
                     | rows => [aggregate m rows]
                     end) (movies db).

(** [cur.execute(query, params); cur.fetchall()]. *)
Definition execute (db : pg_db) (q : query) : list sql_row :=
  firstn (q_limit q) (sort_by (sql_before (q_order q)) (grouped db q)).

Definition search_postgres (cur : pg_db) (genre actor : option string)
           (year_start year_end : option Z) (sort_by : string)
           (limit : nat) (title : option string) : list result_row :=
  map row_of_sql
      (execute cur (build_query genre actor year_start year_end sort_by
                                limit title)).

(** *** Document engine *)

Definition opt_regex (re : string) (s : option string) : bool :=
  match s with
  | Some t => regex_i re t
  | None => false
  end.

Definition cond_matches (d : movie_doc) (c : match_cond) : bool :=
  match c with
  | TitleOr re =>
      opt_regex re (doc_title d) || opt_regex re (doc_original_title d)
  | GenresElemMatch re =>
      match doc_genres d with
      | GenresList l =>
          existsb (fun e => match e with
                            | GenreDoc n => opt_regex re n
                            | GenreOther => false
                            end) l
      | GenresOther => false
      end
  | ReleaseDateRange lo hi =>
      match doc_release_date d with
      | Some s => String.leb lo s && String.leb s hi
      | None => false
      end
  | IdIn ids => existsb (Z.eqb (doc_id d)) ids
  end.

(** One stage applied to the stream of documents.  The pipeline of
    [search_mongo] always runs [$lookup] before [$addFields]. *)
Definition run_stage (db : mongo_db) (st : stage) (docs : list pdoc)
  : list pdoc :=
  match st with
  | Match conds =>
      filter (fun p => forallb (cond_matches (pd_doc p)) conds) docs
  | LookupRatings =>
      map (fun p =>
             {| pd_doc := pd_doc p;
                pd_ratings :=
                  Some (filter (fun r => (rd_movie_id r =? doc_id (pd_doc p))%Z)
                               (ratings_col db));
                pd_avg_rating := pd_avg_rating p;
                pd_num_ratings := pd_num_ratings p |}) docs
  | AddRatingFields =>
      map (fun p =>
             let rs := match pd_ratings p with Some l => l | None => [] end in
             {| pd_doc := pd_doc p;
                pd_ratings := pd_ratings p;
                pd_avg_rating :=
                  Some match average (somes (map rd_rating rs)) with
                       | Some a => a
                       | None => 0%Q
                       end;
                pd_num_ratings := Some (length rs) |}) docs
  | ProjectOutRatings =>
      map (fun p =>
             {| pd_doc := pd_doc p; pd_ratings := None;
                pd_avg_rating := pd_avg_rating p;
                pd_num_ratings := pd_num_ratings p |}) docs
  | SortRatingPopularity => sort_by (pdoc_before true) docs
  | SortPopularity => sort_by (pdoc_before false) docs
  | Limit n => firstn n docs
  end.

Definition run_pipeline (db : mongo_db) (pipeline : list stage) : list pdoc :=
  fold_left (fun docs st => run_stage db st docs) pipeline
            (map pdoc_of (movies_col db)).

Definition credit_matches (q : credits_query) (c : credit_doc) : bool :=
  match q, cr_cast c with
  | CastNameRegex re, CastList names => existsb (opt_regex re) names
  | CastRegex re, CastString s => regex_i re s
  | _, _ => false
  end.

Definition has_cast (c : credit_doc) : bool :=
  match cr_cast c with CastAbsent => false | _ => true end.

(** [mongo_credits_col.find_one({"cast": {"$exists": True}})]. *)
Definition credits_find_one (db : mongo_db) : M (option credit_doc) :=
  (find has_cast (credits_col db), [CreditsFindOne]).

(** [list(mongo_credits_col.find(q, {"_id": 0, "id": 1}).limit(n))]. *)
Definition credits_find (db : mongo_db) (q : credits_query) (n : nat)
  : M (list credit_doc) :=
  (firstn n (filter (credit_matches q) (credits_col db)), [CreditsFind q n]).

(** [list(mongo_movies_col.aggregate(pipeline))]. *)
Definition movies_aggregate (db : mongo_db) (pipeline : list stage)
  : M (list pdoc) :=
  (run_pipeline db pipeline, [MoviesAggregate pipeline]).

Definition genre_names (g : genres_field) : string :=
  match g with
  | GenresList l =>
      String.concat ", "
        (flat_map (fun e => match e with
                            | GenreDoc (Some n) => [n]
                            | GenreDoc None => [""]
                            | GenreOther => []
                            end) l)
  | GenresOther => ""
  end.

Definition row_of_doc (p : pdoc) : result_row :=
  let doc := pd_doc p in
  {| row_movie_id := doc_id doc;
     row_title := if str_true (doc_original_title doc)
                  then doc_original_title doc else doc_title doc;
     row_released_date := match doc_release_date doc with
                          | Some s => DateStr s
                          | None => DateNone
                          end;
     row_popularity := float_or_zero (doc_popularity doc);
     row_avg_rating := match pd_avg_rating p with Some a => a | None => 0%Q end;
     row_num_ratings := match pd_num_ratings p with Some n => n | None => O end;
     row_genres := genre_names (doc_genres doc) |}.

(** Step 1 of [search_mongo]: the identifiers the actor filter
    resolves to ([None] when there is no actor filter). *)
Definition actor_ids (db : mongo_db) (actor : option string)
  : M (option (list Z)) :=
  match actor with
  | Some a =>
      if a =? "" then ret None
      else
        sample_credit <- credits_find_one db ;;
        let credits_query :=
          match sample_credit with
          | Some c => match cr_cast c with
                      | CastList _ => CastNameRegex a
                      | _ => CastRegex a
                      end
          | None => CastRegex a
          end in
        credit_results <- credits_find db credits_query 500 ;;
        ret (Some (somes (map cr_id credit_results)))
  | None => ret None
  end.

(** Step 2 of [search_mongo]: the pipeline. *)
Definition build_pipeline (tmdb_ids_from_actor : option (list Z))
           (genre : option string) (year_start year_end : option Z)
           (sort_by : string) (limit : nat) (title : option string)
  : list stage :=
  let match_conditions :=
    when_str title (fun t => [TitleOr t]) ++
    when_str genre (fun g => [GenresElemMatch g]) ++
    match both_years year_start year_end with
    | Some (a, b) =>
        [ReleaseDateRange (str_of_int a ++ "-01-01")%string
                          (str_of_int b ++ "-12-31")%string]
    | None => []
    end ++
    match tmdb_ids_from_actor with
    | Some (i :: r) => [IdIn (i :: r)]
    | _ => []
    end in
  match match_conditions with
  | [] => []
  | _ => [Match match_conditions]
  end ++
  [LookupRatings; AddRatingFields; ProjectOutRatings] ++
  [if sort_by =? "rating" then SortRatingPopularity else SortPopularity] ++
  [Limit limit].

Definition search_mongo_run (db : mongo_db) (genre actor : option string)
           (year_start year_end : option Z) (sort_by : string)
           (limit : nat) (title : option string) : M (list result_row) :=
  tmdb_ids_from_actor <- actor_ids db actor ;;
  match tmdb_ids_from_actor with
  | Some [] => ret []
  | _ =>
      results <- movies_aggregate db
                   (build_pipeline tmdb_ids_from_actor genre year_start
                                   year_end sort_by limit title) ;;
      ret (map row_of_doc results)
  end.

(** The value [search_mongo] returns, and the calls it makes. *)
Definition search_mongo (db : mongo_db) (genre actor : option string)
           (year_start year_end : option Z) (sort_by : string)
           (limit : nat) (title : option string) : list result_row :=
  fst (search_mongo_run db genre actor year_start year_end sort_by limit title).

Definition search_mongo_calls (db : mongo_db) (genre actor : option string)
           (year_start year_end : option Z) (sort_by : string)
           (limit : nat) (title : option string) : list mongo_op :=
  snd (search_mongo_run db genre actor year_start year_end sort_by limit title).

End Engines.

(** ** Consistent data

    What "the same data in both engines" means here: the document
    store holds, movie by movie, the image of the relational rows.
    A movie document carries the relational title in both title
    fields, the release date as ISO text, the names of its genres
    embedded; a credits document lists the names of its cast; every
    rating row has its rating document. *)

Definition pad (width : nat) (s : string) : string :=
  (string_of_list_ascii (repeat "0"%char (width - String.length s)) ++ s)%string.

(** [YYYY-MM-DD]. *)
Definition iso_date (d : date) : string :=
  (pad 4 (str_of_int (d_year d)) ++ "-" ++ pad 2 (str_of_int (d_month d))
     ++ "-" ++ pad 2 (str_of_int (d_day d)))%string.

Definition genres_of (db : pg_db) (movie : Z) : list genre :=
  flat_map (fun mg => filter (fun g => (mg_genre_id mg =? genre_id g)%Z) (genres db))
           (filter (fun mg => (movie =? mg_movie_id mg)%Z) (movie_genres db)).

Definition cast_of (db : pg_db) (movie : Z) : list person :=
  flat_map (fun mc => filter (fun p => (mc_person_id mc =? person_id p)%Z) (people db))
           (filter (fun mc => (movie =? mc_movie_id mc)%Z) (movie_casts db)).

Definition document_image (db : pg_db) : mongo_db :=
  {| movies_col :=
       map (fun m =>
              {| doc_id := movie_id m;
                 doc_title := title m;
                 doc_original_title := title m;
                 doc_release_date := option_map iso_date (released_date m);
                 doc_popularity := popularity m;
                 doc_genres :=
                   GenresList (map (fun g => GenreDoc (Some (genre_name g)))
                                   (genres_of db (movie_id m))) |})
           (movies db);
     credits_col :=
       map (fun m =>
              {| cr_id := Some (movie_id m);
                 cr_cast := CastList (map person_name (cast_of db (movie_id m))) |})
           (movies db);
     ratings_col :=
       map (fun r => {| rd_movie_id := r_movie_id r;
                        rd_rating := Some (r_rating r) |})
           (ratings db) |}.

Definition consistent (pg : pg_db) (mg : mongo_db) : Prop :=
  mg = document_image pg.

End Catalog.

(* ================================================================== *)
(** * Reference text operators

    Executable stand-ins for the engines' operators, used to run the
    model on examples: [LIKE] patterns with [%], [_] and the backslash
    escape, compared without case; and regular expressions that hold no
    metacharacter, which search their text literally. *)
(* ================================================================== *)

Module TextOps.
Open Scope string_scope.

Definition lower (c : ascii) : ascii :=
  let n := nat_of_ascii c in
  if ((65 <=? n) && (n <=? 90))%nat then ascii_of_nat (n + 32) else c.

Definition same_char (c d : ascii) : bool := Ascii.eqb (lower c) (lower d).

Fixpoint like (pat : string) : string -> bool :=
  match pat with
  | EmptyString => fun s => match s with EmptyString => true | _ => false end
  | String "%" rest =>
      fix star (s : string) : bool :=
        like rest s || match s with
                       | String _ r => star r
                       | EmptyString => false
                       end
  | String "_" rest =>
      fun s => match s with String _ r => like rest r | EmptyString => false end
  | String "\" (String c rest) =>
      fun s => match s with
               | String d r => same_char c d && like rest r
               | EmptyString => false
               end
  | String c rest =>
      fun s => match s with
               | String d r => same_char c d && like rest r
               | EmptyString => false
               end
  end.

Definition ilike (pat s : string) : bool := like pat s.

Fixpoint prefix_i (p s : string) : bool :=
  match p, s with
  | EmptyString, _ => true
  | String c p', String d s' => same_char c d && prefix_i p' s'
  | String _ _, EmptyString => false
  end.

Fixpoint contains_i (p s : string) : bool :=
  prefix_i p s || match s with
                  | String _ r => contains_i p r
                  | EmptyString => false
                  end.

Definition literal_regex_i (re s : string) : bool := contains_i re s.

End TextOps.

(* ================================================================== *)
(** * Interactive search handlers *)
(* ================================================================== *)

Module Web.
Import Py Catalog.
Open Scope string_scope.
Open Scope list_scope.

(** The two stores behind the application.  An engine that is out of
    order raises on every query it is sent. *)
Record world := {
  w_pg : pg_db;
  w_mongo : mongo_db;
  w_pg_fault : option string;
  w_mongo_fault : option string
}.

(** What the handler did, in order. *)
Inductive event :=
| CursorOpened
| CursorClosed
| SearchedPostgres (genre actor : option string) (year_start year_end : option Z)
                   (sort_by : string) (title : option string)
| SearchedMongo (genre actor : option string) (year_start year_end : option Z)
                (sort_by : string) (title : option string)
| Flashed (e : exn).

(** The arguments of [render_template] (the genre dropdown, read
    afterwards in a [try] of its own, is left out). *)
Record page := {
  p_movies : list result_row;
  p_title : string;
  p_genre : string;
  p_actor : string;
  p_year_start : string;
  p_year_end : string;
  p_sort_by : string;
  p_search_performed : bool;
  p_error : option exn
}.

(** The handler renders its page, or an exception escapes it (the
    framework then answers with status 500). *)
Inductive outcome :=
| Rendered (p : page)
| Raised (e : exn).

(** [request.args.get(key, default)]: the first value sent for [key]. *)
Fixpoint args_get (args : list (string * string)) (key default : string)
  : string :=
  match args with
  | [] => default
  | (k, v) :: r => if k =? key then v else args_get r key default
  end.

(** [int(year) if year else None]: [inl] the value, [inr] the
    [ValueError] of [int]. *)
Definition year_int (year : string) : option Z + exn :=
  if year =? "" then inl None
  else match int_of_string year with
       | Some z => inl (Some z)
       | None => inr ValueError
       end.

Section Handlers.
Variable ilike : string -> string -> bool.
Variable regex_i : string -> string -> bool.

(** The [try: cur = get_db_cursor(); try: search_postgres(...)
    finally: cur.close()] block: the rows or the exception, and the
    events. *)
Definition postgres_block (w : world) (genre actor : option string)
           (ys ye : option Z) (sort_by : string) (title : option string)
  : (list result_row + exn) * list event :=
  match w_pg_fault w with
  | Some msg =>
      (inr (EngineError msg),
       [CursorOpened; SearchedPostgres genre actor ys ye sort_by title;
        CursorClosed])
  | None =>
      (inl (search_postgres ilike (w_pg w) genre actor ys ye sort_by 100 title),
       [CursorOpened; SearchedPostgres genre actor ys ye sort_by title;
        CursorClosed])
  end.

Definition mongo_block (w : world) (genre actor : option string)
           (ys ye : option Z) (sort_by : string) (title : option string)
  : (list result_row + exn) * list event :=
  match w_mongo_fault w with
  | Some msg =>
      (inr (EngineError msg), [SearchedMongo genre actor ys ye sort_by title])
  | None =>
      (inl (search_mongo regex_i (w_mongo w) genre actor ys ye sort_by 100 title),
       [SearchedMongo genre actor ys ye sort_by title])
  end.

(** The body shared by the two handlers; [use_mongo] is the test
    [db_type == 'mongodb'], never true for the user view. *)
Definition search_handler (use_mongo : bool) (w : world)
           (args : list (string * string)) : outcome * list event :=
  let title := strip (args_get args "title" "") in
  let genre := strip (args_get args "genre" "") in
  let actor := strip (args_get args "actor" "") in
  let year_start := strip (args_get args "year_start" "") in
  let year_end := strip (args_get args "year_end" "") in
  let sort_by := strip (args_get args "sort_by" "popularity") in
  let sort_by := if (sort_by =? "popularity") || (sort_by =? "rating")
                 then sort_by else "popularity" in
  let render movies error search_performed :=
    Rendered {| p_movies := movies; p_title := title; p_genre := genre;
                p_actor := actor; p_year_start := year_start;
                p_year_end := year_end; p_sort_by := sort_by;
                p_search_performed := search_performed;
                p_error := error |} in
  match args with
  | [] => (render [] None false, [])
  | _ =>
      match year_int year_start with
      | inr e => (Raised e, [])
      | inl year_start_int =>
          match year_int year_end with
          | inr e => (Raised e, [])
          | inl year_end_int =>
              let '(r, evs) :=
                (if use_mongo then mongo_block else postgres_block)
                  w (or_none genre) (or_none actor)
                  year_start_int year_end_int sort_by (or_none title) in
              match r with
              | inl movies => (render movies None true, evs)
              | inr e => (render [] (Some e) true, evs ++ [Flashed e])
              end
          end
      end
  end.

(** [/combined-search]: the engine follows the session. *)
Definition combined_search (db_type : string) (w : world)
           (args : list (string * string)) : outcome * list event :=
  search_handler (db_type =? "mongodb") w args.

(** [/user/advanced-search]: always the relational engine. *)
Definition user_advanced_search (w : world)
           (args : list (string * string)) : outcome * list event :=
  search_handler false w args.

End Handlers.

End Web.

(* ================================================================== *)
(** * Benchmark harness *)
(* ================================================================== *)

Module Bench.
Import Py PyFloat Stats.
Open Scope string_scope.
Open Scope list_scope.

(** ** The request body *)

(** A value of the parsed JSON; of a nested array or object only the
    size matters to the handler. *)
Inductive json :=
| JNull
| JBool (b : bool)
| JInt (z : Z)
| JFloat (f : float)
| JStr (s : string)
| JArr (size : nat)
| JObj (size : nat).

(** What [request.get_json()] returns: an object, by its members, or
    any other value ([JNull] for Python's [None]). *)
Inductive body :=
| Object (members : list (string * json))
| NotObject (v : json).

(** Truth value of a parsed JSON value. *)
Definition truthy (j : json) : bool :=
  match j with
  | JNull => false
  | JBool b => b
  | JInt z => negb (z =? 0)%Z
  | JFloat f => negb (is_zero f)
  | JStr s => negb (s =? "")
  | JArr n | JObj n => negb (n =? 0)%nat
  end.

(** [data.get(key, default)] on the members of the parsed object. *)
Fixpoint dict_get (o : list (string * json)) (key : string) (default : json)
  : json :=
  match o with
  | [] => default
  | (k, v) :: r => if k =? key then v else dict_get r key default
  end.

(** [int(v)]. *)
Definition int_of_json (v : json) : Z + exn :=
  match v with
  | JInt z => inl z
  | JBool b => inl (if b then 1 else 0)%Z
  | JFloat f =>
      match to_int f with
      | Some z => inl z
      | None => inr (match f with S754_nan => ValueError | _ => OverflowError end)
      end
  | JStr s =>
      match int_of_string s with
      | Some z => inl z
      | None => inr ValueError
      end
  | JNull | JArr _ | JObj _ => inr TypeError
  end.

(** [test_type == name]. *)
Definition test_is (test_type : json) (name : string) : bool :=
  match test_type with
  | JStr t => t =? name
  | _ => false
  end.

(** [max(lo, min(hi, n))]. *)
Definition clamp (lo hi n : Z) : Z := Z.max lo (Z.min hi n).

(** [runs = max(5, min(200, int(data.get('runs', 50))))] and
    [limit = max(1, min(200, int(data.get('limit', 50))))]. *)
Definition effective_runs (data : list (string * json)) : Z + exn :=
  match int_of_json (dict_get data "runs" (JInt 50)) with
  | inl n => inl (clamp 5 200 n)
  | inr e => inr e
  end.

Definition effective_limit (data : list (string * json)) : Z + exn :=
  match int_of_json (dict_get data "limit" (JInt 50)) with
  | inl n => inl (clamp 1 200 n)
  | inr e => inr e
  end.

(** [re.escape]: a backslash before each character that is special in
    a regular expression. *)
Definition special_char (c : ascii) : bool :=
  existsb (Nat.eqb (nat_of_ascii c))
          [40; 41; 91; 93; 123; 125; 63; 42; 43; 45; 124; 94; 36; 92; 46;
           38; 126; 35; 32; 9; 10; 13; 11; 12]%nat.

Fixpoint re_escape (s : string) : string :=
  match s with
  | EmptyString => EmptyString
  | String c r =>
      if special_char c then String "\" (String c (re_escape r))
      else String c (re_escape r)
  end.

(** A text parameter of the request: the escaped text
    ([re.escape(t) if t else '']) and the value passed on to the
    combined search ([t if t else None]).  A true value that is not a
    string makes [re.escape] raise. *)
Definition text_param (v : json) : (string * option string) + exn :=
  match v with
  | JStr t => if t =? "" then inl ("", None) else inl (re_escape t, Some t)
  | _ => if truthy v then inr TypeError else inl ("", None)
  end.

(** ** The engines, seen from the harness

    Every call on an engine is answered by the environment: the rows
    (by their first column) or documents returned, or the message of
    the error the engine raises.  The answer may depend on how many
    calls the engine has already served. *)

Inductive pg_stmt :=
| SqlTitle (pattern : string) (limit : Z)
| SqlGenre (pattern : string) (limit : Z)
| SqlYearRange (year_from year_to limit : Z)
| SqlActor (pattern : string) (limit : Z)
| SqlCombined (genre actor : option string) (year_start year_end : Z)
              (sort_by : json) (limit : Z)      (* search_postgres(pg_cursor, ...) *)
| SqlFirstMovie
| SqlDeepFetch (movie_id : Z)
| SqlExplain (stmt : pg_stmt).

Inductive mongo_call :=
| FindTitle (re : string) (limit : Z)
| FindGenre (re : string) (limit : Z)
| FindYearRange (date_from date_to : string) (limit : Z)
| FindCast (cast_is_array : bool) (re : string) (limit : Z)
| FindCombined (genre actor : option string) (year_start year_end : Z)
               (sort_by : json) (limit : Z)     (* search_mongo(...) *)
| FindFirstMovie
| FindOneMovie (movie_id : Z).

Record env := {
  pg_execute : nat -> pg_stmt -> list json + string;
  mongo_find : nat -> mongo_call -> list json + string;
  (** [find_one({"cast": {"$exists": True}})]: is there a sample, and
      is its cast a list? *)
  mongo_sample : nat -> option bool + string;
  (** [.explain()], already formatted by [_format_mongo_explain]. *)
  mongo_explain : nat -> mongo_call -> string + string;
  (** Successive readings of [time.perf_counter()]. *)
  clock : nat -> float
}.

Record bstate := {
  open_cursors : nat;    (* cursors acquired and not yet closed *)
  pg_calls : nat;        (* calls the relational engine has served *)
  mongo_calls : nat;     (* calls the document engine has served *)
  engine_errors : nat;   (* calls that ended in an engine error *)
  ticks : nat            (* clock readings taken *)
}.

Definition initial : bstate :=
  {| open_cursors := 0; pg_calls := 0; mongo_calls := 0;
     engine_errors := 0; ticks := 0 |}.

(** ** The response *)

Inductive note :=
| NoteWarmup (n : nat)
| NoteOpsPerSec
| NoteCastArray
| NoteCastString
| NoteLinksBridge
| NoteBothAverage
| NoteSortBy (sort_by : json)
| NoteUsingMovie (movie_id : json).

Inductive error_body :=
| NoJsonData
| UnknownTestType (test_type : json)
| NoMoviesPostgres
| NoMoviesMongo
| Uncaught (e : exn).       (* {"error": str(e), "traceback": ...} *)

Record report := {
  rep_test_type : json;
  rep_postgres : option metrics;
  rep_mongodb : option metrics;
  rep_notes : list note;
  rep_explain : option (option string * option string)
}.

Inductive response :=
| ErrorResponse (status : Z) (e : error_body)
| Report (r : report).

(** ** A monad for the body of the handler: state, exceptions and
    early [return]. *)

Inductive res (A : Type) :=
| Val (a : A)
| Exc (e : exn)
| Ret (r : response).
Arguments Val {A} a.
Arguments Exc {A} e.
Arguments Ret {A} r.

Definition B (A : Type) : Type := bstate -> res A * bstate.

Definition ret {A} (a : A) : B A := fun s => (Val a, s).
Definition raise {A} (e : exn) : B A := fun s => (Exc e, s).
Definition return_ {A} (r : response) : B A := fun s => (Ret r, s).
Definition bind {A C} (m : B A) (f : A -> B C) : B C :=
  fun s => match m s with
           | (Val a, s') => f a s'
           | (Exc e, s') => (Exc e, s')
           | (Ret r, s') => (Ret r, s')
           end.

Notation "x <- m ;; k" := (bind m (fun x => k))
  (at level 61, m at next level, right associativity).
Notation "m ;;; k" := (bind m (fun _ => k))
  (at level 61, right associativity).

Definition lift {A} (v : A + exn) : B A :=
  match v with
  | inl a => ret a
  | inr e => raise e
  end.

Fixpoint repeat_ (n : nat) (body : B unit) : B unit :=
  match n with
  | O => ret tt
  | S k => body ;;; repeat_ k body
  end.

Section Harness.
Variable E : env.

(** [pg_cursor = conn.cursor()] and [pg_cursor.close()]. *)
Definition open_cursor : B unit :=
  fun s => (Val tt, {| open_cursors := S (open_cursors s);
                       pg_calls := pg_calls s;
                       mongo_calls := mongo_calls s;
                       engine_errors := engine_errors s;
                       ticks := ticks s |}).

Definition close_cursor : B unit :=
  fun s => (Val tt, {| open_cursors := pred (open_cursors s);
                       pg_calls := pg_calls s;
                       mongo_calls := mongo_calls s;
                       engine_errors := engine_errors s;
                       ticks := ticks s |}).

Definition perf_counter : B float :=
  fun s => (Val (clock E (ticks s)),
            {| open_cursors := open_cursors s;
               pg_calls := pg_calls s;
               mongo_calls := mongo_calls s;
               engine_errors := engine_errors s;
               ticks := S (ticks s) |}).

(** An engine's answer becomes a value or an exception. *)
Definition answer {A} (a : A + string) : res A :=
  match a with
  | inl v => Val v
  | inr msg => Exc (EngineError msg)
  end.

Definition errors_after {A} (a : A + string) (n : nat) : nat :=
  match a with
  | inl _ => n
  | inr _ => S n
  end.

Definition pg_served {A} (a : A + string) (s : bstate) : bstate :=
  {| open_cursors := open_cursors s; pg_calls := S (pg_calls s);
     mongo_calls := mongo_calls s;
     engine_errors := errors_after a (engine_errors s);
     ticks := ticks s |}.

Definition mongo_served {A} (a : A + string) (s : bstate) : bstate :=
  {| open_cursors := open_cursors s; pg_calls := pg_calls s;
     mongo_calls := S (mongo_calls s);
     engine_errors := errors_after a (engine_errors s);
     ticks := ticks s |}.

(** [pg_cursor.execute(...)] followed by the fetch. *)
Definition pg (stmt : pg_stmt) : B (list json) :=
  fun s => let a := pg_execute E (pg_calls s) stmt in
           (answer a, pg_served a s).

Definition mongo (c : mongo_call) : B (list json) :=
  fun s => let a := mongo_find E (mongo_calls s) c in
           (answer a, mongo_served a s).

Definition sample_credit : B (option bool) :=
  fun s => let a := mongo_sample E (mongo_calls s) in
           (answer a, mongo_served a s).

Definition explain_mongo (c : mongo_call) : B string :=
  fun s => let a := mongo_explain E (mongo_calls s) c in
           (answer a, mongo_served a s).

(** The measuring loop: [runs] timed calls; the latency list grows,
    and the result count is that of the last call. *)
Fixpoint measure (runs : nat) (call : B nat)
         (latencies : list float) (count : nat) : B (list float * nat) :=
  match runs with
  | O => ret (latencies, count)
  | S k =>
      start <- perf_counter ;;
      n <- call ;;
      stop <- perf_counter ;;
      measure k call (latencies ++ [mul (sub stop start) (of_Z 1000)]) n
  end.

Definition count_rows (call : B (list json)) : B nat :=
  rows <- call ;; ret (length rows).

(** [fetchone()] and [find_one]: [1 if result else 0]. *)
Definition count_one (call : B (list json)) : B nat :=
  rows <- call ;; ret (match rows with [] => O | _ => 1%nat end).

Definition discard {A} (call : B A) : B unit := call ;;; ret tt.

Definition newline : string := String "010"%char EmptyString.

(** ['\n'.join([row[0] for row in pg_cursor.fetchall()])]. *)
Fixpoint plan_lines (rows : list json) : list string + exn :=
  match rows with
  | [] => inl []
  | JStr t :: r =>
      match plan_lines r with
      | inl l => inl (t :: l)
      | inr e => inr e
      end
  | _ :: _ => inr TypeError
  end.

Definition explain_pg (stmt : pg_stmt) : B string :=
  rows <- pg (SqlExplain stmt) ;;
  lines <- lift (plan_lines rows) ;;
  ret (String.concat newline lines).

(** What a test leaves behind for the metrics. *)
Record samples := {
  pg_latencies : list float;
  mongo_latencies : list float;
  pg_result_count : nat;
  mongo_result_count : nat;
  pg_explain : option string;
  mongo_explain_text : option string;
  notes : list note
}.

Definition warmup_runs : nat := 3.

(** The fixed texts the [combined] test reports instead of a plan. *)
Definition combined_pg_explain : string :=
  ("Combined search uses search_postgres() helper with links bridge."
   ++ newline
   ++ "Query joins: movies -> links -> ratings for fair benchmark.")%string.

Definition combined_mongo_explain : string :=
  ("Combined search uses search_mongo() helper with $lookup aggregation."
   ++ newline
   ++ "Pipeline: $match -> $lookup links -> $lookup ratings -> $sort -> $limit")%string.

(** The tests on result lists ([title], [genre], [year_range],
    [actor]) share their loops: warm-up and measure on the
    relational engine, then on the document engine, then the
    optional plans.  [prepare] is what the test does before it turns
    to the document engine. *)
Definition list_test (stmt : pg_stmt) (prepare : B (mongo_call * list note))
           (runs : nat) (include_explain : bool) (notes0 : list note)
  : B samples :=
  repeat_ warmup_runs (discard (pg stmt)) ;;;
  pgm <- measure runs (count_rows (pg stmt)) [] O ;;
  prep <- prepare ;;
  repeat_ warmup_runs (discard (mongo (fst prep))) ;;;
  mgm <- measure runs (count_rows (mongo (fst prep))) [] O ;;
  ex <- (if include_explain then
           p <- explain_pg stmt ;;
           m <- explain_mongo (fst prep) ;;
           ret (Some p, Some m)
         else ret (None, None)) ;;
  ret {| pg_latencies := fst pgm; mongo_latencies := fst mgm;
         pg_result_count := snd pgm; mongo_result_count := snd mgm;
         pg_explain := fst ex; mongo_explain_text := snd ex;
         notes := notes0 ++ snd prep |}.

(** The body of the [try] block of [benchmark_run]. *)
Definition benchmark_body (request : body) : B response :=
  match request with
  | NotObject v =>
      if truthy v then raise AttributeError
      else return_ (ErrorResponse 400 NoJsonData)
  | Object [] => return_ (ErrorResponse 400 NoJsonData)
  | Object data =>
      let test_type := dict_get data "test_type" (JStr "title") in
      let term := dict_get data "term" (JStr "Toy Story") in
      let genre_term := dict_get data "genre_term" (JStr "Animation") in
      let actor_term := dict_get data "actor_term" (JStr "Tom Hanks") in
      year_from <- lift (int_of_json (dict_get data "year_from" (JInt 1990))) ;;
      year_to <- lift (int_of_json (dict_get data "year_to" (JInt 2000))) ;;
      let movie_id := dict_get data "movie_id" JNull in
      runs <- lift (effective_runs data) ;;
      limit <- lift (effective_limit data) ;;
      let include_explain := truthy (dict_get data "include_explain" (JBool false)) in
      let notes0 := [NoteWarmup warmup_runs; NoteOpsPerSec] in
      t <- lift (text_param term) ;;
      g <- lift (text_param genre_term) ;;
      a <- lift (text_param actor_term) ;;
      let escaped_term := fst t in
      let escaped_genre := fst g in
      let escaped_actor := fst a in
      open_cursor ;;;
      let nruns := Z.to_nat runs in
      smp <-
        (if test_is test_type "title" then
            list_test (SqlTitle ("%" ++ escaped_term ++ "%")%string limit)
                      (ret (FindTitle escaped_term limit, []))
                      nruns include_explain notes0
         else if test_is test_type "genre" then
            list_test (SqlGenre ("%" ++ escaped_genre ++ "%")%string limit)
                      (ret (FindGenre escaped_genre limit, []))
                      nruns include_explain notes0
         else if test_is test_type "year_range" then
            list_test (SqlYearRange year_from year_to limit)
                      (ret (FindYearRange
                              (str_of_int year_from ++ "-01-01")%string
                              (str_of_int year_to ++ "-12-31")%string limit, []))
                      nruns include_explain notes0
         else if test_is test_type "actor" then
            list_test (SqlActor ("%" ++ escaped_actor ++ "%")%string limit)
                      (sample <- sample_credit ;;
                       let cast_is_array :=
                         match sample with Some b => b | None => false end in
                       ret (FindCast cast_is_array escaped_actor limit,
                            [if cast_is_array then NoteCastArray
                             else NoteCastString]))
                      nruns include_explain notes0
         else if test_is test_type "combined" then
            let sort_by := dict_get data "sort_by" (JStr "popularity") in
            let stmt := SqlCombined (snd g) (snd a) year_from year_to sort_by limit in
            let call := FindCombined (snd g) (snd a) year_from year_to sort_by limit in
            repeat_ warmup_runs (discard (pg stmt)) ;;;
            pgm <- measure nruns (count_rows (pg stmt)) [] O ;;
            repeat_ warmup_runs (discard (mongo call)) ;;;
            mgm <- measure nruns (count_rows (mongo call)) [] O ;;
            ret {| pg_latencies := fst pgm; mongo_latencies := fst mgm;
                   pg_result_count := snd pgm; mongo_result_count := snd mgm;
                   pg_explain :=
                     if include_explain then Some combined_pg_explain else None;
                   mongo_explain_text :=
                     if include_explain then Some combined_mongo_explain else None;
                   notes := notes0 ++ [NoteLinksBridge; NoteBothAverage;
                                       NoteSortBy sort_by] |}
         else if test_is test_type "deep_fetch" then
            resolved <-
              (if truthy movie_id then ret (movie_id, [])
               else
                 rows <- pg SqlFirstMovie ;;
                 match rows with
                 | [] => return_ (ErrorResponse 400 NoMoviesPostgres)
                 | first :: _ =>
                     mongo_first_list <- mongo FindFirstMovie ;;
                     match mongo_first_list with
                     | [] => return_ (ErrorResponse 400 NoMoviesMongo)
                     | _ => ret (first, [NoteUsingMovie first])
                     end
                 end) ;;
            id <- lift (int_of_json (fst resolved)) ;;
            let stmt := SqlDeepFetch id in
            let call := FindOneMovie id in
            repeat_ warmup_runs (discard (pg stmt)) ;;;
            pgm <- measure nruns (count_one (pg stmt)) [] O ;;
            repeat_ warmup_runs (discard (mongo call)) ;;;
            mgm <- measure nruns (count_one (mongo call)) [] O ;;
            ex <- (if include_explain then
                     p <- explain_pg stmt ;;
                     m <- explain_mongo call ;;
                     ret (Some p, Some m)
                   else ret (None, None)) ;;
            ret {| pg_latencies := fst pgm; mongo_latencies := fst mgm;
                   pg_result_count := snd pgm; mongo_result_count := snd mgm;
                   pg_explain := fst ex; mongo_explain_text := snd ex;
                   notes := notes0 ++ snd resolved |}
         else
            close_cursor ;;;
            return_ (ErrorResponse 400 (UnknownTestType test_type))) ;;
      close_cursor ;;;
      let metrics_of latencies count :=
        match calc_metrics warmup_runs latencies count with
        | NoMetrics => inl None
        | Metrics m => inl (Some m)
        | CalcRaised => inr ZeroDivisionError
        end in
      pgs <- lift (metrics_of (pg_latencies smp) (pg_result_count smp)) ;;
      mgs <- lift (metrics_of (mongo_latencies smp) (mongo_result_count smp)) ;;
      ret (Report {| rep_test_type := test_type;
                     rep_postgres := pgs;
                     rep_mongodb := mgs;
                     rep_notes := notes smp;
                     rep_explain :=
                       if include_explain
                       then Some (pg_explain smp, mongo_explain_text smp)
                       else None |})
  end.

(** [benchmark_run]: the [try] block, and [except Exception] turning
    any exception into an error response with status 500.  The final
    state tells how many cursors the run leaves open. *)
Definition benchmark_run (request : body) : response * bstate :=
  match benchmark_body request initial with
  | (Val r, s) => (r, s)
  | (Ret r, s) => (r, s)
  | (Exc e, s) => (ErrorResponse 500 (Uncaught e), s)
  end.

End Harness.

End Bench.

(* ================================================================== *)
(** * Sample data *)
(* ================================================================== *)

Module Sample.
Import Catalog.
Open Scope string_scope.

(** A small catalogue: one rated movie, one without ratings, one with
    neither title nor date. *)
Definition pg : pg_db :=
  {| movies :=
       [ {| movie_id := 862; title := Some "Toy Story";
            released_date := Some {| d_year := 1995; d_month := 10; d_day := 30 |};
            popularity := Some (219 # 10) |};
         {| movie_id := 949; title := Some "Heat";
            released_date := Some {| d_year := 1995; d_month := 12; d_day := 15 |};
            popularity := Some (179 # 10) |};
         {| movie_id := 5; title := None;
            released_date := None; popularity := None |} ];
     ratings :=
       [ {| rating_id := 1; r_movie_id := 862; r_rating := 4 # 1 |};
         {| rating_id := 2; r_movie_id := 862; r_rating := 8 # 1 |} ];
     genres :=
       [ {| genre_id := 18; genre_name := "Drama" |};
         {| genre_id := 16; genre_name := "Animation" |} ];
     movie_genres :=
       [ {| mg_movie_id := 862; mg_genre_id := 16 |};
         {| mg_movie_id := 862; mg_genre_id := 18 |};
         {| mg_movie_id := 949; mg_genre_id := 18 |} ];
     people :=
       [ {| person_id := 31; person_name := Some "Tom Hanks" |};
         {| person_id := 1158; person_name := Some "Al Pacino" |} ];
     movie_casts :=
       [ {| mc_movie_id := 862; mc_person_id := 31 |};
         {| mc_movie_id := 949; mc_person_id := 1158 |} ] |}.

Definition mongo : mongo_db := document_image pg.

Definition world : Web.world :=
  {| Web.w_pg := pg; Web.w_mongo := mongo;
     Web.w_pg_fault := None; Web.w_mongo_fault := None |}.

End Sample.

(* ================================================================== *)
(** * The database selector of the session *)
(* ================================================================== *)

Module Session.
Open Scope string_scope.

(** [str.lower()], on ASCII text. *)
Fixpoint lower (s : string) : string :=
  match s with
  | EmptyString => EmptyString
  | String c r => String (TextOps.lower c) (lower r)
  end.

(** [x in [a, b, ...]] on strings. *)
Definition among (x : string) (l : list string) : bool :=
  existsb (String.eqb x) l.

(** Of the session only the key [db_type] matters here: its value, or
    [None] while the key is not set. *)
Definition session := option string.

(** [flash(message, category)]. *)
Inductive flashed := Flash (message category : string).

Section Selector.

(** The environment variable [DB_TYPE], when it is set. *)
Variable DB_TYPE : option string.

(** [DEFAULT_DB_TYPE = os.getenv('DB_TYPE', 'postgres').lower()]. *)
Definition DEFAULT_DB_TYPE : string :=
  lower (match DB_TYPE with Some v => v | None => "postgres" end).

(** [session.get('db_type', DEFAULT_DB_TYPE)]. *)
Definition session_db_type (s : session) : string :=
  match s with
  | Some v => v
  | None => DEFAULT_DB_TYPE
  end.

Definition get_db_display_name (s : session) : string :=
  if among (session_db_type s) ["postgres"; "postgresql"]
  then "PostgreSQL" else "MongoDB".

Definition is_using_mongodb (s : session) : bool :=
  among (session_db_type s) ["mongodb"; "mongo"].

(** [inject_db_info]: [current_db_type] and [current_db_raw]. *)
Definition inject_db_info (s : session) : string * string :=
  (get_db_display_name s, session_db_type s).

(** [switch_database]: the form field [db_type] ([None] when the form
    does not carry it), the session before; the session after and the
    message flashed.  Every path redirects to [index]. *)
Definition switch_database (form_db_type : option string) (s : session)
  : session * flashed :=
  let new_db_type :=
    lower (match form_db_type with
           | Some v => v
           | None => DEFAULT_DB_TYPE
           end) in
  if negb (among new_db_type ["postgres"; "postgresql"; "mongodb"; "mongo"])
  then (s, Flash "Invalid database type" "danger")
  else
    let new_db_type :=
      if among new_db_type ["postgres"; "postgresql"] then "postgres"
      else if among new_db_type ["mongodb"; "mongo"] then "mongodb"
           else new_db_type in
    let db_name := if new_db_type =? "postgres" then "PostgreSQL"
                   else "MongoDB" in
    (Some new_db_type,
     Flash ("Successfully switched to " ++ db_name ++ "!") "info").

(** The test [db_type == 'mongodb'] by which [combined_search] picks
    its engine. *)
Definition search_uses_mongo (s : session) : bool :=
  session_db_type s =? "mongodb".

End Selector.
End Session.

(* ================================================================== *)
(** * The benchmark of the comparison API *)
(* ================================================================== *)

Module CompareBench.
Import Py PyFloat Stats.
Open Scope string_scope.
Open Scope Z_scope.

(** The member [params] of the request: an object, or any other JSON
    value. *)
Inductive params :=
| ParamsObject (members : list (string * Bench.json))
| ParamsOther.

(** [request.json]: an object, with its member [params] apart when it
    has one, or a value that is no object ([null] included). *)
Inductive payload :=
| Payload (members : list (string * Bench.json)) (params : option params)
| NotAnObject.

(** ** The engines, seen from the handler *)

Record env := {
  (** [psycopg2.connect(...)]: done, or the message of the error. *)
  connect : nat -> unit + string;
  (** [cur.execute(..., (limit,))] with the fetch. *)
  execute : nat -> Bench.json -> unit + string;
  (** [get_top_viewed_movies(days, limit)]. *)
  top_viewed : nat -> Bench.json -> Bench.json -> unit + string;
  (** Successive readings of [time.time()]. *)
  clock : nat -> float
}.

Record cstate := {
  open_conns : nat;       (* connections opened and not yet closed *)
  connects : nat;         (* connections asked for *)
  sql_calls : nat;        (* statements sent to the relational engine *)
  sql_failures : nat;     (* statements that ended in an error *)
  nosql_calls : nat;      (* calls of the document engine *)
  ticks : nat             (* clock readings taken *)
}.

Definition initial : cstate :=
  {| open_conns := 0; connects := 0; sql_calls := 0; sql_failures := 0;
     nosql_calls := 0; ticks := 0 |}.

(** State and exceptions. *)
Definition C (A : Type) : Type := cstate -> (A + exn) * cstate.

Definition ret {A} (a : A) : C A := fun s => (inl a, s).
Definition raise {A} (e : exn) : C A := fun s => (inr e, s).
Definition bind {A D} (m : C A) (f : A -> C D) : C D :=
  fun s => match m s with
           | (inl a, s') => f a s'
           | (inr e, s') => (inr e, s')
           end.

Notation "x <- m ;; k" := (bind m (fun x => k))
  (at level 61, m at next level, right associativity).
Notation "m ;;; k" := (bind m (fun _ => k))
  (at level 61, right associativity).

Definition lift {A} (v : A + exn) : C A :=
  match v with
  | inl a => ret a
  | inr e => raise e
  end.

Section Handler.
Variable E : env.

Definition now : C float :=
  fun s => (inl (clock E (ticks s)),
            {| open_conns := open_conns s; connects := connects s;
               sql_calls := sql_calls s; sql_failures := sql_failures s;
               nosql_calls := nosql_calls s; ticks := S (ticks s) |}).

(** [conn = get_db_connection()]. *)
Definition get_db_connection : C unit :=
  fun s =>
    match connect E (connects s) with
    | inl _ =>
        (inl tt,
         {| open_conns := S (open_conns s); connects := S (connects s);
            sql_calls := sql_calls s; sql_failures := sql_failures s;
            nosql_calls := nosql_calls s; ticks := ticks s |})
    | inr msg =>
        (inr (EngineError msg),
         {| open_conns := open_conns s; connects := S (connects s);
            sql_calls := sql_calls s; sql_failures := sql_failures s;
            nosql_calls := nosql_calls s; ticks := ticks s |})
    end.

(** [cur.execute(...); cur.fetchall()]. *)
Definition run_sql (limit : Bench.json) : C unit :=
  fun s =>
    match execute E (sql_calls s) limit with
    | inl _ =>
        (inl tt,
         {| open_conns := open_conns s; connects := connects s;
            sql_calls := S (sql_calls s); sql_failures := sql_failures s;
            nosql_calls := nosql_calls s; ticks := ticks s |})
    | inr msg =>
        (inr (EngineError msg),
         {| open_conns := open_conns s; connects := connects s;
            sql_calls := S (sql_calls s);
            sql_failures := S (sql_failures s);
            nosql_calls := nosql_calls s; ticks := ticks s |})
    end.

(** [cur.close(); conn.close()]. *)
Definition close_connection : C unit :=
  fun s => (inl tt,
            {| open_conns := pred (open_conns s); connects := connects s;
               sql_calls := sql_calls s; sql_failures := sql_failures s;
               nosql_calls := nosql_calls s; ticks := ticks s |}).

Definition get_top_viewed_movies (days limit : Bench.json) : C unit :=
  fun s =>
    let st := {| open_conns := open_conns s; connects := connects s;
                 sql_calls := sql_calls s; sql_failures := sql_failures s;
                 nosql_calls := S (nosql_calls s); ticks := ticks s |} in
    match top_viewed E (nosql_calls s) days limit with
    | inl _ => (inl tt, st)
    | inr msg => (inr (EngineError msg), st)
    end.

(** [(time.time() - start) * 1000]. *)
Definition elapsed_ms (start stop : float) : float :=
  mul (sub stop start) (of_Z 1000).

(** One turn of [for i in range(iterations)]: the two timing lists
    before and after. *)
Definition iteration (query_type : Bench.json) (p : params)
           (times : list float * list float) : C (list float * list float) :=
  if Bench.test_is query_type "top_movies" then
    match p with
    | ParamsOther => raise AttributeError
    | ParamsObject members =>
        let limit := Bench.dict_get members "limit" (Bench.JInt 10) in
        let days := Bench.dict_get members "days" (Bench.JInt 30) in
        start <- now ;;
        get_db_connection ;;;
        run_sql limit ;;;
        close_connection ;;;
        stop <- now ;;
        let sql_times := (fst times ++ [elapsed_ms start stop])%list in
        start <- now ;;
        get_top_viewed_movies days limit ;;;
        stop <- now ;;
        ret (sql_times, (snd times ++ [elapsed_ms start stop])%list)
    end
  else ret times.

Fixpoint iterate (n : nat) (query_type : Bench.json) (p : params)
         (times : list float * list float) : C (list float * list float) :=
  match n with
  | O => ret times
  | S k => times' <- iteration query_type p times ;;
           iterate k query_type p times'
  end.

(** [calculate_percentile(data, percentile)]:
    [[
      sorted_data = sorted(data)
      index = int(len(sorted_data) * percentile / 100)
      return sorted_data[min(index, len(sorted_data) - 1)]
    ]]
    [None] stands for the [IndexError] of an empty list. *)
Definition percentile_index (n : nat) (percentile : Z) : option Z :=
  match div (of_Z (Z.of_nat n * percentile)) (of_Z 100) with
  | Some q => to_int q
  | None => None
  end.

Definition calculate_percentile (data : list float) (percentile : Z)
  : option float :=
  let sorted_data := sorted data in
  match percentile_index (length sorted_data) percentile with
  | Some index =>
      py_index sorted_data
               (Z.min index (Z.of_nat (length sorted_data) - 1))
  | None => None
  end.

Record stats := {
  st_min : float;
  st_max : float;
  st_avg : float;
  st_p50 : float;
  st_p95 : float;
  st_p99 : float
}.

(** The dictionary of statistics of one engine; [min] of an empty
    list raises [ValueError]. *)
Definition statistics (times : list float) : stats + exn :=
  match min_list times, max_list times with
  | Some mn, Some mx =>
      match div (sum times) (of_Z (Z.of_nat (length times))),
            calculate_percentile times 50, calculate_percentile times 95,
            calculate_percentile times 99 with
      | Some avg, Some p50, Some p95, Some p99 =>
          inl {| st_min := round mn 2; st_max := round mx 2;
                 st_avg := round avg 2; st_p50 := round p50 2;
                 st_p95 := round p95 2; st_p99 := round p99 2 |}
      | None, _, _, _ => inr ZeroDivisionError
      | _, _, _, _ => inr ValueError
      end
  | _, _ => inr ValueError
  end.

Record comparison := {
  sql_faster_on_avg : bool;
  avg_difference_ms : float;
  sql_more_consistent : bool
}.

Record report := {
  rp_query_type : Bench.json;
  rp_iterations : Z;
  rp_params : params;
  rp_sql : stats;
  rp_nosql : stats;
  rp_comparison : comparison
}.

Inductive response :=
| Stats200 (r : report)
| Error400          (* 'Invalid query_type. Choose: top_movies, trending' *)
| Error500 (e : exn).

(** The [try] block: the response, or the exception that leaves it. *)
Definition benchmark_body (request : payload) : C response :=
  match request with
  | NotAnObject => raise AttributeError
  | Payload data prm =>
      let query_type := Bench.dict_get data "query_type" (Bench.JStr "top_movies") in
      n <- lift (Bench.int_of_json (Bench.dict_get data "iterations" (Bench.JInt 10))) ;;
      let iterations := Z.min n 100 in
      let p := match prm with
               | Some v => v
               | None => ParamsObject []
               end in
      if negb (Bench.test_is query_type "top_movies" || Bench.test_is query_type "trending")
      then ret Error400
      else
        times <- iterate (Z.to_nat iterations) query_type p ([], []) ;;
        sql_stats <- lift (statistics (fst times)) ;;
        nosql_stats <- lift (statistics (snd times)) ;;
        ret (Stats200
               {| rp_query_type := query_type;
                  rp_iterations := iterations;
                  rp_params := p;
                  rp_sql := sql_stats;
                  rp_nosql := nosql_stats;
                  rp_comparison :=
                    {| sql_faster_on_avg :=
                         ltb (st_avg sql_stats) (st_avg nosql_stats);
                       avg_difference_ms :=
                         round (SFabs (sub (st_avg sql_stats)
                                           (st_avg nosql_stats))) 2;
                       sql_more_consistent :=
                         ltb (sub (st_max sql_stats) (st_min sql_stats))
                             (sub (st_max nosql_stats) (st_min nosql_stats))
                    |} |})
  end.

(** [benchmark]: [except Exception] answers with status 500. *)
Definition benchmark (request : payload) : response * cstate :=
  match benchmark_body request initial with
  | (inl r, s) => (r, s)
  | (inr e, s) => (Error500 e, s)
  end.

End Handler.
End CompareBench.

(* ================================================================== *)
(** * Browsing movies by their ratings *)
(* ================================================================== *)

Module UserRatings.
Import Py.
Open Scope string_scope.
Open Scope list_scope.

(** The two places of the statement that take a parameter. *)
Inductive slot :=
| JoinUserId       (* JOIN ratings r2 ON ... AND r2.user_id = %s *)
| WhereMovieId.    (* m.movie_id = %s *)

Inductive having_cond :=
| HasRatings                 (* COUNT(DISTINCT r.rating_id) > 0 *)
| AvgAtLeast (lo : Z)        (* AVG(r.rating) >= lo *)
| AvgWithin (lo hi : Z)      (* AVG(r.rating) >= lo AND AVG(r.rating) < hi *)
| AvgBelow (hi : Z).         (* AVG(r.rating) < hi *)

Inductive ordering :=
| RatingDesc | RatingAsc | PopularityDesc | ByTitle | ReleaseDateDesc
| Random.

(** The fragments the handler assembles. *)
Record fragments := {
  user_id_join : bool;
  where_conditions : list slot;
  having_conditions : list having_cond;
  order_by : ordering
}.

(** The placeholders of a statement, in the order of its text: in the
    main query and in the count query alike, [{user_id_join}] stands
    before [{where_clause}]. *)
Definition placeholders (f : fragments) : list slot :=
  (if user_id_join f then [JoinUserId] else []) ++ where_conditions f.

(** [cur.execute(query, tuple(params))]: the driver hands the
    parameters to the placeholders by position. *)
Definition bound (f : fragments) (params : list Z) : list (slot * Z) :=
  combine (placeholders f) params.

Inductive statement :=
| MainQuery (f : fragments)     (* the list of movies, LIMIT 100 *)
| CountQuery (f : fragments).   (* the count of the movies *)

(** The relational engine: what a statement with its bound parameters
    returns (rows by their movie identifier), or the message of its
    error. *)
Definition engine := statement -> list (slot * Z) -> list Z + string.

Inductive event :=
| CursorOpened
| Executed (st : statement) (binding : list (slot * Z))
| RolledBack
| Flashed (e : exn)
| CursorClosed.

Inductive outcome :=
| Rendered (movies : list Z) (total_movies : option Z)
| Redirected.       (* to [user_home] *)

(** [int(text)] of a field that is not empty. *)
Definition field_int (text : string) : Z + exn :=
  match int_of_string text with
  | Some z => inl z
  | None => inr ValueError
  end.

(** The fragments and the parameter list, built in the order of the
    code: the movie identifier is appended first, the user identifier
    second. *)
Definition build (args : list (string * string))
  : (fragments * list Z) + exn :=
  let rating_filter := Web.args_get args "rating_filter" "all" in
  let sort_by := Web.args_get args "sort_by" "random" in
  let movie_id_search := strip (Web.args_get args "movie_id" "") in
  let user_id_search := strip (Web.args_get args "user_id" "") in
  let step1 : (list slot * list Z) + exn :=
    if movie_id_search =? "" then inl ([], [])
    else match field_int movie_id_search with
         | inl m => inl ([WhereMovieId], [m])
         | inr e => inr e
         end in
  match step1 with
  | inr e => inr e
  | inl (where_conditions, params) =>
      let step2 : (bool * list Z) + exn :=
        if user_id_search =? "" then inl (false, params)
        else match field_int user_id_search with
             | inl u => inl (true, params ++ [u])
             | inr e => inr e
             end in
      match step2 with
      | inr e => inr e
      | inl (join, params) =>
          let having :=
            [HasRatings] ++
            (if rating_filter =? "excellent" then [AvgAtLeast 4]
             else if rating_filter =? "high" then [AvgWithin 3 4]
             else if rating_filter =? "medium" then [AvgWithin 2 3]
             else if rating_filter =? "low" then [AvgBelow 2]
             else []) in
          let order :=
            if sort_by =? "rating_desc" then RatingDesc
            else if sort_by =? "rating_asc" then RatingAsc
            else if sort_by =? "popularity_desc" then PopularityDesc
            else if sort_by =? "title" then ByTitle
            else if sort_by =? "release_date" then ReleaseDateDesc
            else Random in
          inl ({| user_id_join := join;
                  where_conditions := where_conditions;
                  having_conditions := having;
                  order_by := order |}, params)
      end
  end.

Section Handler.
Variable run : engine.

(** The handler once [get_db_cursor()] has returned a cursor: the
    rest of the [try], the [except] (roll back, flash, redirect) and
    the [finally] (close the cursor). *)
Definition with_cursor (args : list (string * string))
  : outcome * list event :=
  match build args with
  | inr e =>
      (Redirected, [CursorOpened; RolledBack; Flashed e; CursorClosed])
  | inl (f, params) =>
      let b := bound f params in
      match run (MainQuery f) b with
      | inr msg =>
          (Redirected,
           [CursorOpened; Executed (MainQuery f) b; RolledBack;
            Flashed (EngineError msg); CursorClosed])
      | inl movies =>
          match run (CountQuery f) b with
          | inr msg =>
              (Redirected,
               [CursorOpened; Executed (MainQuery f) b;
                Executed (CountQuery f) b; RolledBack;
                Flashed (EngineError msg); CursorClosed])
          | inl count =>
              (Rendered movies (hd_error count),
               [CursorOpened; Executed (MainQuery f) b;
                Executed (CountQuery f) b; CursorClosed])
          end
      end
  end.

(** What [get_db_cursor()] does, first thing in the [try]: it
    returns a cursor, or [conn.cursor()] raises, with a message. *)
Inductive cursor_result :=
| GotCursor
| NoCursor (msg : string).

(** [user_ratings].  When [get_db_cursor()] raises, [cur] is still
    [None]: the [except] flashes and redirects without a roll back,
    and the [finally] has no cursor to close. *)
Definition user_ratings (get_db_cursor : cursor_result)
           (args : list (string * string)) : outcome * list event :=
  match get_db_cursor with
  | NoCursor msg => (Redirected, [Flashed (EngineError msg)])
  | GotCursor => with_cursor args
  end.

End Handler.
End UserRatings.

(* ================================================================== *)
(** * Administration of genres, ratings and people *)
(* ================================================================== *)

Module Admin.
Import Catalog.
Open Scope string_scope.
Open Scope list_scope.

(** What an admin function raises. *)
Inductive failure :=
| ValueError (message : string)
| IntegrityError                  (* a unique constraint of the engine *)
| GenreInUse (movie_count : nat). (* Exception("Cannot delete genre: used by ... movies") *)

Definition with_genres (db : pg_db) (gs : list genre) : pg_db :=
  {| movies := movies db; ratings := ratings db; genres := gs;
     movie_genres := movie_genres db; people := people db;
     movie_casts := movie_casts db |}.

Definition with_ratings (db : pg_db) (rs : list rating) : pg_db :=
  {| movies := movies db; ratings := rs; genres := genres db;
     movie_genres := movie_genres db; people := people db;
     movie_casts := movie_casts db |}.

(** ** Genres *)

(** [admin_create_genre]: [INSERT INTO genres (genre_name) VALUES (%s)
    ON CONFLICT (genre_name) DO NOTHING RETURNING genre_id].
    [new_id] is the identifier the engine draws for the row.  A row
    that bears the name already makes the statement do nothing; an
    identifier already taken violates the key. *)
Definition admin_create_genre (new_id : Z) (db : pg_db) (genre_name : string)
  : (option Z * pg_db) + failure :=
  if (genre_name =? "") || (Py.strip genre_name =? "")
  then inr (ValueError "Genre name cannot be empty")
  else
    let clean_name := Py.strip genre_name in
    if existsb (fun g => Catalog.genre_name g =? clean_name) (genres db)
    then inl (None, db)
    else if existsb (fun g => genre_id g =? new_id)%Z (genres db)
         then inr IntegrityError
         else inl (Some new_id,
                   with_genres db
                     (genres db ++ [{| genre_id := new_id;
                                       Catalog.genre_name := clean_name |}])).

(** [admin_get_genre]: [SELECT ... WHERE genre_id = %s], first row. *)
Definition admin_get_genre (db : pg_db) (id : Z) : option genre :=
  find (fun g => (genre_id g =? id)%Z) (genres db).

(** [admin_update_genre]: [UPDATE genres SET genre_name = %s WHERE
    genre_id = %s RETURNING genre_id]; the name must stay unique. *)
Definition admin_update_genre (db : pg_db) (id : Z) (new_name : string)
  : (option Z * pg_db) + failure :=
  if (new_name =? "") || (Py.strip new_name =? "")
  then inr (ValueError "Genre name cannot be empty")
  else
    let clean_name := Py.strip new_name in
    if existsb (fun g => (genre_id g =? id)%Z) (genres db)
    then
      if existsb (fun g => negb (genre_id g =? id)%Z
                           && (Catalog.genre_name g =? clean_name))
                 (genres db)
      then inr IntegrityError
      else inl (Some id,
                with_genres db
                  (map (fun g => if (genre_id g =? id)%Z
                                 then {| genre_id := genre_id g;
                                         Catalog.genre_name := clean_name |}
                                 else g) (genres db)))
    else inl (None, db).

(** [admin_delete_genre]: refused while a movie bears the genre. *)
Definition admin_delete_genre (db : pg_db) (id : Z)
  : (option Z * pg_db) + failure :=
  let movie_count :=
    length (filter (fun mg => (mg_genre_id mg =? id)%Z) (movie_genres db)) in
  if (0 <? movie_count)%nat then inr (GenreInUse movie_count)
  else
    inl (if existsb (fun g => (genre_id g =? id)%Z) (genres db)
         then Some id else None,
         with_genres db
           (filter (fun g => negb (genre_id g =? id)%Z) (genres db))).

(** ** Ratings *)

Definition admin_get_rating (db : pg_db) (id : Z) : option rating :=
  find (fun r => (rating_id r =? id)%Z) (ratings db).

(** [admin_update_rating], for a rating that is a finite number:
    [[
      if new_rating < 0 or new_rating > 10:
          raise ValueError("Rating must be between 0 and 10")
    ]] *)
Definition admin_update_rating (db : pg_db) (id : Z) (new_rating : Q)
  : (option Z * pg_db) + failure :=
  if Qlt_le_dec new_rating 0 then inr (ValueError "Rating must be between 0 and 10")
  else if Qlt_le_dec 10 new_rating
       then inr (ValueError "Rating must be between 0 and 10")
       else
         inl (if existsb (fun r => (rating_id r =? id)%Z) (ratings db)
              then Some id else None,
              with_ratings db
                (map (fun r => if (rating_id r =? id)%Z
                               then {| rating_id := rating_id r;
                                       r_movie_id := r_movie_id r;
                                       r_rating := new_rating |}
                               else r) (ratings db))).

(** [admin_delete_rating]. *)
Definition admin_delete_rating (db : pg_db) (id : Z) : option Z * pg_db :=
  (if existsb (fun r => (rating_id r =? id)%Z) (ratings db)
   then Some id else None,
   with_ratings db (filter (fun r => negb (rating_id r =? id)%Z) (ratings db))).

(** ** The gender of a person *)

Definition GENDER_UNKNOWN : Z := 0.
Definition GENDER_FEMALE : Z := 1.
Definition GENDER_MALE : Z := 2.
Definition GENDER_NON_BINARY : Z := 3.

Definition GENDER_MAP : list (Z * string) :=
  [(GENDER_UNKNOWN, "Unknown"); (GENDER_FEMALE, "Female");
   (GENDER_MALE, "Male"); (GENDER_NON_BINARY, "Non-binary")].

Definition validate_gender (gender : option Z) : Z :=
  match gender with
  | None => GENDER_UNKNOWN
  | Some g =>
      if existsb (Z.eqb g)
                 [GENDER_UNKNOWN; GENDER_FEMALE; GENDER_MALE; GENDER_NON_BINARY]
      then g else GENDER_UNKNOWN
  end.

(** [GENDER_MAP.get(gender, "Unknown")]. *)
Definition get_gender_display (gender : option Z) : string :=
  match gender with
  | None => "Unknown"
  | Some g =>
      match find (fun kv => (fst kv =? g)%Z) GENDER_MAP with
      | Some kv => snd kv
      | None => "Unknown"
      end
  end.

End Admin.

(* ================================================================== *)
(** * Checking a range of integers by computation *)
(* ================================================================== *)

Module Range.

Fixpoint all_from (f : Z -> bool) (k : nat) (z : Z) : bool :=
  match k with
  | O => true
  | S k' => f z && all_from f k' (z + 1)
  end.

Lemma all_from_sound (f : Z -> bool) (k : nat) :
  forall z j, all_from f k z = true -> z <= j < z + Z.of_nat k -> f j = true.
Proof.
  induction k as [|k IH]; intros z j Hc Hj; [lia|].
  cbn [all_from] in Hc. apply andb_true_iff in Hc as [H0 Hr].
  destruct (Z.eq_dec j z) as [->|Hne]; [exact H0|].
  apply (IH (z + 1)); [exact Hr|lia].
Qed.

Lemma all_in_range (f : Z -> bool) (lo hi : Z) :
  all_from f (Z.to_nat (hi - lo + 1)) lo = true ->
  forall j, lo <= j <= hi -> f j = true.
Proof.
  intros C j Hj. apply (all_from_sound f _ lo j C).
  rewrite Z2Nat.id; lia.
Qed.

End Range.

(* ================================================================== *)
(** * Properties of the statistics reducer *)
(* ================================================================== *)

Module StatsFacts.
Import PyFloat Stats.

(** The index [int(n * 0.95)], computed in binary64, is the integer
    [floor (19 n / 20)]: checked by computation for every sample
    count up to 100000 (the harness never takes more than 200). *)
Definition index_ok (z : Z) : bool :=
  match to_int (mul (of_Z z) c095) with
  | Some i => i =? 19 * z / 20
  | None => false
  end.

Lemma index_checked :
  Range.all_from index_ok (Z.to_nat (100000 - 0 + 1)) 0 = true.
Proof. vm_compute. reflexivity. Qed.

Lemma p95_index_floor (n : nat) :
  Z.of_nat n <= 100000 -> p95_index n = Some (19 * Z.of_nat n / 20).
Proof.
  intros Hn.
  assert (H : index_ok (Z.of_nat n) = true).
  { apply (Range.all_in_range index_ok 0 100000 index_checked). lia. }
  unfold index_ok in H. unfold p95_index.
  destruct (to_int (mul (of_Z (Z.of_nat n)) c095)) as [i|]; [|discriminate].
  apply Z.eqb_eq in H. now subst.
Qed.

Lemma insert_length (x : float) (l : list float) :
  length (insert x l) = S (length l).
Proof.
  induction l as [|y r IH]; cbn; [reflexivity|].
  destruct (ltb y x); cbn; [now rewrite IH|reflexivity].
Qed.

Lemma sorted_length (l : list float) : length (sorted l) = length l.
Proof.
  induction l as [|x r IH]; cbn; [reflexivity|].
  now rewrite insert_length, IH.
Qed.

Lemma insert_perm (x : float) (l : list float) :
  Permutation (x :: l) (insert x l).
Proof.
  induction l as [|y r IH]; cbn; [apply Permutation_refl|].
  destruct (ltb y x); [|apply Permutation_refl].
  eapply Permutation_trans; [apply perm_swap|]. now apply perm_skip.
Qed.

(** [sorted] rearranges the samples, it neither adds nor loses one. *)
Lemma sorted_perm (l : list float) : Permutation l (sorted l).
Proof.
  induction l as [|x r IH]; cbn; [constructor|].
  eapply Permutation_trans; [apply perm_skip, IH|apply insert_perm].
Qed.

(** The rank the nearest-rank rule selects, against the index the code
    uses. *)
Lemma floor_index_vs_rank (n : Z) :
  0 <= n ->
  (n mod 20 <> 0 -> 19 * n / 20 = (95 * n + 99) / 100 - 1) /\
  (n mod 20 = 0 -> 19 * n / 20 = (95 * n + 99) / 100).
Proof.
  intros Hn. split; intros Hm.
  - assert (Hr : (19 * n) mod 20 <> 0).
    { intros H. apply Hm.
      apply Z.mod_divide in H; [|lia]. apply Z.mod_divide; [lia|].
      apply Z.gauss with 19; [exact H|reflexivity]. }
    pose proof (Z.div_mod (19 * n) 20 ltac:(lia)) as E.
    pose proof (Z.mod_pos_bound (19 * n) 20 ltac:(lia)) as B.
    set (q := 19 * n / 20) in *. set (r := (19 * n) mod 20) in *.
    replace (95 * n + 99) with ((q + 1) * 100 + (5 * r - 1)) by lia.
    rewrite Z.div_add_l by lia.
    rewrite Z.div_small by lia. lia.
  - assert (Hr : (19 * n) mod 20 = 0).
    { apply Z.mod_divide; [lia|]. apply Z.mod_divide in Hm; [|lia].
      now apply Z.divide_mul_r. }
    pose proof (Z.div_mod (19 * n) 20 ltac:(lia)) as E.
    set (q := 19 * n / 20) in *. rewrite Hr in E.
    replace (95 * n + 99) with (q * 100 + 99) by lia.
    rewrite Z.div_add_l by lia. rewrite Z.div_small by lia. lia.
Qed.

(** The specification's own example: 100 values spread evenly from 5
    to 500. *)
Definition uniform_5_500 : list float :=
  map (fun k => of_Z (5 * Z.of_nat k)) (seq 1 100).

(** The specification's small example: 10, 20, 30, 40. *)
Definition four_samples : list float := map of_Z [10; 20; 30; 40].

(** Thirty samples, 1 to 30: a size that is not a multiple of 20. *)
Definition thirty_samples : list float :=
  map (fun k => of_Z (Z.of_nat k)) (seq 1 30).

(** C3, as stated, fails: on the 100 values 5, 10, ..., 500 the reducer
    reports 480, the sample of rank 96, where the 95th percentile by
    nearest rank is 475, the sample of rank 95. *)
Lemma p95_is_not_nearest_rank :
  (20 <= length uniform_5_500)%nat /\
  p95_latency_ms uniform_5_500 = Some (of_Z 480) /\
  option_map (fun x => round x 3) (nearest_rank 95 uniform_5_500)
    = Some (of_Z 475) /\
  p95_latency_ms uniform_5_500
    <> option_map (fun x => round x 3) (nearest_rank 95 uniform_5_500).
Proof.
  split; [vm_compute; lia|].
  split; [vm_compute; reflexivity|].
  split; [vm_compute; reflexivity|].
  vm_compute. discriminate.
Qed.

(** C3, amended: with fewer than 20 samples the reported p95 is the
    reported maximum (the largest sample rounded to 3 decimals); with
    20 samples or more it is the sample at index [floor (0.95 n)]
    (from 0) of the sorted list, rounded to 3 decimals.  That sample
    is the nearest-rank 95th percentile unless [n] is a multiple of
    20, where it is the next sample up. *)
Theorem p95_floor_index (latencies : list float) :
  0 < Z.of_nat (length latencies) <= 100000 ->
  let n := Z.of_nat (length latencies) in
  ((length latencies < 20)%nat ->
     p95_latency_ms latencies = max_latency_ms latencies /\
     exists x, max_list latencies = Some x /\
               p95_latency_ms latencies = Some (round x 3)) /\
  ((20 <= length latencies)%nat ->
     exists x,
       nth_error (sorted latencies) (Z.to_nat (19 * n / 20)) = Some x /\
       p95_latency_ms latencies = Some (round x 3) /\
       (n mod 20 <> 0 -> nearest_rank 95 latencies = Some x) /\
       (n mod 20 = 0 ->
          nth_error (sorted latencies)
                    (Z.to_nat (nearest_rank_position 95 (length latencies)))
            = Some x)).
Proof.
  intros [Hpos Hmax] n. split.
  - intros Hlt. unfold p95_latency_ms, max_latency_ms.
    destruct (Nat.leb_spec 20 (length latencies)) as [H|_]; [lia|].
    split; [reflexivity|].
    destruct latencies as [|x r]; [cbn in Hpos; lia|].
    cbn [max_list option_map]. eexists. split; reflexivity.
  - intros Hge. unfold p95_latency_ms.
    destruct (Nat.leb_spec 20 (length latencies)) as [_|H]; [|lia].
    rewrite (p95_index_floor _ Hmax). fold n.
    assert (Hi : 0 <= 19 * n / 20 < n).
    { split; [apply Z.div_pos; lia|].
      apply Z.div_lt_upper_bound; lia. }
    assert (Hsome : exists x,
               nth_error (sorted latencies) (Z.to_nat (19 * n / 20)) = Some x).
    { destruct (nth_error (sorted latencies) (Z.to_nat (19 * n / 20))) eqn:E;
        [eauto|].
      apply nth_error_None in E. rewrite sorted_length in E. lia. }
    destruct Hsome as [x Hx]. exists x. split; [exact Hx|].
    unfold py_index.
    destruct (Z.ltb_spec (19 * n / 20) 0) as [Hneg|_]; [lia|].
    rewrite Hx. split; [reflexivity|].
    destruct (floor_index_vs_rank n ltac:(lia)) as [Hodd Heven].
    unfold nearest_rank, nearest_rank_position. fold n.
    split; intros Hm.
    + rewrite <- (Hodd Hm). exact Hx.
    + rewrite <- (Heven Hm). exact Hx.
Qed.

Lemma p95_floor_index_witness :
  (0 < Z.of_nat (length four_samples) <= 100000 /\
   p95_latency_ms four_samples = max_latency_ms four_samples /\
   p95_latency_ms four_samples = Some (of_Z 40)) /\
  (0 < Z.of_nat (length thirty_samples) <= 100000 /\
   (20 <= length thirty_samples)%nat /\
   exists x, nth_error (sorted thirty_samples) 28 = Some x /\
             p95_latency_ms thirty_samples = Some (round x 3) /\
             nearest_rank 95 thirty_samples = Some x) /\
  (0 < Z.of_nat (length uniform_5_500) <= 100000 /\
   (20 <= length uniform_5_500)%nat /\
   exists x, nth_error (sorted uniform_5_500) 95 = Some x /\
             p95_latency_ms uniform_5_500 = Some (round x 3)).
Proof.
  assert (H4 : 0 < Z.of_nat (length four_samples) <= 100000) by (cbn; lia).
  assert (H30 : 0 < Z.of_nat (length thirty_samples) <= 100000) by (cbn; lia).
  assert (H100 : 0 < Z.of_nat (length uniform_5_500) <= 100000) by (cbn; lia).
  assert (G30 : (20 <= length thirty_samples)%nat) by (cbn; lia).
  assert (G100 : (20 <= length uniform_5_500)%nat) by (cbn; lia).
  split; [|split].
  - split; [exact H4|].
    pose proof (p95_floor_index four_samples H4) as K. cbv zeta in K.
    destruct K as [Hsmall _].
    destruct (Hsmall ltac:(cbn; lia)) as [Heq _].
    split; [exact Heq|]. vm_compute. reflexivity.
  - split; [exact H30|]. split; [exact G30|].
    pose proof (p95_floor_index thirty_samples H30) as K. cbv zeta in K.
    destruct K as [_ Hbig].
    destruct (Hbig G30) as (x & Hx & Hp & Hrank & _).
    exists x. split; [exact Hx|]. split; [exact Hp|].
    apply Hrank. cbn. lia.
  - split; [exact H100|]. split; [exact G100|].
    pose proof (p95_floor_index uniform_5_500 H100) as K. cbv zeta in K.
    destruct K as [_ Hbig].
    destruct (Hbig G100) as (x & Hx & Hp & _ & _).
    exists x. split; [exact Hx|exact Hp].
Defined.

End StatsFacts.

(* ================================================================== *)
(** * Properties of the comparison reporter *)
(* ================================================================== *)

Module CompareFacts.
Import PyFloat Compare.

(** Dividing a finite non-zero float by itself gives exactly [1.0]. *)
Lemma div_self_core (m : positive) (e : Z) :
  SFdiv_core_binary prec emax (Zpos m) e (Zpos m) e = (2 ^ 53, -53, loc_Exact).
Proof.
  unfold SFdiv_core_binary.
  rewrite !Z.sub_diag.
  change (Z.min (fexp prec emax 0) 0) with (-53).
  change (0 - -53) with 53.
  cbv iota beta zeta.
  rewrite Z.shiftl_mul_pow2 by lia.
  pose proof (Z.div_eucl_eq (Z.pos m * 2 ^ 53) (Z.pos m) ltac:(lia)) as E.
  pose proof (Z.mod_pos_bound (Z.pos m * 2 ^ 53) (Z.pos m) ltac:(lia)) as B.
  unfold Z.modulo in B.
  destruct (Z.div_eucl (Z.pos m * 2 ^ 53) (Z.pos m)) as [q r] eqn:D.
  assert (Hq : q = 2 ^ 53 /\ r = 0).
  { assert (Hr : r = Z.pos m * (2 ^ 53 - q)) by lia.
    assert (2 ^ 53 - q = 0) by nia. split; nia. }
  destruct Hq as [-> ->].
  unfold new_location. destruct (Z.even (Z.pos m)); reflexivity.
Qed.

Lemma div_self (s : bool) (m : positive) (e : Z) :
  SFdiv prec emax (S754_finite s m e) (S754_finite s m e) = one.
Proof.
  unfold SFdiv. rewrite div_self_core, xorb_nilpotent.
  vm_compute. reflexivity.
Qed.

Lemma compare_cont_eq (p q : positive) :
  Pos.compare_cont Eq p q = Eq -> p = q.
Proof. apply Pos.compare_eq. Qed.

(** Two finite non-zero floats that compare equal are the same value. *)
Lemma eqb_finite_eq (a b : float) :
  is_finite a = true -> is_zero a = false -> is_zero b = false ->
  eqb a b = true -> a = b.
Proof.
  destruct a as [sa| sa | | sa ma ea], b as [sb| sb | | sb mb eb];
    cbn; try discriminate; intros _ _ _.
  - destruct sb; discriminate.
  - destruct sa, sb; try discriminate;
      destruct (Z.compare_spec ea eb) as [->| |]; try discriminate;
      destruct (Pos.compare_cont Eq ma mb) eqn:C; cbn; try discriminate;
      intros _; now rewrite (compare_cont_eq _ _ C).
Qed.

Lemma ltb_asym (a b : float) : ltb a b = true -> ltb b a = false.
Proof.
  unfold ltb, SFltb.
  destruct a as [sa|sa| |sa ma ea], b as [sb|sb| |sb mb eb]; cbn;
    try discriminate; try reflexivity;
    try (destruct sa; discriminate || reflexivity);
    try (destruct sb; discriminate || reflexivity);
    try (destruct sa, sb; discriminate || reflexivity).
  destruct sa, sb; try discriminate; try reflexivity;
    rewrite (Z.compare_antisym ea eb);
    change (Pos.compare_cont Eq mb ma) with (Pos.compare mb ma);
    change (Pos.compare_cont Eq ma mb) with (Pos.compare ma mb);
    rewrite (Pos.compare_antisym ma mb);
    destruct (ea ?= eb); cbn; try discriminate; try reflexivity;
    destruct (Pos.compare ma mb); cbn; try discriminate; reflexivity.
Qed.

Lemma ltb_irrefl (a : float) : ltb a a = false.
Proof.
  destruct a as [s|s| |s m e]; unfold ltb, SFltb, SFcompare;
    try reflexivity; try (destruct s; reflexivity).
  destruct s; rewrite Z.compare_refl;
    change (Pos.compare_cont Eq m m) with (Pos.compare m m);
    rewrite Pos.compare_refl; reflexivity.
Qed.

(** C4, as stated, fails: with both timings at zero the division
    raises, and the handler answers with an error instead of a
    speed-up factor of 1.0. *)
Lemma speedup_unguarded_at_zero :
  eqb zero zero = true /\
  comparison_summary zero zero = None /\
  compare_response zero zero = Error500.
Proof. repeat split. Qed.

(** C4, amended: for finite timings that are not zero, the summary
    names [sql] when its time is strictly lower and [nosql] otherwise
    (also on a tie); the speed-up is the larger time divided by the
    smaller, reported rounded to 2 decimals, and it is exactly 1.0
    when the two timings are equal.  Nothing guards the division. *)
Theorem speedup_of_nonzero (sql_time nosql_time : float) :
  is_finite sql_time = true -> is_finite nosql_time = true ->
  is_zero sql_time = false -> is_zero nosql_time = false ->
  exists c,
    comparison_summary sql_time nosql_time = Some c /\
    compare_response sql_time nosql_time = Ok200 c /\
    speedup_factor c = round (analysis_speedup c) 2 /\
    (ltb sql_time nosql_time = true ->
       faster c = Sql /\
       analysis_speedup c = SFdiv prec emax nosql_time sql_time) /\
    (ltb nosql_time sql_time = true ->
       faster c = Nosql /\
       analysis_speedup c = SFdiv prec emax sql_time nosql_time) /\
    (eqb sql_time nosql_time = true ->
       faster c = Nosql /\ speedup_factor c = one).
Proof.
  intros Fa Fb Za Zb.
  unfold compare_response, comparison_summary, div.
  assert (Zmin : is_zero (py_min sql_time nosql_time) = false).
  { unfold py_min. now destruct (ltb nosql_time sql_time). }
  rewrite Zmin. eexists. split; [reflexivity|]. split; [reflexivity|].
  cbn [speedup_factor analysis_speedup faster].
  split; [reflexivity|]. split; [|split].
  - intros L. rewrite L. split; [reflexivity|].
    unfold py_max, py_min. rewrite L.
    destruct (ltb nosql_time sql_time) eqn:L'; [|reflexivity].
    rewrite (ltb_asym _ _ L) in L'. discriminate.
  - intros L. unfold py_max, py_min. rewrite L.
    destruct (ltb sql_time nosql_time) eqn:L'; [|split; reflexivity].
    rewrite (ltb_asym _ _ L) in L'. discriminate.
  - intros Heq.
    pose proof (eqb_finite_eq _ _ Fa Za Zb Heq) as <-.
    unfold py_max, py_min. rewrite !ltb_irrefl. split; [reflexivity|].
    destruct sql_time as [s|s| |s m e]; try discriminate.
    rewrite div_self. vm_compute. reflexivity.
Qed.

(** The specification's example: timings 10 and 30. *)
Lemma speedup_of_nonzero_witness :
  is_finite (of_Z 10) = true /\ is_finite (of_Z 30) = true /\
  is_zero (of_Z 10) = false /\ is_zero (of_Z 30) = false /\
  exists c,
    comparison_summary (of_Z 10) (of_Z 30) = Some c /\
    faster c = Sql /\ speedup_factor c = of_Z 3.
Proof.
  repeat (split; [reflexivity|]).
  destruct (speedup_of_nonzero (of_Z 10) (of_Z 30)
              eq_refl eq_refl eq_refl eq_refl)
    as (c & Hc & _ & Hr & Hlt & _).
  exists c. split; [exact Hc|].
  destruct (Hlt eq_refl) as [Hf Hs]. split; [exact Hf|].
  rewrite Hr, Hs. vm_compute. reflexivity.
Defined.

End CompareFacts.

(* ================================================================== *)
(** * Properties of the benchmark harness *)
(* ================================================================== *)

Module BenchFacts.
Import Py PyFloat Stats Bench.
Open Scope string_scope.
Open Scope Z_scope.

(** ** Clamping of the iteration count and of the result limit *)

(** "Clamped to the range [lo]..[hi]", in the specification's words. *)
Definition clamp_to (lo hi n : Z) : Z :=
  if n <? lo then lo else if hi <? n then hi else n.

Lemma clamp_is_clamp_to (lo hi n : Z) :
  lo <= hi -> clamp lo hi n = clamp_to lo hi n.
Proof.
  intros H. unfold clamp, clamp_to.
  destruct (Z.ltb_spec n lo), (Z.ltb_spec hi n); lia.
Qed.

Lemma dict_get_absent (data : list (string * json)) (key : string) (d : json) :
  (forall v, ~ In (key, v) data) -> dict_get data key d = d.
Proof.
  induction data as [|[k v] r IH]; intros H; cbn; [reflexivity|].
  destruct (String.eqb_spec k key) as [->|_].
  - exfalso. apply (H v). now left.
  - apply IH. intros v' Hin. apply (H v'). now right.
Qed.

(** C7: whatever integer the caller supplies, the iteration count is
    that value clamped to 5..200 and the result limit that value
    clamped to 1..200; when the field is absent, both are 50. *)
Theorem runs_and_limit_clamped (data : list (string * json)) :
  (forall n, int_of_json (dict_get data "runs" (JInt 50)) = inl n ->
     effective_runs data = inl (clamp_to 5 200 n) /\
     5 <= clamp_to 5 200 n <= 200) /\
  (forall n, int_of_json (dict_get data "limit" (JInt 50)) = inl n ->
     effective_limit data = inl (clamp_to 1 200 n) /\
     1 <= clamp_to 1 200 n <= 200) /\
  ((forall v, ~ In ("runs", v) data) -> effective_runs data = inl 50) /\
  ((forall v, ~ In ("limit", v) data) -> effective_limit data = inl 50).
Proof.
  repeat split.
  - unfold effective_runs. rewrite H. now rewrite clamp_is_clamp_to by lia.
  - unfold clamp_to. destruct (Z.ltb_spec n 5), (Z.ltb_spec 200 n); lia.
  - unfold clamp_to. destruct (Z.ltb_spec n 5), (Z.ltb_spec 200 n); lia.
  - unfold effective_limit. rewrite H. now rewrite clamp_is_clamp_to by lia.
  - unfold clamp_to. destruct (Z.ltb_spec n 1), (Z.ltb_spec 200 n); lia.
  - unfold clamp_to. destruct (Z.ltb_spec n 1), (Z.ltb_spec 200 n); lia.
  - intros H. unfold effective_runs. now rewrite dict_get_absent.
  - intros H. unfold effective_limit. now rewrite dict_get_absent.
Qed.

(** A request far out of range on both sides, and one that names
    neither field. *)
Definition greedy_request : list (string * json) :=
  [("test_type", JStr "title"); ("runs", JInt 1000000); ("limit", JInt (-3))].

Definition plain_request : list (string * json) :=
  [("test_type", JStr "title")].

Lemma runs_and_limit_clamped_witness :
  effective_runs greedy_request = inl 200 /\
  effective_limit greedy_request = inl 1 /\
  effective_runs plain_request = inl 50 /\
  effective_limit plain_request = inl 50.
Proof.
  destruct (runs_and_limit_clamped greedy_request) as (Hr & Hl & _ & _).
  destruct (runs_and_limit_clamped plain_request) as (_ & _ & Hr0 & Hl0).
  split; [exact (proj1 (Hr 1000000 eq_refl))|].
  split; [exact (proj1 (Hl (-3) eq_refl))|].
  split.
  - apply Hr0. intros v [H|[]]. discriminate H.
  - apply Hl0. intros v [H|[]]. discriminate H.
Defined.

(** ** Engine errors *)

Definition engine_failed {A} (r : res A) : Prop :=
  match r with
  | Exc (EngineError _) => True
  | _ => False
  end.

(** A computation is [safe] when, started with no engine error on
    record, it either ends with none on record or ends in the
    exception of the engine that failed. *)
Definition safe {A} (m : B A) : Prop :=
  forall s, engine_errors s = 0%nat ->
    engine_errors (snd (m s)) = 0%nat \/ engine_failed (fst (m s)).

Section Safe.
Variable E : env.

Lemma safe_ret {A} (a : A) : safe (ret a).
Proof. intros s H. left. exact H. Qed.

Lemma safe_raise {A} (e : exn) : safe (@raise A e).
Proof. intros s H. left. exact H. Qed.

Lemma safe_return {A} (r : response) : safe (@return_ A r).
Proof. intros s H. left. exact H. Qed.

Lemma safe_lift {A} (v : A + exn) : safe (lift v).
Proof. destruct v; [apply safe_ret|apply safe_raise]. Qed.

Lemma safe_bind {A C} (m : B A) (f : A -> B C) :
  safe m -> (forall a, safe (f a)) -> safe (bind m f).
Proof.
  intros Hm Hf s H. unfold bind. specialize (Hm s H).
  destruct (m s) as [[a|e|r] s1]; cbn [fst snd] in *.
  - destruct Hm as [H1|[]]. apply Hf, H1.
  - exact Hm.
  - exact Hm.
Qed.

Lemma safe_pg (stmt : pg_stmt) : safe (pg E stmt).
Proof.
  intros s H. unfold pg. cbn.
  destruct (pg_execute E (pg_calls s) stmt); cbn;
    [left; exact H|right; exact I].
Qed.

Lemma safe_mongo (c : mongo_call) : safe (mongo E c).
Proof.
  intros s H. unfold mongo. cbn.
  destruct (mongo_find E (mongo_calls s) c); cbn;
    [left; exact H|right; exact I].
Qed.

Lemma safe_sample : safe (sample_credit E).
Proof.
  intros s H. unfold sample_credit. cbn.
  destruct (mongo_sample E (mongo_calls s)); cbn;
    [left; exact H|right; exact I].
Qed.

Lemma safe_explain_mongo (c : mongo_call) : safe (explain_mongo E c).
Proof.
  intros s H. unfold explain_mongo. cbn.
  destruct (mongo_explain E (mongo_calls s) c); cbn;
    [left; exact H|right; exact I].
Qed.

Lemma safe_perf : safe (perf_counter E).
Proof. intros s H. left. exact H. Qed.

Lemma safe_open : safe open_cursor.
Proof. intros s H. left. exact H. Qed.

Lemma safe_close : safe close_cursor.
Proof. intros s H. left. exact H. Qed.

Create HintDb safe.
Hint Resolve safe_ret safe_raise safe_return safe_lift safe_pg safe_mongo
     safe_sample safe_explain_mongo safe_perf safe_open safe_close : safe.

Ltac safe_step :=
  first [ apply safe_bind; [|intros]
        | solve [auto with safe]
        | match goal with |- safe (if ?b then _ else _) => destruct b end
        | match goal with |- safe (match ?x with _ => _ end) => destruct x end ].

Lemma safe_repeat (n : nat) (body : B unit) :
  safe body -> safe (repeat_ n body).
Proof.
  intros Hb. induction n; cbn; [apply safe_ret|]. apply safe_bind; auto.
Qed.

Lemma safe_measure (n : nat) (call : B nat) :
  safe call -> forall l c, safe (measure E n call l c).
Proof.
  intros Hc. induction n; intros l c; cbn; [apply safe_ret|].
  repeat safe_step; auto.
Qed.

Lemma safe_count_rows (call : B (list json)) :
  safe call -> safe (count_rows call).
Proof. intros. unfold count_rows. repeat safe_step; auto. Qed.

Lemma safe_count_one (call : B (list json)) :
  safe call -> safe (count_one call).
Proof. intros. unfold count_one. repeat safe_step; auto. Qed.

Lemma safe_discard {A} (call : B A) : safe call -> safe (discard call).
Proof. intros. unfold discard. repeat safe_step; auto. Qed.

Lemma safe_explain_pg (stmt : pg_stmt) : safe (explain_pg E stmt).
Proof. unfold explain_pg. repeat safe_step. Qed.

Hint Resolve safe_repeat safe_measure safe_count_rows safe_count_one
     safe_discard safe_explain_pg : safe.

Lemma safe_list_test stmt prepare runs ie notes0 :
  safe prepare -> safe (list_test E stmt prepare runs ie notes0).
Proof.
  intros Hp. unfold list_test. repeat safe_step; auto 6 with safe.
Qed.

Lemma safe_body (request : body) : safe (benchmark_body E request).
Proof.
  unfold benchmark_body.
  destruct request as [data|v].
  2:{ destruct (truthy v); auto with safe. }
  destruct data as [|kv data']; [auto with safe|].
  set (d := kv :: data').
  repeat safe_step; try apply safe_list_test; repeat safe_step;
    auto 6 with safe.
Qed.

End Safe.

(** An environment where both engines answer every call. *)
Definition healthy : env :=
  {| pg_execute := fun _ stmt =>
                     match stmt with
                     | SqlExplain _ => inl [JStr "Seq Scan on movies"]
                     | _ => inl [JInt 862; JInt 863]
                     end;
     mongo_find := fun _ _ => inl [JInt 862];
     mongo_sample := fun _ => inl (Some true);
     mongo_explain := fun _ _ => inl "Winning Plan Stage: COLLSCAN";
     clock := fun k => of_Z (Z.of_nat k) |}.

(** The same, but the document engine fails on its fifth call: the
    second measured one, after three warm-up calls. *)
Definition mongo_fails_midrun : env :=
  {| pg_execute := pg_execute healthy;
     mongo_find := fun k c => if (k =? 4)%nat then inr "connection reset"
                              else mongo_find healthy k c;
     mongo_sample := mongo_sample healthy;
     mongo_explain := mongo_explain healthy;
     clock := clock healthy |}.

Definition title_request : body :=
  Object [("test_type", JStr "title"); ("runs", JInt 5)].

(** C2, as stated, fails: the document engine raises in mid-run, the
    relational engine has answered all of its 8 calls, and the
    response is a bare error with status 500: no report, hence no
    statistics for the relational engine either. *)
Lemma no_partial_report :
  fst (benchmark_run mongo_fails_midrun title_request)
    = ErrorResponse 500 (Uncaught (EngineError "connection reset")) /\
  pg_calls (snd (benchmark_run mongo_fails_midrun title_request)) = 8%nat /\
  forall r, fst (benchmark_run mongo_fails_midrun title_request) <> Report r.
Proof.
  split; [vm_compute; reflexivity|].
  split; [vm_compute; reflexivity|].
  intros r. vm_compute. discriminate.
Qed.

(** C2, amended: when an engine raises during a benchmark run, the
    whole run is aborted and the response is the single error object
    of status 500 that carries the engine's message; no statistics
    are returned for either engine. *)
Theorem engine_error_aborts_run (E : env) (request : body) :
  (0 < engine_errors (snd (benchmark_run E request)))%nat ->
  exists msg,
    fst (benchmark_run E request)
      = ErrorResponse 500 (Uncaught (EngineError msg)).
Proof.
  unfold benchmark_run. intros H.
  destruct (safe_body E request initial eq_refl) as [H0|Hf].
  - destruct (benchmark_body E request initial) as [[r|e|r] s];
      cbn [fst snd] in *; lia.
  - destruct (benchmark_body E request initial) as [[r|e|r] s];
      cbn [fst snd] in *; try contradiction.
    destruct e; try contradiction. eexists. reflexivity.
Qed.

Lemma engine_error_aborts_run_witness :
  (0 < engine_errors (snd (benchmark_run mongo_fails_midrun title_request)))%nat /\
  exists msg,
    fst (benchmark_run mongo_fails_midrun title_request)
      = ErrorResponse 500 (Uncaught (EngineError msg)).
Proof.
  assert (H : (0 < engine_errors
                     (snd (benchmark_run mongo_fails_midrun title_request)))%nat)
    by (vm_compute; lia).
  split; [exact H|].
  exact (engine_error_aborts_run mongo_fails_midrun title_request H).
Defined.

(** ** The relational cursor *)

(** An environment whose relational [movies] table is empty. *)
Definition no_movies : env :=
  {| pg_execute := fun _ _ => inl [];
     mongo_find := mongo_find healthy;
     mongo_sample := mongo_sample healthy;
     mongo_explain := mongo_explain healthy;
     clock := clock healthy |}.

Definition deep_fetch_request : body :=
  Object [("test_type", JStr "deep_fetch")].

(** C9 fails on the code: a [deep_fetch] run that finds no movie
    returns its 400 response with the cursor still open. *)
Lemma cursor_left_open_without_movie :
  fst (benchmark_run no_movies deep_fetch_request)
    = ErrorResponse 400 NoMoviesPostgres /\
  open_cursors (snd (benchmark_run no_movies deep_fetch_request)) = 1%nat.
Proof. split; vm_compute; reflexivity. Qed.

(** So does a run that an engine error ends. *)
Lemma cursor_left_open_after_engine_error :
  fst (benchmark_run mongo_fails_midrun title_request)
    = ErrorResponse 500 (Uncaught (EngineError "connection reset")) /\
  open_cursors (snd (benchmark_run mongo_fails_midrun title_request)) = 1%nat.
Proof. split; vm_compute; reflexivity. Qed.

(** The sibling paths do release it: a completed run, and the
    rejection of an unknown test type. *)
Lemma cursor_closed_on_success :
  (exists r, fst (benchmark_run healthy title_request) = Report r) /\
  open_cursors (snd (benchmark_run healthy title_request)) = 0%nat.
Proof. split; [eexists|]; vm_compute; reflexivity. Qed.

Lemma cursor_closed_on_unknown_test :
  fst (benchmark_run healthy (Object [("test_type", JStr "bogus")]))
    = ErrorResponse 400 (UnknownTestType (JStr "bogus")) /\
  open_cursors (snd (benchmark_run healthy (Object [("test_type", JStr "bogus")])))
    = 0%nat.
Proof. split; vm_compute; reflexivity. Qed.

End BenchFacts.

(* ================================================================== *)
(** * Properties of the interactive search handlers *)
(* ================================================================== *)

Module WebFacts.
Import Py Catalog Web.
Open Scope string_scope.

Lemma year_int_error (s : string) (e : exn) :
  year_int s = inr e -> s <> "" /\ int_of_string s = None /\ e = ValueError.
Proof.
  unfold year_int. destruct (String.eqb_spec s ""); [discriminate|].
  destruct (int_of_string s); [discriminate|].
  intros H. injection H as <-. auto.
Qed.

(** A search form whose start year is not a number. *)
Definition bad_year_args : list (string * string) :=
  [("title", "toy"); ("year_start", "abc")].

(** The same form with the year left empty. *)
Definition no_year_args : list (string * string) :=
  [("title", "toy"); ("year_start", "")].

(** C8, as stated, fails: with the text [abc] as start year the
    interactive handler raises [ValueError] before any search runs,
    where the same request without the year renders the page with its
    result. *)
Lemma bad_year_is_not_ignored :
  combined_search TextOps.ilike TextOps.literal_regex_i "postgres"
                  Sample.world bad_year_args = (Raised ValueError, []) /\
  user_advanced_search TextOps.ilike TextOps.literal_regex_i
                       Sample.world bad_year_args = (Raised ValueError, []) /\
  (exists p evs,
      user_advanced_search TextOps.ilike TextOps.literal_regex_i
                           Sample.world no_year_args = (Rendered p, evs) /\
      map row_movie_id (p_movies p) = [862] /\
      In (SearchedPostgres None None None None "popularity" (Some "toy")) evs).
Proof.
  split; [vm_compute; reflexivity|].
  split; [vm_compute; reflexivity|].
  eexists. eexists. split; [vm_compute; reflexivity|].
  split; [reflexivity|]. right. left. reflexivity.
Qed.

(** C8, amended: on the interactive search path a year field is
    passed on as "no year" only when it is empty, and the search
    restricts the release year only when both years it is passed are
    there and not zero; a year field of ASCII text that [int] refuses
    makes the handler raise [ValueError] before any search is
    executed.  The benchmark path answers such year text with the
    error response of status 500. *)
Theorem bad_year_raises
        (ilike regex_i : string -> string -> bool) :
  (forall (use_mongo : bool) (w : world) (args : list (string * string)),
      args <> [] ->
      is_ascii (args_get args "year_start" "") = true ->
      is_ascii (args_get args "year_end" "") = true ->
      (year_int (strip (args_get args "year_start" "")) = inr ValueError \/
       (exists y, year_int (strip (args_get args "year_start" "")) = inl y) /\
       year_int (strip (args_get args "year_end" "")) = inr ValueError) ->
      search_handler ilike regex_i use_mongo w args = (Raised ValueError, [])) /\
  (forall year : string, year_int year = inl None <-> year = "") /\
  (forall year_start year_end : option Z,
      both_years year_start year_end = None <->
      int_true year_start && int_true year_end = false) /\
  (forall (E : Bench.env) (data : list (string * Bench.json)) (t : string),
      data <> [] ->
      Bench.dict_get data "year_from" (Bench.JInt 1990) = Bench.JStr t ->
      is_ascii t = true ->
      int_of_string t = None ->
      Bench.benchmark_run E (Bench.Object data)
        = (Bench.ErrorResponse 500 (Bench.Uncaught ValueError), Bench.initial)).
Proof.
  split; [|split; [|split]].
  - intros use_mongo w args Hne _ _ H. unfold search_handler.
    destruct args as [|a r]; [contradiction|].
    destruct H as [H|[[y Hy] H]].
    + now rewrite H.
    + now rewrite Hy, H.
  - intros year. unfold year_int.
    destruct (String.eqb_spec year ""); [tauto|].
    destruct (int_of_string year); split; intros H;
      solve [discriminate H | contradiction].
  - intros [ys|] [ye|]; unfold both_years; cbn [int_true];
      try (destruct (ys =? 0)%Z); try (destruct (ye =? 0)%Z);
      cbn; split; intros H; solve [reflexivity | discriminate H].
  - intros E data t Hne Hget _ Hint.
    destruct data as [|kv r]; [contradiction|].
    unfold Bench.benchmark_run, Bench.benchmark_body.
    rewrite Hget. cbn [Bench.int_of_json]. rewrite Hint. reflexivity.
Qed.

Lemma bad_year_raises_witness :
  search_handler TextOps.ilike TextOps.literal_regex_i false
                 Sample.world bad_year_args = (Raised ValueError, []) /\
  year_int "" = inl None /\
  both_years (Some 0%Z) (Some 1995%Z) = None /\
  Bench.benchmark_run BenchFacts.healthy
      (Bench.Object [("test_type", Bench.JStr "year_range");
                     ("year_from", Bench.JStr "abc")])
    = (Bench.ErrorResponse 500 (Bench.Uncaught ValueError), Bench.initial).
Proof.
  destruct (bad_year_raises TextOps.ilike TextOps.literal_regex_i)
    as (Hweb & Hempty & Hzero & Hbench).
  split; [|split; [|split]].
  - apply Hweb; [discriminate|reflexivity|reflexivity|]. left. reflexivity.
  - apply Hempty. reflexivity.
  - apply Hzero. reflexivity.
  - apply (Hbench _ _ "abc");
      [discriminate|reflexivity|reflexivity|reflexivity].
Defined.

End WebFacts.

(* ================================================================== *)
(** * Properties of the two query strategies *)
(* ================================================================== *)

Module CatalogFacts.
Import Py Catalog.
Open Scope string_scope.
Open Scope list_scope.

Section Lists.
Context {A : Type}.

Lemma insert_by_perm (before : A -> A -> bool) (x : A) (l : list A) :
  Permutation (x :: l) (insert_by before x l).
Proof.
  induction l as [|y r IH]; cbn; [apply Permutation_refl|].
  destruct (before y x); [|apply Permutation_refl].
  eapply Permutation_trans; [apply perm_swap|]. now apply perm_skip.
Qed.

Lemma sort_by_perm (before : A -> A -> bool) (l : list A) :
  Permutation l (sort_by before l).
Proof.
  induction l as [|x r IH]; cbn; [constructor|].
  eapply Permutation_trans; [apply perm_skip, IH|apply insert_by_perm].
Qed.

Lemma in_firstn (n : nat) (l : list A) (x : A) : In x (firstn n l) -> In x l.
Proof.
  revert l. induction n as [|n IH]; intros [|y r]; cbn; try tauto.
  intros [H|H]; [now left|right; now apply IH].
Qed.

Lemma in_sort_by (before : A -> A -> bool) (l : list A) (x : A) :
  In x (sort_by before l) <-> In x l.
Proof.
  split; intros H.
  - eapply Permutation_in; [apply Permutation_sym, sort_by_perm|exact H].
  - eapply Permutation_in; [apply sort_by_perm|exact H].
Qed.

Lemma sort_by_length (before : A -> A -> bool) (l : list A) :
  length (sort_by before l) = length l.
Proof. symmetry. apply Permutation_length, sort_by_perm. Qed.

(** Rows that pass the sort and a limit that does not cut. *)
Lemma in_top (before : A -> A -> bool) (n : nat) (l : list A) (x : A) :
  (length l <= n)%nat ->
  (In x (firstn n (sort_by before l)) <-> In x l).
Proof.
  intros H. rewrite firstn_all2 by (rewrite sort_by_length; exact H).
  apply in_sort_by.
Qed.

Lemma in_somes (l : list (option A)) (x : A) : In x (somes l) <-> In (Some x) l.
Proof.
  induction l as [|[y|] r IH]; cbn; [tauto| |].
  - rewrite IH. split; intros [H|H]; auto; left; congruence.
  - rewrite IH. split; [auto|]. intros [H|H]; [discriminate|auto].
Qed.
End Lists.

Lemma qsum_nonneg (l : list Q) : Forall (fun q => 0 <= q)%Q l -> (0 <= qsum l)%Q.
Proof.
  induction 1 as [|q r Hq _ IH]; cbn; [apply Qle_refl|].
  replace 0%Q with (0 + 0)%Q by reflexivity. now apply Qplus_le_compat.
Qed.

Lemma average_nonneg (l : list Q) (a : Q) :
  Forall (fun q => 0 <= q)%Q l -> average l = Some a -> (0 <= a)%Q.
Proof.
  intros Hl. unfold average. destruct l as [|x r]; [discriminate|].
  intros H. injection H as <-.
  apply Qle_shift_div_l.
  - unfold Qlt. cbn. lia.
  - rewrite Qmult_0_l. exact (qsum_nonneg (x :: r) Hl).
Qed.

Lemma float_or_zero_nonneg (q : Q) : (0 <= q)%Q -> (0 <= float_or_zero (Some q))%Q.
Proof. intros H. cbn. destruct (Qeq_bool q 0); [apply Qle_refl|exact H]. Qed.

Lemma left_join_in {B} (on : B -> bool) (bs : list B) (x : option B) :
  In x (left_join on bs) ->
  (x = None /\ filter on bs = []) \/ (exists b, x = Some b /\ In b bs /\ on b = true).
Proof.
  unfold left_join. destruct (filter on bs) as [|b r] eqn:E.
  - intros [<-|[]]. now left.
  - intros H. right. apply in_map_iff in H as (b' & <- & Hin).
    rewrite <- E in Hin. apply filter_In in Hin. eauto.
Qed.

Lemma left_join_nonempty {B} (on : B -> bool) (bs : list B) :
  exists x, In x (left_join on bs).
Proof.
  unfold left_join. destruct (filter on bs) as [|b r]; eexists; now left.
Qed.

Definition rating_of_movie (db : pg_db) (m : movie) (row : jrow) : Prop :=
  j_m row = m /\
  match j_r row with
  | Some r => In r (ratings db) /\ r_movie_id r = movie_id m
  | None => forall r, In r (ratings db) -> r_movie_id r <> movie_id m
  end.

Lemma from_clause_rating (db : pg_db) (m : movie) (row : jrow) :
  In row (from_clause db m) -> rating_of_movie db m row.
Proof.
  unfold from_clause. intros H.
  apply in_flat_map in H as (r & Hr & H).
  apply in_flat_map in H as (mg2 & _ & H).
  apply in_map_iff in H as (g2 & <- & _).
  split; [reflexivity|]. cbn.
  apply left_join_in in Hr as [[-> Hnone]|(b & -> & Hin & Hon)].
  - intros r Hin Heq.
    assert (Hf : In r (filter (fun r => (movie_id m =? r_movie_id r)%Z) (ratings db))).
    { apply filter_In. split; [exact Hin|]. apply Z.eqb_eq. now symmetry. }
    rewrite Hnone in Hf. destruct Hf.
  - split; [exact Hin|]. apply Z.eqb_eq in Hon. now symmetry.
Qed.

Lemma apply_join_rating (db : pg_db) (m : movie) (j : join_clause) (row row' : jrow) :
  rating_of_movie db m row -> In row' (apply_join db j row) -> rating_of_movie db m row'.
Proof.
  intros [Hm Hr] H. destruct j; cbn in H.
  - apply in_map_iff in H as (x & <- & _). split; assumption.
  - destruct (j_mg row); [|destruct H].
    apply in_map_iff in H as (x & <- & _). split; assumption.
  - apply in_map_iff in H as (x & <- & _). split; assumption.
  - destruct (j_mc row); [|destruct H].
    apply in_map_iff in H as (x & <- & _). split; assumption.
Qed.

Lemma joined_rows_rating (db : pg_db) (joins : list join_clause) (m : movie) (row : jrow) :
  In row (joined_rows db joins m) -> rating_of_movie db m row.
Proof.
  unfold joined_rows.
  assert (G : forall rows, (forall r, In r rows -> rating_of_movie db m r) ->
              In row (fold_left (fun rows j => flat_map (apply_join db j) rows) joins rows) ->
              rating_of_movie db m row).
  { induction joins as [|j js IH]; intros rows Hrows H; cbn in H; [auto|].
    eapply IH; [|exact H].
    intros r Hr. apply in_flat_map in Hr as (r0 & Hr0 & Hr).
    eapply apply_join_rating; eauto. }
  apply G. intros r. apply from_clause_rating.
Qed.

Lemma from_clause_fields (db : pg_db) (m : movie) (row : jrow) :
  In row (from_clause db m) ->
  j_m row = m /\ j_mg row = None /\ j_g row = None /\ j_mc row = None /\ j_p row = None.
Proof.
  unfold from_clause. intros H.
  apply in_flat_map in H as (r & _ & H).
  apply in_flat_map in H as (mg2 & _ & H).
  apply in_map_iff in H as (g2 & <- & _). cbn. auto.
Qed.

Lemma from_clause_nonempty (db : pg_db) (m : movie) :
  exists row, In row (from_clause db m).
Proof.
  unfold from_clause.
  destruct (left_join_nonempty (fun r => (movie_id m =? r_movie_id r)%Z) (ratings db)) as [r Hr].
  destruct (left_join_nonempty (fun mg2 => (movie_id m =? mg_movie_id mg2)%Z) (movie_genres db)) as [mg2 Hmg2].
  destruct (left_join_nonempty (fun g2 => match mg2 with
                                  | Some x => (mg_genre_id x =? genre_id g2)%Z
                                  | None => false
                                  end) (genres db)) as [g2 Hg2].
  eexists. apply in_flat_map. exists r. split; [exact Hr|].
  apply in_flat_map. exists mg2. split; [exact Hmg2|].
  apply in_map_iff. exists g2. split; [reflexivity|exact Hg2].
Qed.

Lemma in_genres_of (db : pg_db) (id : Z) (g : genre) :
  In g (genres_of db id) <->
  exists mg, In mg (movie_genres db) /\ id = mg_movie_id mg /\
             In g (genres db) /\ mg_genre_id mg = genre_id g.
Proof.
  unfold genres_of. rewrite in_flat_map. split.
  - intros (mg & Hmg & Hg). apply filter_In in Hmg as [Hmg E1].
    apply filter_In in Hg as [Hg E2]. apply Z.eqb_eq in E1, E2. eauto 6.
  - intros (mg & Hmg & E1 & Hg & E2). exists mg.
    split; apply filter_In; split; auto; now apply Z.eqb_eq.
Qed.

Lemma in_cast_of (db : pg_db) (id : Z) (p : person) :
  In p (cast_of db id) <->
  exists mc, In mc (movie_casts db) /\ id = mc_movie_id mc /\
             In p (people db) /\ mc_person_id mc = person_id p.
Proof.
  unfold cast_of. rewrite in_flat_map. split.
  - intros (mc & Hmc & Hp). apply filter_In in Hmc as [Hmc E1].
    apply filter_In in Hp as [Hp E2]. apply Z.eqb_eq in E1, E2. eauto 6.
  - intros (mc & Hmc & E1 & Hp & E2). exists mc.
    split; apply filter_In; split; auto; now apply Z.eqb_eq.
Qed.

(** The rows the two genre joins derive from a set of rows. *)
Lemma genre_joins_in (db : pg_db) (rows : list jrow) (row' : jrow) :
  In row' (flat_map (apply_join db JoinGenres)
                    (flat_map (apply_join db JoinMovieGenres) rows)) ->
  exists row g, In row rows /\ In g (genres_of db (movie_id (j_m row))) /\
                j_m row' = j_m row /\ j_g row' = Some g /\ j_p row' = j_p row /\
                j_mc row' = j_mc row.
Proof.
  intros H. apply in_flat_map in H as (r1 & H1 & H).
  apply in_flat_map in H1 as (row & Hrow & H1).
  cbn in H1. apply in_map_iff in H1 as (mg & <- & Hmg).
  cbn in H. apply in_map_iff in H as (g & <- & Hg). cbn.
  apply filter_In in Hmg as [Hmg E1]. apply filter_In in Hg as [Hg E2].
  apply Z.eqb_eq in E1, E2.
  exists row, g. repeat split; auto. apply in_genres_of. eauto 6.
Qed.

Lemma genre_joins_intro (db : pg_db) (rows : list jrow) (row : jrow) (g : genre) :
  In row rows -> In g (genres_of db (movie_id (j_m row))) ->
  exists row', In row' (flat_map (apply_join db JoinGenres)
                                 (flat_map (apply_join db JoinMovieGenres) rows)) /\
               j_m row' = j_m row /\ j_g row' = Some g /\ j_p row' = j_p row /\
               j_mc row' = j_mc row.
Proof.
  intros Hrow Hg. apply in_genres_of in Hg as (mg & Hmg & E1 & Hg & E2).
  eexists. split.
  - apply in_flat_map. eexists. split.
    + apply in_flat_map. exists row. split; [exact Hrow|].
      cbn. apply in_map_iff. exists mg. split; [reflexivity|].
      apply filter_In. split; [exact Hmg|now apply Z.eqb_eq].
    + cbn. apply in_map_iff. exists g. split; [reflexivity|].
      apply filter_In. split; [exact Hg|now apply Z.eqb_eq].
  - cbn. auto.
Qed.

Lemma cast_joins_in (db : pg_db) (rows : list jrow) (row' : jrow) :
  In row' (flat_map (apply_join db JoinPeople)
                    (flat_map (apply_join db JoinMovieCast) rows)) ->
  exists row p, In row rows /\ In p (cast_of db (movie_id (j_m row))) /\
                j_m row' = j_m row /\ j_g row' = j_g row /\ j_p row' = Some p.
Proof.
  intros H. apply in_flat_map in H as (r1 & H1 & H).
  apply in_flat_map in H1 as (row & Hrow & H1).
  cbn in H1. apply in_map_iff in H1 as (mc & <- & Hmc).
  cbn in H. apply in_map_iff in H as (p & <- & Hp). cbn.
  apply filter_In in Hmc as [Hmc E1]. apply filter_In in Hp as [Hp E2].
  apply Z.eqb_eq in E1, E2.
  exists row, p. repeat split; auto. apply in_cast_of. eauto 6.
Qed.

Lemma cast_joins_intro (db : pg_db) (rows : list jrow) (row : jrow) (p : person) :
  In row rows -> In p (cast_of db (movie_id (j_m row))) ->
  exists row', In row' (flat_map (apply_join db JoinPeople)
                                 (flat_map (apply_join db JoinMovieCast) rows)) /\
               j_m row' = j_m row /\ j_g row' = j_g row /\ j_p row' = Some p.
Proof.
  intros Hrow Hp. apply in_cast_of in Hp as (mc & Hmc & E1 & Hp & E2).
  eexists. split.
  - apply in_flat_map. eexists. split.
    + apply in_flat_map. exists row. split; [exact Hrow|].
      cbn. apply in_map_iff. exists mc. split; [reflexivity|].
      apply filter_In. split; [exact Hmc|now apply Z.eqb_eq].
    + cbn. apply in_map_iff. exists p. split; [reflexivity|].
      apply filter_In. split; [exact Hp|now apply Z.eqb_eq].
  - cbn. auto.
Qed.

(** Which genre and which person a joined row may carry. *)
Definition carried_genre (db : pg_db) (on : bool) (m : movie) (og : option genre) : Prop :=
  if on then exists g, og = Some g /\ In g (genres_of db (movie_id m)) else og = None.

Definition carried_person (db : pg_db) (on : bool) (m : movie) (op : option person) : Prop :=
  if on then exists p, op = Some p /\ In p (cast_of db (movie_id m)) else op = None.

Definition joins_for (gon aon : bool) : list join_clause :=
  (if gon then [JoinMovieGenres; JoinGenres] else []) ++
  (if aon then [JoinMovieCast; JoinPeople] else []).

Lemma joined_rows_carry (db : pg_db) (gon aon : bool) (m : movie) (row : jrow) :
  In row (joined_rows db (joins_for gon aon) m) ->
  j_m row = m /\ carried_genre db gon m (j_g row) /\ carried_person db aon m (j_p row).
Proof.
  unfold joined_rows, joins_for. rewrite fold_left_app.
  destruct gon, aon; cbn [fold_left carried_genre carried_person]; intros H.
  - apply cast_joins_in in H as (r1 & p & H1 & Hp & Em & Eg & Ep).
    apply genre_joins_in in H1 as (r0 & g & H0 & Hg & Em0 & Eg0 & Ep0 & _).
    apply from_clause_fields in H0 as (F1 & _).
    rewrite Em0, F1 in Em. rewrite Em0, F1 in Hp. rewrite F1 in Hg.
    rewrite Eg, Eg0, Ep. eauto 8.
  - apply genre_joins_in in H as (r0 & g & H0 & Hg & Em0 & Eg0 & Ep0 & _).
    apply from_clause_fields in H0 as (F1 & _ & _ & _ & F5).
    rewrite F1 in *. rewrite Ep0, F5. eauto 8.
  - apply cast_joins_in in H as (r1 & p & H1 & Hp & Em & Eg & Ep).
    apply from_clause_fields in H1 as (F1 & _ & F3 & _).
    rewrite F1 in *. rewrite Eg, F3. eauto 8.
  - apply from_clause_fields in H as (F1 & _ & F3 & _ & F5). auto.
Qed.

Lemma joined_rows_reach (db : pg_db) (gon aon : bool) (m : movie)
      (og : option genre) (op : option person) :
  carried_genre db gon m og -> carried_person db aon m op ->
  exists row, In row (joined_rows db (joins_for gon aon) m) /\
              j_m row = m /\ j_g row = og /\ j_p row = op.
Proof.
  unfold joined_rows, joins_for. rewrite fold_left_app.
  destruct (from_clause_nonempty db m) as [b Hb].
  pose proof (from_clause_fields db m b Hb) as (F1 & _ & F3 & _ & F5).
  destruct gon, aon; cbn [fold_left carried_genre carried_person].
  - intros (g & -> & Hg) (p & -> & Hp).
    rewrite <- F1 in Hg.
    destruct (genre_joins_intro db _ b g Hb Hg) as (r1 & H1 & Em & Eg & Ep & _).
    rewrite <- F1, <- Em in Hp.
    destruct (cast_joins_intro db _ r1 p H1 Hp) as (r2 & H2 & Em2 & Eg2 & Ep2).
    exists r2. split; [exact H2|]. rewrite Em2, Em, Eg2, Eg. auto.
  - intros (g & -> & Hg) ->.
    rewrite <- F1 in Hg.
    destruct (genre_joins_intro db _ b g Hb Hg) as (r1 & H1 & Em & Eg & Ep & _).
    exists r1. split; [exact H1|]. rewrite Em, Ep. auto.
  - intros -> (p & -> & Hp).
    rewrite <- F1 in Hp.
    destruct (cast_joins_intro db _ b p Hb Hp) as (r2 & H2 & Em2 & Eg2 & Ep2).
    exists r2. split; [exact H2|]. rewrite Em2, Eg2. auto.
  - intros -> ->. exists b. auto.
Qed.

Section Relational.
Variable ilike : string -> string -> bool.

Definition wrap (t : string) : string := ("%" ++ t ++ "%")%string.

(** A text filter that is absent (or empty) lets everything pass. *)
Definition filter_on (o : option string) (test : string -> bool) : bool :=
  match o with
  | Some t => if t =? "" then true else test t
  | None => true
  end.

Definition opt_ilike (pat : string) (s : option string) : bool :=
  match s with
  | Some t => ilike pat t
  | None => false
  end.

Definition year_ok (ys ye : option Z) (m : movie) : bool :=
  match both_years ys ye with
  | Some (a, b) =>
      match released_date m with
      | Some d => ((a <=? d_year d) && (d_year d <=? b))%Z
      | None => false
      end
  | None => true
  end.

Definition genre_row_ok (gf : option string) (og : option genre) : bool :=
  filter_on gf (fun g => match og with
                            | Some x => ilike (wrap g) (genre_name x)
                            | None => false
                            end).

Definition person_row_ok (af : option string) (op : option person) : bool :=
  filter_on af (fun a => match op with
                            | Some p => opt_ilike (wrap a) (person_name p)
                            | None => false
                            end).

(** The movie passes every filter of the relational query. *)
Definition pg_qualifies (db : pg_db) (gf af : option string)
           (ys ye : option Z) (title_f : option string) (m : movie) : bool :=
  filter_on title_f (fun t => opt_ilike (wrap t) (title m)) &&
  (filter_on gf (fun g => existsb (fun x => ilike (wrap g) (genre_name x))
                                     (genres_of db (movie_id m))) &&
   (filter_on af (fun a => existsb (fun p => opt_ilike (wrap a) (person_name p))
                                      (cast_of db (movie_id m))) &&
    year_ok ys ye m)).

Lemma where_decomposed gf af ys ye sort_by limit title_f (row : jrow) :
  forallb (holds ilike row)
          (q_where (build_query gf af ys ye sort_by limit title_f))
  = filter_on title_f (fun t => opt_ilike (wrap t) (title (j_m row))) &&
    (genre_row_ok gf (j_g row) &&
     (person_row_ok af (j_p row) && year_ok ys ye (j_m row))).
Proof.
  unfold build_query. cbn [q_where]. rewrite !forallb_app.
  cbn [forallb holds andb].
  f_equal; [|f_equal; [|f_equal]].
  - unfold when_str, filter_on. destruct title_f as [t|]; [|reflexivity].
    destruct (t =? ""); [reflexivity|]. cbn. now rewrite andb_true_r.
  - unfold when_str, genre_row_ok, filter_on. destruct gf as [t|]; [|reflexivity].
    destruct (t =? ""); [reflexivity|]. cbn. now rewrite andb_true_r.
  - unfold when_str, person_row_ok, filter_on. destruct af as [t|]; [|reflexivity].
    destruct (t =? ""); [reflexivity|]. cbn. now rewrite andb_true_r.
  - unfold year_ok. destruct (both_years ys ye) as [[a b]|]; [|reflexivity].
    cbn. now rewrite andb_true_r.
Qed.

Lemma joins_of_query gf af ys ye sort_by limit title_f :
  q_joins (build_query gf af ys ye sort_by limit title_f)
  = joins_for (str_true gf) (str_true af).
Proof.
  unfold build_query, joins_for, when_str, str_true. cbn [q_joins].
  destruct gf as [g|], af as [a|];
    try destruct (g =? ""); try destruct (a =? ""); reflexivity.
Qed.

Lemma genre_row_ok_carried db gf m og :
  carried_genre db (str_true gf) m og ->
  genre_row_ok gf og = true ->
  filter_on gf (fun g => existsb (fun x => ilike (wrap g) (genre_name x))
                                    (genres_of db (movie_id m))) = true.
Proof.
  unfold carried_genre, genre_row_ok, filter_on, str_true.
  destruct gf as [t|]; [|reflexivity].
  destruct (t =? ""); [reflexivity|]. cbn.
  intros (g & -> & Hg) H. apply existsb_exists. eauto.
Qed.

Lemma person_row_ok_carried db af m op :
  carried_person db (str_true af) m op ->
  person_row_ok af op = true ->
  filter_on af (fun a => existsb (fun p => opt_ilike (wrap a) (person_name p))
                                    (cast_of db (movie_id m))) = true.
Proof.
  unfold carried_person, person_row_ok, filter_on, str_true.
  destruct af as [t|]; [|reflexivity].
  destruct (t =? ""); [reflexivity|]. cbn.
  intros (p & -> & Hp) H. apply existsb_exists. eauto.
Qed.

Lemma genre_carrier db gf m :
  filter_on gf (fun g => existsb (fun x => ilike (wrap g) (genre_name x))
                                    (genres_of db (movie_id m))) = true ->
  exists og, carried_genre db (str_true gf) m og /\ genre_row_ok gf og = true.
Proof.
  unfold carried_genre, genre_row_ok, filter_on, str_true.
  destruct gf as [t|]; [|now exists None].
  destruct (t =? ""); [now exists None|]. cbn.
  intros H. apply existsb_exists in H as (g & Hg & H'). exists (Some g). eauto.
Qed.

Lemma person_carrier db af m :
  filter_on af (fun a => existsb (fun p => opt_ilike (wrap a) (person_name p))
                                    (cast_of db (movie_id m))) = true ->
  exists op, carried_person db (str_true af) m op /\ person_row_ok af op = true.
Proof.
  unfold carried_person, person_row_ok, filter_on, str_true.
  destruct af as [t|]; [|now exists None].
  destruct (t =? ""); [now exists None|]. cbn.
  intros H. apply existsb_exists in H as (p & Hp & H'). exists (Some p). eauto.
Qed.

(** A movie keeps a row of the join exactly when it passes every
    filter. *)
Lemma group_nonempty_iff db gf af ys ye sort_by limit title_f m :
  group ilike db (build_query gf af ys ye sort_by limit title_f) m <> []
  <-> pg_qualifies db gf af ys ye title_f m = true.
Proof.
  unfold group. rewrite joins_of_query. split.
  - intros H.
    destruct (filter _ _) as [|row rest] eqn:E; [contradiction|].
    assert (Hin : In row (row :: rest)) by now left.
    rewrite <- E in Hin. apply filter_In in Hin as [Hin W].
    rewrite where_decomposed in W.
    apply joined_rows_carry in Hin as (Em & Hg & Hp).
    rewrite Em in W.
    apply andb_true_iff in W as [W1 W]. apply andb_true_iff in W as [W2 W].
    apply andb_true_iff in W as [W3 W4].
    unfold pg_qualifies. rewrite W1, W4.
    rewrite (genre_row_ok_carried _ _ _ _ Hg W2).
    rewrite (person_row_ok_carried _ _ _ _ Hp W3). reflexivity.
  - unfold pg_qualifies. intros W.
    apply andb_true_iff in W as [W1 W]. apply andb_true_iff in W as [W2 W].
    apply andb_true_iff in W as [W3 W4].
    destruct (genre_carrier _ _ _ W2) as (og & Hg & Wg).
    destruct (person_carrier _ _ _ W3) as (op & Hp & Wp).
    destruct (joined_rows_reach db _ _ m og op Hg Hp) as (row & Hin & Em & Eg & Ep).
    assert (Hf : In row (filter (fun row => forallb (holds ilike row)
                  (q_where (build_query gf af ys ye sort_by limit title_f)))
                  (joined_rows db (joins_for (str_true gf) (str_true af)) m))).
    { apply filter_In. split; [exact Hin|].
      rewrite where_decomposed, Em, Eg, Ep, W1, Wg, Wp, W4. reflexivity. }
    intros E. rewrite E in Hf. destruct Hf.
Qed.

(** The groups are the movies that qualify, in table order. *)
Lemma grouped_ids db gf af ys ye sort_by limit title_f :
  map c_movie_id
      (grouped ilike db (build_query gf af ys ye sort_by limit title_f))
  = map movie_id (filter (pg_qualifies db gf af ys ye title_f) (movies db)).
Proof.
  unfold grouped. induction (movies db) as [|m r IH]; [reflexivity|].
  cbn [flat_map filter]. rewrite map_app, IH.
  pose proof (group_nonempty_iff db gf af ys ye sort_by limit title_f m) as G.
  destruct (group ilike db _ m) as [|row rest] eqn:E.
  - destruct (pg_qualifies db gf af ys ye title_f m); [|reflexivity].
    exfalso. now apply (proj2 G).
  - rewrite (proj1 G) by discriminate. reflexivity.
Qed.
End Relational.

Section Dates.
Local Open Scope string_scope.
Local Open Scope Z_scope.

Definition digit (k : Z) : ascii := ascii_of_nat (48 + Z.to_nat k).

Definition digits4 (n : Z) : string :=
  String (digit (n / 1000)) (String (digit (n / 100 mod 10))
    (String (digit (n / 10 mod 10)) (String (digit (n mod 10)) ""))).

Definition valid_date (d : date) : bool :=
  (1000 <=? d_year d) && (d_year d <=? 9999) &&
  (1 <=? d_month d) && (d_month d <=? 12) &&
  (1 <=? d_day d) && (d_day d <=? 31).

Definition month_day (mo dd : Z) : string :=
  "-" ++ pad 2 (str_of_int mo) ++ "-" ++ pad 2 (str_of_int dd).

Lemma four_digits (n : Z) :
  1000 <= n <= 9999 -> str_of_int n = digits4 n /\ pad 4 (str_of_int n) = digits4 n.
Proof.
  intros H.
  assert (C : Range.all_from (fun n => (str_of_int n =? digits4 n)
                                 && (pad 4 (str_of_int n) =? digits4 n))%string
                       (Z.to_nat (9999 - 1000 + 1)) 1000 = true)
    by (vm_compute; reflexivity).
  pose proof (Range.all_in_range _ _ _ C n H) as E. cbn beta in E.
  apply andb_true_iff in E as [E1 E2].
  split; now apply String.eqb_eq.
Qed.

Lemma month_day_bounds (mo dd : Z) :
  1 <= mo <= 12 -> 1 <= dd <= 31 ->
  String.leb "-01-01" (month_day mo dd) = true /\
  String.leb (month_day mo dd) "-12-31" = true.
Proof.
  intros Hm Hd.
  assert (C : Range.all_from (fun mo => Range.all_from (fun dd =>
                 String.leb "-01-01" (month_day mo dd)
                 && String.leb (month_day mo dd) "-12-31")
                                          (Z.to_nat (31 - 1 + 1)) 1)
                       (Z.to_nat (12 - 1 + 1)) 1 = true)
    by (vm_compute; reflexivity).
  pose proof (Range.all_in_range _ _ _ C mo Hm) as E. cbn beta in E.
  pose proof (Range.all_in_range _ _ _ E dd Hd) as E'. cbn beta in E'.
  now apply andb_true_iff in E'.
Qed.

Lemma digit_compare (x y : Z) :
  0 <= x <= 9 -> 0 <= y <= 9 -> Ascii.compare (digit x) (digit y) = (x ?= y).
Proof.
  intros Hx Hy.
  assert (Cx : x = 0 \/ x = 1 \/ x = 2 \/ x = 3 \/ x = 4 \/ x = 5 \/ x = 6 \/
               x = 7 \/ x = 8 \/ x = 9) by lia.
  assert (Cy : y = 0 \/ y = 1 \/ y = 2 \/ y = 3 \/ y = 4 \/ y = 5 \/ y = 6 \/
               y = 7 \/ y = 8 \/ y = 9) by lia.
  repeat (destruct Cx as [->|Cx]); try subst x;
    repeat (destruct Cy as [->|Cy]); try subst y; reflexivity.
Qed.

Lemma digits4_compare (a b : Z) (s t : string) :
  1000 <= a <= 9999 -> 1000 <= b <= 9999 ->
  String.compare (digits4 a ++ s) (digits4 b ++ t)
  = match a ?= b with
    | Eq => String.compare s t
    | c => c
    end.
Proof.
  intros Ha Hb. unfold digits4. cbn [append String.compare].
  set (a3 := a / 1000). set (a2 := a / 100 mod 10). set (a1 := a / 10 mod 10).
  set (a0 := a mod 10).
  set (b3 := b / 1000). set (b2 := b / 100 mod 10). set (b1 := b / 10 mod 10).
  set (b0 := b mod 10).
  assert (Ea : a = 1000 * a3 + 100 * a2 + 10 * a1 + a0 /\
               0 <= a3 <= 9 /\ 0 <= a2 <= 9 /\ 0 <= a1 <= 9 /\ 0 <= a0 <= 9).
  { unfold a3, a2, a1, a0. Z.div_mod_to_equations. lia. }
  assert (Eb : b = 1000 * b3 + 100 * b2 + 10 * b1 + b0 /\
               0 <= b3 <= 9 /\ 0 <= b2 <= 9 /\ 0 <= b1 <= 9 /\ 0 <= b0 <= 9).
  { unfold b3, b2, b1, b0. Z.div_mod_to_equations. lia. }
  destruct Ea as (Ea & A3 & A2 & A1 & A0). destruct Eb as (Eb & B3 & B2 & B1 & B0).
  rewrite !digit_compare by assumption.
  clearbody a3 a2 a1 a0 b3 b2 b1 b0. subst a b.
  destruct (Z.compare_spec a3 b3), (Z.compare_spec a2 b2),
    (Z.compare_spec a1 b1), (Z.compare_spec a0 b0);
    match goal with
    | |- _ = match ?x ?= ?y with _ => _ end =>
        destruct (Z.compare_spec x y); try reflexivity; try lia
    end.
Qed.

Lemma leb_compare (s t : string) :
  String.leb s t = match String.compare s t with Gt => false | _ => true end.
Proof. unfold String.leb. destruct (String.compare s t); reflexivity. Qed.

Lemma iso_date_digits (d : date) :
  valid_date d = true ->
  iso_date d = digits4 (d_year d) ++ month_day (d_month d) (d_day d).
Proof.
  unfold valid_date. rewrite !andb_true_iff, !Z.leb_le. intros H.
  unfold iso_date, month_day.
  rewrite (proj2 (four_digits (d_year d) ltac:(lia))). reflexivity.
Qed.

(** For four-digit years the text comparison of the document engine
    agrees with the comparison of years of the relational engine. *)
Lemma year_lower_bound (a : Z) (d : date) :
  1000 <= a <= 9999 -> valid_date d = true ->
  String.leb (str_of_int a ++ "-01-01") (iso_date d) = (a <=? d_year d).
Proof.
  intros Ha Hd. rewrite (iso_date_digits d Hd).
  rewrite (proj1 (four_digits a Ha)).
  unfold valid_date in Hd. rewrite !andb_true_iff, !Z.leb_le in Hd.
  rewrite leb_compare, digits4_compare by lia.
  destruct (month_day_bounds (d_month d) (d_day d)) as [L _]; [lia|lia|].
  rewrite leb_compare in L.
  destruct (Z.compare_spec a (d_year d)), (Z.leb_spec a (d_year d));
    try lia; try reflexivity; exact L.
Qed.

Lemma year_upper_bound (b : Z) (d : date) :
  1000 <= b <= 9999 -> valid_date d = true ->
  String.leb (iso_date d) (str_of_int b ++ "-12-31") = (d_year d <=? b).
Proof.
  intros Hb Hd. rewrite (iso_date_digits d Hd).
  rewrite (proj1 (four_digits b Hb)).
  unfold valid_date in Hd. rewrite !andb_true_iff, !Z.leb_le in Hd.
  rewrite leb_compare, digits4_compare by lia.
  destruct (month_day_bounds (d_month d) (d_day d)) as [_ U]; [lia|lia|].
  rewrite leb_compare in U.
  destruct (Z.compare_spec (d_year d) b), (Z.leb_spec (d_year d) b);
    try lia; try reflexivity; exact U.
Qed.

End Dates.

Lemma filter_all {A} (f : A -> bool) (l : list A) :
  (forall x, In x l -> f x = true) -> filter f l = l.
Proof.
  induction l as [|x r IH]; intros H; cbn; [reflexivity|].
  rewrite (H x) by now left. f_equal. apply IH. intros y Hy. apply H. now right.
Qed.

Lemma filter_map_comm {A B} (f : A -> B) (p : B -> bool) (l : list A) :
  filter p (map f l) = map f (filter (fun x => p (f x)) l).
Proof.
  induction l as [|x r IH]; cbn; [reflexivity|].
  destruct (p (f x)); cbn; now rewrite IH.
Qed.

Lemma somes_map_some {A B} (f : A -> B) (l : list A) :
  somes (map (fun x => Some (f x)) l) = map f l.
Proof. induction l; cbn; congruence. Qed.

Section Document.
Variable regex_i : string -> string -> bool.

(** The conditions of the [$match] stage. *)
Definition match_conditions (ids : option (list Z)) (gf : option string)
           (ys ye : option Z) (tf : option string) : list match_cond :=
  when_str tf (fun t => [TitleOr t]) ++
  when_str gf (fun g => [GenresElemMatch g]) ++
  match both_years ys ye with
  | Some (a, b) =>
      [ReleaseDateRange (str_of_int a ++ "-01-01")%string
                        (str_of_int b ++ "-12-31")%string]
  | None => []
  end ++
  match ids with
  | Some (i :: r) => [IdIn (i :: r)]
  | _ => []
  end.

Definition keeps (conds : list match_cond) (d : movie_doc) : bool :=
  forallb (cond_matches regex_i d) conds.

Definition ratings_for (db : mongo_db) (d : movie_doc) : list rating_doc :=
  filter (fun r => (rd_movie_id r =? doc_id d)%Z) (ratings_col db).

(** A document after [$lookup], [$addFields] and [$project]. *)
Definition rated (db : mongo_db) (d : movie_doc) : pdoc :=
  {| pd_doc := d;
     pd_ratings := None;
     pd_avg_rating :=
       Some match average (somes (map rd_rating (ratings_for db d))) with
            | Some a => a
            | None => 0%Q
            end;
     pd_num_ratings := Some (length (ratings_for db d)) |}.

Lemma run_pipeline_eq db ids gf ys ye sort_mode limit tf :
  run_pipeline regex_i db (build_pipeline ids gf ys ye sort_mode limit tf)
  = firstn limit
      (sort_by (pdoc_before (sort_mode =? "rating"))
         (map (rated db)
              (filter (keeps (match_conditions ids gf ys ye tf)) (movies_col db)))).
Proof.
  unfold run_pipeline, build_pipeline. fold (match_conditions ids gf ys ye tf).
  set (mc := match_conditions ids gf ys ye tf).
  assert (E : fold_left (fun docs st => run_stage regex_i db st docs)
                        (match mc with [] => [] | _ => [Match mc] end)
                        (map pdoc_of (movies_col db))
              = map pdoc_of (filter (keeps mc) (movies_col db))).
  { destruct mc as [|c r] eqn:Emc.
    - cbn. now rewrite filter_all.
    - cbn [fold_left run_stage]. now rewrite filter_map_comm. }
  rewrite fold_left_app, E. cbn [fold_left app run_stage].
  rewrite !map_map.
  destruct (sort_mode =? "rating"); cbn [fold_left run_stage]; reflexivity.
Qed.

Lemma search_mongo_eq db gf af ys ye sort_mode limit tf :
  search_mongo regex_i db gf af ys ye sort_mode limit tf
  = match fst (actor_ids regex_i db af) with
    | Some [] => []
    | ids => map row_of_doc
                 (run_pipeline regex_i db
                    (build_pipeline ids gf ys ye sort_mode limit tf))
    end.
Proof.
  unfold search_mongo, search_mongo_run, bind.
  destruct (actor_ids regex_i db af) as [[[|i r]|] calls]; reflexivity.
Qed.

(** Every row the document strategy returns comes from a stored
    document that passes the [$match] conditions. *)
Lemma search_mongo_rows db gf af ys ye sort_mode limit tf (row : result_row) :
  In row (search_mongo regex_i db gf af ys ye sort_mode limit tf) ->
  exists d, In d (movies_col db) /\
            keeps (match_conditions (fst (actor_ids regex_i db af)) gf ys ye tf) d = true /\
            row = row_of_doc (rated db d).
Proof.
  rewrite search_mongo_eq.
  set (ids := fst (actor_ids regex_i db af)).
  assert (G : In row (map row_of_doc
                  (run_pipeline regex_i db
                     (build_pipeline ids gf ys ye sort_mode limit tf))) ->
              exists d, In d (movies_col db) /\
                        keeps (match_conditions ids gf ys ye tf) d = true /\
                        row = row_of_doc (rated db d)).
  { rewrite run_pipeline_eq. intros H.
    apply in_map_iff in H as (p & <- & H).
    apply in_firstn, in_sort_by in H.
    apply in_map_iff in H as (d & <- & H).
    apply filter_In in H as [H1 H2]. eauto. }
  destruct ids as [[|i r]|]; [intros []|exact G|exact G].
Qed.
End Document.

Section Equivalence.
Variable ilike : string -> string -> bool.
Variable regex_i : string -> string -> bool.

(** The document that [document_image] makes of a movie. *)
Definition doc_of (pg : pg_db) (m : movie) : movie_doc :=
  {| doc_id := movie_id m;
     doc_title := title m;
     doc_original_title := title m;
     doc_release_date := option_map iso_date (released_date m);
     doc_popularity := popularity m;
     doc_genres :=
       GenresList (map (fun g => GenreDoc (Some (genre_name g)))
                       (genres_of pg (movie_id m))) |}.

Definition credit_of (pg : pg_db) (m : movie) : credit_doc :=
  {| cr_id := Some (movie_id m);
     cr_cast := CastList (map person_name (cast_of pg (movie_id m))) |}.

(** Some member of the movie's cast matches the actor filter. *)
Definition cast_matches (pg : pg_db) (a : string) (m : movie) : bool :=
  existsb (fun p => opt_regex regex_i a (person_name p)) (cast_of pg (movie_id m)).

(** ** Hypotheses of the comparison, as executable tests *)

(** The two text operators agree on the stored strings, for the terms
    of the filter. *)
Definition text_agree (pg : pg_db) (gf af tf : option string) : bool :=
  filter_on tf (fun t =>
    forallb (fun m => Bool.eqb (opt_ilike ilike (wrap t) (title m))
                               (opt_regex regex_i t (title m))) (movies pg)) &&
  filter_on gf (fun g =>
    forallb (fun x => Bool.eqb (ilike (wrap g) (genre_name x))
                               (regex_i g (genre_name x))) (genres pg)) &&
  filter_on af (fun a =>
    forallb (fun p => Bool.eqb (opt_ilike ilike (wrap a) (person_name p))
                               (opt_regex regex_i a (person_name p))) (people pg)).

Definition four_digit (y : Z) : bool := ((1000 <=? y) && (y <=? 9999))%Z.

(** When a year range is given, its bounds and the stored years have
    four digits. *)
Definition years_fit (pg : pg_db) (ys ye : option Z) : bool :=
  match both_years ys ye with
  | Some (a, b) =>
      four_digit a && four_digit b &&
      forallb (fun m => match released_date m with
                        | Some d => valid_date d
                        | None => true
                        end) (movies pg)
  | None => true
  end.

(** The actor filter matches at most 500 credits documents. *)
Definition within_cap (pg : pg_db) (af : option string) : bool :=
  filter_on af (fun a =>
    (length (filter (cast_matches pg a) (movies pg)) <=? 500)%nat).

Lemma find_has_cast_image (pg : pg_db) :
  find has_cast (credits_col (document_image pg))
  = match movies pg with
    | [] => None
    | m :: _ => Some (credit_of pg m)
    end.
Proof. cbn. destruct (movies pg); reflexivity. Qed.

Lemma credit_matches_image (pg : pg_db) (a : string) (m : movie) :
  credit_matches regex_i (CastNameRegex a) (credit_of pg m) = cast_matches pg a m.
Proof.
  unfold credit_of, cast_matches. cbn.
  induction (cast_of pg (movie_id m)) as [|p r IH]; cbn; [reflexivity|].
  now rewrite IH.
Qed.

(** What the actor filter resolves to on consistent data. *)
Lemma actor_ids_image (pg : pg_db) (a : string) :
  a <> "" ->
  fst (actor_ids regex_i (document_image pg) (Some a))
  = Some (map movie_id (firstn 500 (filter (cast_matches pg a) (movies pg)))).
Proof.
  intros Ha. unfold actor_ids.
  destruct (String.eqb_spec a "") as [E|_]; [contradiction|].
  unfold bind, credits_find_one, credits_find, ret. cbn [fst snd].
  rewrite find_has_cast_image.
  destruct (movies pg) as [|m0 r] eqn:Em.
  - cbn. rewrite Em. reflexivity.
  - cbn [cr_cast credit_of].
    change (credits_col (document_image pg)) with (map (credit_of pg) (movies pg)).
    rewrite filter_map_comm, <- Em.
    rewrite (filter_ext _ (cast_matches pg a))
      by (intros m; apply credit_matches_image).
    rewrite firstn_map, map_map. unfold credit_of at 1. cbn [cr_id].
    now rewrite somes_map_some.
Qed.

Lemma existsb_ext_in {A} (f g : A -> bool) (l : list A) :
  (forall x, In x l -> f x = g x) -> existsb f l = existsb g l.
Proof.
  induction l as [|x r IH]; intros H; cbn; [reflexivity|].
  rewrite (H x) by now left. f_equal. apply IH. intros y Hy. apply H. now right.
Qed.

Lemma filter_on_ext (o : option string) (f g : string -> bool) :
  (forall t, o = Some t -> t <> "" -> f t = g t) -> filter_on o f = filter_on o g.
Proof.
  intros H. unfold filter_on. destruct o as [t|]; [|reflexivity].
  destruct (String.eqb_spec t ""); [reflexivity|]. now apply H.
Qed.

Lemma filter_on_true (o : option string) (f : string -> bool) (t : string) :
  filter_on o f = true -> o = Some t -> t <> "" -> f t = true.
Proof.
  unfold filter_on. intros H -> Hne.
  destruct (String.eqb_spec t ""); [contradiction|exact H].
Qed.

(** The movie passes every filter, as the document engine tests them
    on consistent data. *)
Definition doc_qualifies (pg : pg_db) (gf af : option string)
           (ys ye : option Z) (tf : option string) (m : movie) : bool :=
  filter_on tf (fun t => opt_regex regex_i t (title m)) &&
  (filter_on gf (fun g => existsb (fun x => regex_i g (genre_name x))
                                  (genres_of pg (movie_id m))) &&
   (filter_on af (fun a => cast_matches pg a m) && year_ok ys ye m)).

Lemma genres_of_subset (pg : pg_db) (id : Z) (g : genre) :
  In g (genres_of pg id) -> In g (genres pg).
Proof. intros H. apply in_genres_of in H as (mg & _ & _ & H & _). exact H. Qed.

Lemma cast_of_subset (pg : pg_db) (id : Z) (p : person) :
  In p (cast_of pg id) -> In p (people pg).
Proof. intros H. apply in_cast_of in H as (mc & _ & _ & H & _). exact H. Qed.

Lemma pg_qualifies_doc (pg : pg_db) gf af ys ye tf (m : movie) :
  text_agree pg gf af tf = true -> In m (movies pg) ->
  pg_qualifies ilike pg gf af ys ye tf m = doc_qualifies pg gf af ys ye tf m.
Proof.
  unfold text_agree. rewrite !andb_true_iff. intros [[Ht Hg] Ha] Hm.
  unfold pg_qualifies, doc_qualifies. f_equal; [|f_equal; [|f_equal]].
  - apply filter_on_ext. intros t -> Hne.
    pose proof (filter_on_true _ _ t Ht eq_refl Hne) as F. cbn beta in F.
    rewrite forallb_forall in F. apply eqb_prop, F, Hm.
  - apply filter_on_ext. intros g -> Hne.
    pose proof (filter_on_true _ _ g Hg eq_refl Hne) as F. cbn beta in F.
    rewrite forallb_forall in F. apply existsb_ext_in.
    intros x Hx. apply eqb_prop, F. eapply genres_of_subset, Hx.
  - apply filter_on_ext. intros a -> Hne.
    pose proof (filter_on_true _ _ a Ha eq_refl Hne) as F. cbn beta in F.
    rewrite forallb_forall in F. unfold cast_matches. apply existsb_ext_in.
    intros p Hp. apply eqb_prop, F. eapply cast_of_subset, Hp.
Qed.

Definition ids_keep (ids : option (list Z)) (m : movie) : bool :=
  match ids with
  | Some (i :: r) => existsb (Z.eqb (movie_id m)) (i :: r)
  | _ => true
  end.

Lemma keeps_image (pg : pg_db) ids gf ys ye tf (m : movie) :
  years_fit pg ys ye = true -> In m (movies pg) ->
  keeps regex_i (match_conditions ids gf ys ye tf) (doc_of pg m)
  = filter_on tf (fun t => opt_regex regex_i t (title m)) &&
    (filter_on gf (fun g => existsb (fun x => regex_i g (genre_name x))
                                    (genres_of pg (movie_id m))) &&
     (year_ok ys ye m && ids_keep ids m)).
Proof.
  intros Hy Hm. unfold keeps, match_conditions. rewrite !forallb_app.
  f_equal; [|f_equal; [|f_equal]].
  - unfold when_str, filter_on. destruct tf as [t|]; [|reflexivity].
    destruct (t =? ""); [reflexivity|]. cbn.
    now rewrite orb_diag, andb_true_r.
  - unfold when_str, filter_on. destruct gf as [t|]; [|reflexivity].
    destruct (t =? ""); [reflexivity|]. cbn. rewrite andb_true_r.
    induction (genres_of pg (movie_id m)) as [|x r IH]; cbn; [reflexivity|].
    now rewrite IH.
  - unfold year_ok, years_fit in *.
    destruct (both_years ys ye) as [[a b]|]; [|reflexivity].
    unfold four_digit in Hy. rewrite !andb_true_iff, !Z.leb_le in Hy.
    destruct Hy as [[Ha Hb] Hd]. rewrite forallb_forall in Hd.
    specialize (Hd m Hm).
    cbn [forallb cond_matches doc_of doc_release_date].
    destruct (released_date m) as [d|]; cbn [option_map]; [|reflexivity].
    rewrite year_lower_bound, year_upper_bound by (assumption || lia).
    now rewrite andb_true_r.
  - unfold ids_keep. destruct ids as [[|i r]|]; cbn [forallb cond_matches doc_of doc_id];
      try reflexivity. now rewrite andb_true_r.
Qed.

Lemma cast_matches_by_id (pg : pg_db) (a : string) (m m' : movie) :
  movie_id m = movie_id m' -> cast_matches pg a m = cast_matches pg a m'.
Proof. unfold cast_matches. now intros ->. Qed.

Lemma ids_keep_resolved (pg : pg_db) (a : string) (m : movie) :
  In m (movies pg) ->
  existsb (Z.eqb (movie_id m))
          (map movie_id (filter (cast_matches pg a) (movies pg)))
  = cast_matches pg a m.
Proof.
  intros Hm. destruct (cast_matches pg a m) eqn:E.
  - apply existsb_exists. exists (movie_id m). split; [|apply Z.eqb_refl].
    apply in_map, filter_In. auto.
  - destruct (existsb _ _) eqn:X; [|reflexivity].
    apply existsb_exists in X as (i & Hi & Ei). apply Z.eqb_eq in Ei. subst i.
    apply in_map_iff in Hi as (m' & Eid & Hm').
    apply filter_In in Hm' as [_ C].
    rewrite (cast_matches_by_id pg a m' m Eid) in C. congruence.
Qed.
End Equivalence.

Lemma top_ids {A} (before : A -> A -> bool) (n : nat) (l : list A) (f : A -> Z) :
  (length l <= n)%nat ->
  forall id, In id (map f (firstn n (sort_by before l))) <-> In id (map f l).
Proof.
  intros H id. rewrite firstn_all2 by (rewrite sort_by_length; exact H).
  rewrite !in_map_iff. split; intros (x & E & Hx); exists x; split; auto;
    now apply (in_sort_by before).
Qed.

Section Agreement.
Variable ilike : string -> string -> bool.
Variable regex_i : string -> string -> bool.

Lemma pg_ids (pg : pg_db) gf af ys ye sort_mode limit tf :
  (length (grouped ilike pg (build_query gf af ys ye sort_mode limit tf)) <= limit)%nat ->
  forall id,
    In id (map row_movie_id (search_postgres ilike pg gf af ys ye sort_mode limit tf))
    <-> In id (map movie_id (filter (pg_qualifies ilike pg gf af ys ye tf) (movies pg))).
Proof.
  intros Hlen id. unfold search_postgres, execute. rewrite map_map.
  rewrite (map_ext (fun c => row_movie_id (row_of_sql c)) c_movie_id)
    by reflexivity.
  cbn [q_limit q_order build_query].
  rewrite top_ids by exact Hlen.
  now rewrite grouped_ids.
Qed.

Lemma qualifying_count (pg : pg_db) gf af ys ye sort_mode limit tf :
  text_agree ilike regex_i pg gf af tf = true ->
  length (filter (doc_qualifies regex_i pg gf af ys ye tf) (movies pg))
  = length (grouped ilike pg (build_query gf af ys ye sort_mode limit tf)).
Proof.
  intros Ht.
  rewrite <- (length_map c_movie_id), grouped_ids, length_map.
  f_equal. apply filter_ext_in. intros m Hm. symmetry.
  now apply pg_qualifies_doc.
Qed.

Lemma str_true_cases (o : option string) :
  (str_true o = false /\ forall f, filter_on o f = true) \/
  (exists t, o = Some t /\ t <> "").
Proof.
  destruct o as [t|]; [|left; split; reflexivity].
  destruct (String.eqb_spec t "") as [->|Hne].
  - left. split; reflexivity.
  - right. eauto.
Qed.

Lemma actor_ids_off (db : mongo_db) (af : option string) :
  str_true af = false -> fst (actor_ids regex_i db af) = None.
Proof.
  unfold actor_ids, str_true. destruct af as [a|]; [|reflexivity].
  destruct (a =? ""); [reflexivity|discriminate].
Qed.

Lemma mongo_ids (pg : pg_db) gf af ys ye sort_mode limit tf :
  years_fit pg ys ye = true ->
  within_cap regex_i pg af = true ->
  (length (filter (doc_qualifies regex_i pg gf af ys ye tf) (movies pg)) <= limit)%nat ->
  forall id,
    In id (map row_movie_id
               (search_mongo regex_i (document_image pg) gf af ys ye sort_mode limit tf))
    <-> In id (map movie_id
                   (filter (doc_qualifies regex_i pg gf af ys ye tf) (movies pg))).
Proof.
  intros Hy Hcap Hlen id.
  rewrite search_mongo_eq.
  set (ids := fst (actor_ids regex_i (document_image pg) af)).
  (* the pipeline, when it runs with conditions that mirror the filters *)
  assert (Run : (forall m, In m (movies pg) ->
                   ids_keep ids m = filter_on af (fun a => cast_matches regex_i pg a m)) ->
                In id (map row_movie_id
                         (map row_of_doc
                            (run_pipeline regex_i (document_image pg)
                               (build_pipeline ids gf ys ye sort_mode limit tf))))
                <-> In id (map movie_id
                     (filter (doc_qualifies regex_i pg gf af ys ye tf) (movies pg)))).
  { intros Hids. rewrite run_pipeline_eq, !map_map.
    change (movies_col (document_image pg)) with (map (doc_of pg) (movies pg)).
    rewrite filter_map_comm.
    rewrite (filter_ext_in _ (doc_qualifies regex_i pg gf af ys ye tf)).
    2:{ intros m Hm. rewrite (keeps_image regex_i pg ids gf ys ye tf m Hy Hm).
        unfold doc_qualifies. rewrite (Hids m Hm).
        now rewrite (andb_comm (year_ok ys ye m)). }
    rewrite top_ids by (rewrite !length_map; exact Hlen).
    rewrite !map_map. reflexivity. }
  destruct (str_true_cases af) as [[Hoff Hon]|(a & -> & Hne)].
  - unfold ids in *. rewrite (actor_ids_off _ _ Hoff) in *.
    apply Run. intros m _. now rewrite Hon.
  - unfold ids in *. rewrite (actor_ids_image regex_i pg a Hne) in *.
    unfold within_cap in Hcap.
    pose proof (filter_on_true _ _ a Hcap eq_refl Hne) as Hc. cbn beta in Hc.
    apply Nat.leb_le in Hc. rewrite firstn_all2 in * by exact Hc.
    assert (Hids : forall m, In m (movies pg) ->
              existsb (Z.eqb (movie_id m))
                      (map movie_id (filter (cast_matches regex_i pg a) (movies pg)))
              = filter_on (Some a) (fun a => cast_matches regex_i pg a m)).
    { intros m Hm. rewrite ids_keep_resolved by exact Hm.
      unfold filter_on. destruct (String.eqb_spec a ""); [contradiction|reflexivity]. }
    destruct (filter (cast_matches regex_i pg a) (movies pg)) as [|m0 r] eqn:El.
    + cbn [map]. split; [intros []|].
      intros H. apply in_map_iff in H as (m & _ & Hm).
      apply filter_In in Hm as [Hm Q]. unfold doc_qualifies in Q.
      rewrite <- (Hids m Hm) in Q. cbn in Q.
      rewrite !andb_false_r in Q. discriminate.
    + cbn [map] in *. apply Run. intros m Hm. exact (Hids m Hm).
Qed.

(** C1, amended: on consistent data, for a filter whose text terms
    the two engines match alike on the stored strings, whose year
    bounds (when both are given) and stored years have four digits,
    whose actor term matches at most 500 credits documents, and whose
    result the limit does not cut, the two strategies return the same
    set of movie identifiers. *)
Theorem strategies_agree_on_ids (pg : pg_db) (mg : mongo_db)
        (gf af : option string) (ys ye : option Z) (sort_mode : string)
        (limit : nat) (tf : option string) :
  consistent pg mg ->
  text_agree ilike regex_i pg gf af tf = true ->
  years_fit pg ys ye = true ->
  within_cap regex_i pg af = true ->
  (length (grouped ilike pg (build_query gf af ys ye sort_mode limit tf)) <= limit)%nat ->
  forall id,
    In id (map row_movie_id (search_postgres ilike pg gf af ys ye sort_mode limit tf))
    <-> In id (map row_movie_id (search_mongo regex_i mg gf af ys ye sort_mode limit tf)).
Proof.
  intros -> Ht Hy Hcap Hlen id.
  rewrite pg_ids by exact Hlen.
  rewrite mongo_ids; try assumption.
  - rewrite (filter_ext_in _ (doc_qualifies regex_i pg gf af ys ye tf)); [reflexivity|].
    intros m Hm. now apply pg_qualifies_doc.
  - rewrite (qualifying_count pg gf af ys ye sort_mode limit tf Ht). exact Hlen.
Qed.
End Agreement.

Section Ratings.
Variable ilike : string -> string -> bool.
Variable regex_i : string -> string -> bool.

Definition pg_unrated (pg : pg_db) (id : Z) : Prop :=
  forall r, In r (ratings pg) -> r_movie_id r <> id.

Definition mongo_unrated (mg : mongo_db) (id : Z) : Prop :=
  forall r, In r (ratings_col mg) -> rd_movie_id r <> id.

(** Every row of the relational strategy is the aggregate of the
    group of a stored movie. *)
Lemma search_postgres_rows (pg : pg_db) (q : query) (c : sql_row) :
  In c (execute ilike pg q) ->
  exists m, In m (movies pg) /\ group ilike pg q m <> [] /\
            c = aggregate m (group ilike pg q m).
Proof.
  unfold execute. intros H. apply in_firstn, in_sort_by in H.
  unfold grouped in H. apply in_flat_map in H as (m & Hm & H).
  destruct (group ilike pg q m) as [|row rest] eqn:E; [destruct H|].
  destruct H as [<-|[]]. exists m. rewrite E. repeat split; auto. discriminate.
Qed.

Lemma group_ratings (pg : pg_db) (q : query) (m : movie) (r : rating) :
  In r (somes (map j_r (group ilike pg q m))) ->
  In r (ratings pg) /\ r_movie_id r = movie_id m.
Proof.
  intros H. apply in_somes, in_map_iff in H as (row & E & H).
  unfold group in H. apply filter_In in H as [H _].
  apply joined_rows_rating in H as [_ H]. rewrite E in H. exact H.
Qed.

Lemma aggregate_nonneg (pg : pg_db) (q : query) (m : movie) :
  (forall r, In r (ratings pg) -> (0 <= r_rating r)%Q) ->
  (0 <= c_avg_rating (aggregate m (group ilike pg q m)))%Q.
Proof.
  intros Hnn. unfold aggregate. cbn [c_avg_rating].
  destruct (average _) as [a|] eqn:E; [|apply Qle_refl].
  eapply average_nonneg; [|exact E].
  apply Forall_forall. intros x Hx.
  apply in_map_iff in Hx as (r & <- & Hr).
  apply Hnn. eapply group_ratings, Hr.
Qed.

Lemma aggregate_unrated (pg : pg_db) (q : query) (m : movie) :
  pg_unrated pg (movie_id m) ->
  c_avg_rating (aggregate m (group ilike pg q m)) = 0%Q /\
  c_num_ratings (aggregate m (group ilike pg q m)) = O.
Proof.
  intros Hun.
  assert (E : somes (map j_r (group ilike pg q m)) = []).
  { destruct (somes _) as [|r rest] eqn:E; [reflexivity|].
    assert (Hin : In r (r :: rest)) by now left.
    rewrite <- E in Hin. apply group_ratings in Hin as [Hin Hid].
    exfalso. exact (Hun r Hin Hid). }
  unfold aggregate. cbn [c_avg_rating c_num_ratings]. rewrite E.
  split; reflexivity.
Qed.

Lemma rated_nonneg (mg : mongo_db) (d : movie_doc) (a : Q) :
  (forall r q, In r (ratings_col mg) -> rd_rating r = Some q -> (0 <= q)%Q) ->
  pd_avg_rating (rated mg d) = Some a -> (0 <= a)%Q.
Proof.
  intros Hnn. unfold rated. cbn [pd_avg_rating]. intros H. injection H as <-.
  destruct (average _) as [a|] eqn:E; [|apply Qle_refl].
  eapply average_nonneg; [|exact E].
  apply Forall_forall. intros x Hx.
  apply in_somes, in_map_iff in Hx as (r & Er & Hr).
  unfold ratings_for in Hr. apply filter_In in Hr as [Hr _].
  exact (Hnn r x Hr Er).
Qed.

Lemma rated_unrated (mg : mongo_db) (d : movie_doc) :
  mongo_unrated mg (doc_id d) ->
  row_avg_rating (row_of_doc (rated mg d)) = 0%Q /\
  row_num_ratings (row_of_doc (rated mg d)) = O.
Proof.
  intros Hun.
  assert (E : ratings_for mg d = []).
  { unfold ratings_for. destruct (filter _ _) as [|r rest] eqn:E; [reflexivity|].
    assert (Hin : In r (r :: rest)) by now left.
    rewrite <- E in Hin. apply filter_In in Hin as [Hin Hid].
    apply Z.eqb_eq in Hid. exfalso. exact (Hun r Hin Hid). }
  unfold rated, row_of_doc. cbn [row_avg_rating row_num_ratings pd_avg_rating pd_num_ratings].
  rewrite E. split; reflexivity.
Qed.

Lemma pg_row_ratings (pg : pg_db) gf af ys ye sort_mode limit tf (row : result_row) :
  (forall r, In r (ratings pg) -> (0 <= r_rating r)%Q) ->
  In row (search_postgres ilike pg gf af ys ye sort_mode limit tf) ->
  (0 <= row_avg_rating row)%Q /\
  (pg_unrated pg (row_movie_id row) ->
     row_avg_rating row = 0%Q /\ row_num_ratings row = O).
Proof.
  intros Hnn H. unfold search_postgres in H.
  apply in_map_iff in H as (c & <- & Hc).
  apply search_postgres_rows in Hc as (m & _ & _ & ->).
  split.
  - apply float_or_zero_nonneg, aggregate_nonneg, Hnn.
  - intros Hun.
    destruct (aggregate_unrated pg (build_query gf af ys ye sort_mode limit tf) m Hun)
      as [E1 E2].
    unfold row_of_sql. cbn [row_avg_rating row_num_ratings].
    rewrite E1, E2. split; reflexivity.
Qed.

Lemma mongo_row_ratings (mg : mongo_db) gf af ys ye sort_mode limit tf (row : result_row) :
  (forall r q, In r (ratings_col mg) -> rd_rating r = Some q -> (0 <= q)%Q) ->
  In row (search_mongo regex_i mg gf af ys ye sort_mode limit tf) ->
  (0 <= row_avg_rating row)%Q /\
  (mongo_unrated mg (row_movie_id row) ->
     row_avg_rating row = 0%Q /\ row_num_ratings row = O).
Proof.
  intros Hnn H. apply search_mongo_rows in H as (d & _ & _ & ->). split.
  - unfold row_of_doc. cbn [row_avg_rating].
    destruct (pd_avg_rating (rated mg d)) as [a|] eqn:E; [|apply Qle_refl].
    eapply rated_nonneg; eauto.
  - intros Hun. exact (rated_unrated mg d Hun).
Qed.

Lemma pg_unrated_present (pg : pg_db) gf af ys ye sort_mode limit tf (m : movie) :
  let q := build_query gf af ys ye sort_mode limit tf in
  In m (movies pg) -> pg_unrated pg (movie_id m) ->
  group ilike pg q m <> [] ->
  (length (grouped ilike pg q) <= limit)%nat ->
  exists row, In row (search_postgres ilike pg gf af ys ye sort_mode limit tf) /\
              row_movie_id row = movie_id m /\
              row_avg_rating row = 0%Q /\ row_num_ratings row = O.
Proof.
  intros q Hm Hun Hg Hlen.
  exists (row_of_sql (aggregate m (group ilike pg q m))).
  destruct (aggregate_unrated pg q m Hun) as [E1 E2].
  split; [|split; [reflexivity|split]].
  - unfold search_postgres. apply in_map. fold q.
    unfold execute. replace (q_limit q) with limit by reflexivity.
    apply in_top; [exact Hlen|].
    unfold grouped. apply in_flat_map. exists m. split; [exact Hm|].
    destruct (group ilike pg q m); [contradiction|now left].
  - unfold row_of_sql. cbn [row_avg_rating]. rewrite E1. reflexivity.
  - exact E2.
Qed.

Lemma mongo_unrated_present (mg : mongo_db) gf af ys ye sort_mode limit tf (d : movie_doc) :
  let conds := match_conditions (fst (actor_ids regex_i mg af)) gf ys ye tf in
  In d (movies_col mg) -> mongo_unrated mg (doc_id d) ->
  fst (actor_ids regex_i mg af) <> Some [] ->
  keeps regex_i conds d = true ->
  (length (filter (keeps regex_i conds) (movies_col mg)) <= limit)%nat ->
  exists row, In row (search_mongo regex_i mg gf af ys ye sort_mode limit tf) /\
              row_movie_id row = doc_id d /\
              row_avg_rating row = 0%Q /\ row_num_ratings row = O.
Proof.
  intros conds Hd Hun Hids Hk Hlen.
  exists (row_of_doc (rated mg d)).
  destruct (rated_unrated mg d Hun) as [E1 E2].
  split; [|split; [reflexivity|split; assumption]].
  rewrite search_mongo_eq.
  assert (G : In (row_of_doc (rated mg d))
                 (map row_of_doc
                    (run_pipeline regex_i mg
                       (build_pipeline (fst (actor_ids regex_i mg af)) gf ys ye
                                       sort_mode limit tf)))).
  { rewrite run_pipeline_eq. apply in_map. apply in_top.
    - rewrite length_map. exact Hlen.
    - apply in_map, filter_In. split; assumption. }
  destruct (fst (actor_ids regex_i mg af)) as [[|i r]|];
    [contradiction|exact G|exact G].
Qed.

(** C5, amended: with non-negative stored ratings, every row of
    either strategy has [avg_rating >= 0] and [num_ratings >= 0], and
    a row of a movie without ratings shows [avg_rating = 0] and
    [num_ratings = 0]; a movie without ratings that passes the filter
    is in the output of its strategy whenever the limit does not cut
    the result. *)
Theorem ratings_never_missing (pg : pg_db) (mg : mongo_db)
        (gf af : option string) (ys ye : option Z) (sort_mode : string)
        (limit : nat) (tf : option string) :
  (forall r, In r (ratings pg) -> (0 <= r_rating r)%Q) ->
  (forall r q, In r (ratings_col mg) -> rd_rating r = Some q -> (0 <= q)%Q) ->
  let q := build_query gf af ys ye sort_mode limit tf in
  let conds := match_conditions (fst (actor_ids regex_i mg af)) gf ys ye tf in
  let pg_rows := search_postgres ilike pg gf af ys ye sort_mode limit tf in
  let mongo_rows := search_mongo regex_i mg gf af ys ye sort_mode limit tf in
  (forall row, In row pg_rows ->
     (0 <= row_avg_rating row)%Q /\ (0 <= row_num_ratings row)%nat /\
     (pg_unrated pg (row_movie_id row) ->
        row_avg_rating row = 0%Q /\ row_num_ratings row = O)) /\
  (forall row, In row mongo_rows ->
     (0 <= row_avg_rating row)%Q /\ (0 <= row_num_ratings row)%nat /\
     (mongo_unrated mg (row_movie_id row) ->
        row_avg_rating row = 0%Q /\ row_num_ratings row = O)) /\
  (forall m, In m (movies pg) -> pg_unrated pg (movie_id m) ->
     group ilike pg q m <> [] ->
     (length (grouped ilike pg q) <= limit)%nat ->
     exists row, In row pg_rows /\ row_movie_id row = movie_id m /\
                 row_avg_rating row = 0%Q /\ row_num_ratings row = O) /\
  (forall d, In d (movies_col mg) -> mongo_unrated mg (doc_id d) ->
     fst (actor_ids regex_i mg af) <> Some [] ->
     keeps regex_i conds d = true ->
     (length (filter (keeps regex_i conds) (movies_col mg)) <= limit)%nat ->
     exists row, In row mongo_rows /\ row_movie_id row = doc_id d /\
                 row_avg_rating row = 0%Q /\ row_num_ratings row = O).
Proof.
  intros Hpg Hmg q conds pg_rows mongo_rows.
  split; [|split; [|split]].
  - intros row Hrow.
    destruct (pg_row_ratings pg gf af ys ye sort_mode limit tf row Hpg Hrow) as [H1 H2].
    split; [exact H1|]. split; [lia|exact H2].
  - intros row Hrow.
    destruct (mongo_row_ratings mg gf af ys ye sort_mode limit tf row Hmg Hrow) as [H1 H2].
    split; [exact H1|]. split; [lia|exact H2].
  - intros m. apply pg_unrated_present.
  - intros d. apply mongo_unrated_present.
Qed.
End Ratings.

Section Filters.
Variable ilike : string -> string -> bool.
Variable regex_i : string -> string -> bool.

Ltac in_cases H :=
  cbn in H;
  repeat match type of H with _ \/ _ => destruct H as [H|H] end;
  try discriminate; try contradiction.

Lemma both_years_left (y : Z) : both_years (Some y) None = None.
Proof. reflexivity. Qed.
Lemma both_years_right (y : Z) : both_years None (Some y) = None.
Proof. reflexivity. Qed.

Lemma both_years_some ys ye a b :
  both_years ys ye = Some (a, b) -> ys = Some a /\ ye = Some b /\ a <> 0%Z /\ b <> 0%Z.
Proof.
  unfold both_years. destruct ys as [x|], ye as [y|]; try discriminate.
  destruct (Z.eqb_spec x 0), (Z.eqb_spec y 0); cbn; try discriminate.
  intros H. injection H as <- <-. auto.
Qed.

(** C10: a year bound given alone changes nothing, in either
    strategy: the result (and, for the document strategy, the calls
    made) is that of the search with no year bound; the year condition
    is in the query, and in the pipeline, only when both bounds are
    given. *)
Theorem year_filter_needs_both_bounds
        (pg : pg_db) (mg : mongo_db) (genre actor : option string)
        (sort_by : string) (limit : nat) (title : option string) :
  (forall y,
      search_postgres ilike pg genre actor (Some y) None sort_by limit title
      = search_postgres ilike pg genre actor None None sort_by limit title /\
      search_postgres ilike pg genre actor None (Some y) sort_by limit title
      = search_postgres ilike pg genre actor None None sort_by limit title /\
      search_mongo_run regex_i mg genre actor (Some y) None sort_by limit title
      = search_mongo_run regex_i mg genre actor None None sort_by limit title /\
      search_mongo_run regex_i mg genre actor None (Some y) sort_by limit title
      = search_mongo_run regex_i mg genre actor None None sort_by limit title) /\
  (forall ys ye a b,
      In (YearBetween a b)
         (q_where (build_query genre actor ys ye sort_by limit title)) ->
      ys = Some a /\ ye = Some b) /\
  (forall ids ys ye conds lo hi,
      In (Match conds) (build_pipeline ids genre ys ye sort_by limit title) ->
      In (ReleaseDateRange lo hi) conds ->
      exists a b, ys = Some a /\ ye = Some b).
Proof.
  split; [|split].
  - intros y. repeat split; reflexivity.
  - intros ys ye a b. unfold build_query. cbn [q_where].
    rewrite !in_app_iff.
    intros [H|[H|[H|[H|H]]]].
    + in_cases H.
    + unfold when_str in H. destruct title as [t|]; [|destruct H].
      destruct (t =? ""); in_cases H.
    + unfold when_str in H. destruct genre as [t|]; [|destruct H].
      destruct (t =? ""); in_cases H.
    + unfold when_str in H. destruct actor as [t|]; [|destruct H].
      destruct (t =? ""); in_cases H.
    + destruct (both_years ys ye) as [[a' b']|] eqn:E; [|destruct H].
      destruct H as [H|[]]. injection H as -> ->.
      apply both_years_some in E. tauto.
  - intros ids ys ye conds lo hi. unfold build_pipeline.
    set (mc := when_str title _ ++ _).
    intros Hin Hr.
    assert (Hc : conds = mc).
    { rewrite !in_app_iff in Hin. destruct Hin as [H|[H|[H|H]]].
      - destruct mc; [destruct H|]. destruct H as [H|[]]. now injection H.
      - in_cases H.
      - destruct (sort_by =? "rating"); in_cases H.
      - in_cases H. }
    subst conds. unfold mc in Hr. rewrite !in_app_iff in Hr.
    destruct Hr as [H|[H|[H|H]]].
    + unfold when_str in H. destruct title as [t|]; [|destruct H].
      destruct (t =? ""); in_cases H.
    + unfold when_str in H. destruct genre as [t|]; [|destruct H].
      destruct (t =? ""); in_cases H.
    + destruct (both_years ys ye) as [[a b]|] eqn:E; [|destruct H].
      apply both_years_some in E. exists a, b. tauto.
    + destruct ids as [[|i r]|]; in_cases H.
Qed.

Lemma actor_ids_calls (db : mongo_db) (a : string) :
  a <> "" ->
  exists q, snd (actor_ids regex_i db (Some a)) = [CreditsFindOne; CreditsFind q 500].
Proof.
  intros Ha. unfold actor_ids.
  destruct (String.eqb_spec a "") as [E|_]; [contradiction|].
  unfold bind, credits_find_one, credits_find, ret. cbn [snd app].
  eexists. reflexivity.
Qed.

(** C6: when the actor filter is present and resolves to no movie
    identifier, [search_mongo] returns the empty list and has made
    only the two calls on the credits collection: the aggregation
    pipeline is never invoked. *)
Theorem actor_without_credits_short_circuits
        (db : mongo_db) (genre : option string) (a : string)
        (year_start year_end : option Z) (sort_by : string) (limit : nat)
        (title : option string) :
  a <> "" ->
  fst (actor_ids regex_i db (Some a)) = Some [] ->
  search_mongo regex_i db genre (Some a) year_start year_end sort_by limit title = [] /\
  (forall p, ~ In (MoviesAggregate p)
                  (search_mongo_calls regex_i db genre (Some a) year_start
                                      year_end sort_by limit title)) /\
  exists q, search_mongo_calls regex_i db genre (Some a) year_start year_end
                               sort_by limit title
            = [CreditsFindOne; CreditsFind q 500].
Proof.
  intros Ha Hids.
  destruct (actor_ids_calls db a Ha) as [q Hq].
  unfold search_mongo, search_mongo_calls, search_mongo_run, bind.
  destruct (actor_ids regex_i db (Some a)) as [ids calls].
  cbn [fst snd] in Hids, Hq. subst ids calls.
  cbn [ret fst snd app].
  split; [reflexivity|]. split.
  - intros p H. in_cases H.
  - exists q. reflexivity.
Qed.
End Filters.

(** ** The properties on the sample catalogue *)

(** C1, as stated, fails: on consistent data, the year range 999-2000
    keeps both dated movies in the relational strategy, which compares
    years as numbers, and none in the document strategy, which
    compares the text "999-01-01" with the stored dates. *)
Lemma year_text_range_disagrees :
  consistent Sample.pg Sample.mongo /\
  map row_movie_id
      (search_postgres TextOps.ilike Sample.pg None None (Some 999%Z)
                       (Some 2000%Z) "popularity" 100 None) = [862%Z; 949%Z] /\
  search_mongo TextOps.literal_regex_i Sample.mongo None None (Some 999%Z)
               (Some 2000%Z) "popularity" 100 None = [] /\
  ~ (forall id,
        In id (map row_movie_id
                   (search_postgres TextOps.ilike Sample.pg None None
                                    (Some 999%Z) (Some 2000%Z) "popularity" 100 None))
        <-> In id (map row_movie_id
                       (search_mongo TextOps.literal_regex_i Sample.mongo None None
                                     (Some 999%Z) (Some 2000%Z) "popularity" 100 None))).
Proof.
  split; [reflexivity|].
  split; [vm_compute; reflexivity|].
  split; [vm_compute; reflexivity|].
  intros H. specialize (H 862%Z).
  assert (E : In 862%Z
                 (map row_movie_id
                      (search_postgres TextOps.ilike Sample.pg None None
                                       (Some 999%Z) (Some 2000%Z) "popularity" 100 None)))
    by (vm_compute; left; reflexivity).
  apply H in E. vm_compute in E. exact E.
Qed.

Lemma strategies_agree_on_ids_witness :
  consistent Sample.pg Sample.mongo /\
  text_agree TextOps.ilike TextOps.literal_regex_i Sample.pg
             (Some "drama") (Some "hanks") (Some "toy") = true /\
  years_fit Sample.pg (Some 1990%Z) (Some 2000%Z) = true /\
  within_cap TextOps.literal_regex_i Sample.pg (Some "hanks") = true /\
  (length (grouped TextOps.ilike Sample.pg
                   (build_query (Some "drama") (Some "hanks") (Some 1990%Z)
                                (Some 2000%Z) "rating" 100 (Some "toy")))
   <= 100)%nat /\
  forall id,
    In id (map row_movie_id
               (search_postgres TextOps.ilike Sample.pg (Some "drama")
                                (Some "hanks") (Some 1990%Z) (Some 2000%Z)
                                "rating" 100 (Some "toy")))
    <-> In id (map row_movie_id
                   (search_mongo TextOps.literal_regex_i Sample.mongo
                                 (Some "drama") (Some "hanks") (Some 1990%Z)
                                 (Some 2000%Z) "rating" 100 (Some "toy"))).
Proof.
  assert (H1 : consistent Sample.pg Sample.mongo) by reflexivity.
  assert (H2 : text_agree TextOps.ilike TextOps.literal_regex_i Sample.pg
                          (Some "drama") (Some "hanks") (Some "toy") = true)
    by (vm_compute; reflexivity).
  assert (H3 : years_fit Sample.pg (Some 1990%Z) (Some 2000%Z) = true)
    by (vm_compute; reflexivity).
  assert (H4 : within_cap TextOps.literal_regex_i Sample.pg (Some "hanks") = true)
    by (vm_compute; reflexivity).
  assert (H5 : (length (grouped TextOps.ilike Sample.pg
                   (build_query (Some "drama") (Some "hanks") (Some 1990%Z)
                                (Some 2000%Z) "rating" 100 (Some "toy")))
                <= 100)%nat)
    by (apply Nat.leb_le; vm_compute; reflexivity).
  repeat (split; [assumption|]).
  exact (strategies_agree_on_ids TextOps.ilike TextOps.literal_regex_i
           Sample.pg Sample.mongo (Some "drama") (Some "hanks")
           (Some 1990%Z) (Some 2000%Z) "rating" 100 (Some "toy")
           H1 H2 H3 H4 H5).
Defined.

(** The movie of the sample that has no rating. *)
Definition heat : movie :=
  {| movie_id := 949; title := Some "Heat";
     released_date := Some {| d_year := 1995; d_month := 12; d_day := 15 |};
     popularity := Some (179 # 10) |}.

Lemma heat_unrated : pg_unrated Sample.pg 949.
Proof. intros r [<-|[<-|[]]]; cbn; discriminate. Qed.

Lemma heat_unrated_mongo : mongo_unrated Sample.mongo 949.
Proof. intros r [<-|[<-|[]]]; cbn; discriminate. Qed.

(** C5, as stated, fails: the movie without ratings passes the (empty)
    filter, yet with rating order and a limit of 1 neither strategy
    has it in its output. *)
Lemma unrated_movie_cut_by_limit :
  In heat (movies Sample.pg) /\
  pg_unrated Sample.pg (movie_id heat) /\
  group TextOps.ilike Sample.pg
        (build_query None None None None "rating" 1 None) heat <> [] /\
  map row_movie_id
      (search_postgres TextOps.ilike Sample.pg None None None None "rating" 1 None)
    = [862%Z] /\
  map row_movie_id
      (search_mongo TextOps.literal_regex_i Sample.mongo None None None None
                    "rating" 1 None)
    = [862%Z].
Proof.
  split; [right; left; reflexivity|].
  split; [exact heat_unrated|].
  split; [vm_compute; discriminate|].
  split; vm_compute; reflexivity.
Qed.

Lemma sample_ratings_nonneg :
  forall r, In r (ratings Sample.pg) -> (0 <= r_rating r)%Q.
Proof. intros r [<-|[<-|[]]]; cbn; discriminate. Qed.

Lemma sample_rating_docs_nonneg :
  forall r q, In r (ratings_col Sample.mongo) -> rd_rating r = Some q -> (0 <= q)%Q.
Proof.
  intros r q [<-|[<-|[]]]; cbn; intros H; injection H as <-; discriminate.
Qed.

Lemma ratings_never_missing_witness :
  (forall r, In r (ratings Sample.pg) -> (0 <= r_rating r)%Q) /\
  (forall r q, In r (ratings_col Sample.mongo) -> rd_rating r = Some q ->
               (0 <= q)%Q) /\
  (exists row,
      In row (search_postgres TextOps.ilike Sample.pg None None None None
                              "rating" 100 None) /\
      row_movie_id row = 949%Z /\
      row_avg_rating row = 0%Q /\ row_num_ratings row = O) /\
  (exists row,
      In row (search_mongo TextOps.literal_regex_i Sample.mongo None None None
                           None "rating" 100 None) /\
      row_movie_id row = 949%Z /\
      row_avg_rating row = 0%Q /\ row_num_ratings row = O).
Proof.
  split; [exact sample_ratings_nonneg|].
  split; [exact sample_rating_docs_nonneg|].
  destruct (ratings_never_missing TextOps.ilike TextOps.literal_regex_i
              Sample.pg Sample.mongo None None None None "rating" 100 None
              sample_ratings_nonneg sample_rating_docs_nonneg)
    as (_ & _ & Hpg & Hmg).
  split.
  - apply (Hpg heat).
    + right. left. reflexivity.
    + exact heat_unrated.
    + vm_compute. discriminate.
    + apply Nat.leb_le. vm_compute. reflexivity.
  - apply (Hmg (doc_of Sample.pg heat)).
    + right. left. reflexivity.
    + exact heat_unrated_mongo.
    + discriminate.
    + reflexivity.
    + apply Nat.leb_le. vm_compute. reflexivity.
Defined.

Lemma actor_without_credits_short_circuits_witness :
  "zzz" <> "" /\
  fst (actor_ids TextOps.literal_regex_i Sample.mongo (Some "zzz")) = Some [] /\
  search_mongo TextOps.literal_regex_i Sample.mongo (Some "drama") (Some "zzz")
               None None "rating" 100 None = [] /\
  forall p, ~ In (MoviesAggregate p)
                 (search_mongo_calls TextOps.literal_regex_i Sample.mongo
                                     (Some "drama") (Some "zzz") None None
                                     "rating" 100 None).
Proof.
  assert (H1 : "zzz" <> "") by discriminate.
  assert (H2 : fst (actor_ids TextOps.literal_regex_i Sample.mongo (Some "zzz"))
               = Some []) by (vm_compute; reflexivity).
  split; [exact H1|]. split; [exact H2|].
  destruct (actor_without_credits_short_circuits TextOps.literal_regex_i
              Sample.mongo (Some "drama") "zzz" None None "rating" 100 None H1 H2)
    as (E & N & _).
  split; [exact E|exact N].
Defined.

Lemma year_filter_needs_both_bounds_witness :
  search_postgres TextOps.ilike Sample.pg None None (Some 2020%Z) None
                  "popularity" 100 None
  = search_postgres TextOps.ilike Sample.pg None None None None
                    "popularity" 100 None /\
  search_mongo_run TextOps.literal_regex_i Sample.mongo None None None (Some 1900%Z)
                   "popularity" 100 None
  = search_mongo_run TextOps.literal_regex_i Sample.mongo None None None None
                     "popularity" 100 None /\
  length (search_postgres TextOps.ilike Sample.pg None None (Some 2020%Z) None
                          "popularity" 100 None) = 3%nat.
Proof.
  destruct (year_filter_needs_both_bounds TextOps.ilike TextOps.literal_regex_i
              Sample.pg Sample.mongo None None "popularity" 100 None)
    as (Hy & _ & _).
  split; [exact (proj1 (Hy 2020%Z))|].
  split; [exact (proj2 (proj2 (proj2 (Hy 1900%Z))))|].
  vm_compute. reflexivity.
Defined.

End CatalogFacts.

(* ================================================================== *)
(** * Further properties of the two query strategies *)
(* ================================================================== *)

Module SearchFacts.
Import Py Catalog CatalogFacts.
Open Scope string_scope.
Open Scope list_scope.

Section Lists.
Context {A : Type}.

Lemma NoDup_firstn (n : nat) (l : list A) : NoDup l -> NoDup (firstn n l).
Proof.
  intros H. rewrite <- (firstn_skipn n l) in H.
  now apply NoDup_app_remove_r in H.
Qed.

(** Rows with distinct keys keep distinct keys when some are left out. *)
Lemma NoDup_filter_map {K} (key : A -> K) (keep : A -> bool) :
  forall rows, NoDup (map key rows) -> NoDup (map key (filter keep rows)).
Proof.
  intros rows. induction rows as [|x r IH]; cbn; intros H; [constructor|].
  inversion H as [|? ? Hx Hr]; subst.
  destruct (keep x); cbn; [constructor|]; auto.
  intros Hin. apply Hx. apply in_map_iff in Hin as (y & E & Hy).
  apply filter_In in Hy as [Hy _]. apply in_map_iff. eauto.
Qed.

End Lists.

Section Search.
Variable ilike : string -> string -> bool.
Variable regex_i : string -> string -> bool.

(** X1: neither strategy returns more rows than the limit it is given. *)
Theorem search_results_within_limit
        (pg : pg_db) (mg : mongo_db) (genre actor : option string)
        (year_start year_end : option Z) (sort_mode : string) (limit : nat)
        (title_f : option string) :
  (length (search_postgres ilike pg genre actor year_start year_end
                           sort_mode limit title_f) <= limit)%nat /\
  (length (search_mongo regex_i mg genre actor year_start year_end
                        sort_mode limit title_f) <= limit)%nat.
Proof.
  split.
  - unfold search_postgres, execute. rewrite length_map.
    cbn [q_limit build_query]. apply firstn_le_length.
  - rewrite search_mongo_eq.
    destruct (fst (actor_ids regex_i mg actor)) as [[|i r]|];
      [cbn; lia| |]; rewrite length_map, run_pipeline_eq;
      apply firstn_le_length.
Qed.

(** The identifiers of the relational result, before the cut. *)
Lemma pg_result_ids (pg : pg_db) gf af ys ye sort_mode limit tf :
  exists l,
    Permutation l (map movie_id (filter (pg_qualifies ilike pg gf af ys ye tf)
                                        (movies pg))) /\
    map row_movie_id (search_postgres ilike pg gf af ys ye sort_mode limit tf)
    = firstn limit l.
Proof.
  exists (map c_movie_id
            (sort_by (sql_before (q_order (build_query gf af ys ye sort_mode limit tf)))
                     (grouped ilike pg (build_query gf af ys ye sort_mode limit tf)))).
  split.
  - rewrite <- (grouped_ids ilike pg gf af ys ye sort_mode limit tf).
    apply Permutation_map, Permutation_sym, sort_by_perm.
  - unfold search_postgres, execute. rewrite map_map.
    rewrite (map_ext (fun c => row_movie_id (row_of_sql c)) c_movie_id)
      by reflexivity.
    cbn [q_limit build_query]. now rewrite firstn_map.
Qed.

Lemma mongo_result_ids (mg : mongo_db) gf af ys ye sort_mode limit tf :
  exists l,
    (exists conds, Permutation l (map doc_id (filter (keeps regex_i conds) (movies_col mg)))) /\
    (map row_movie_id (search_mongo regex_i mg gf af ys ye sort_mode limit tf)
     = firstn limit l \/
     search_mongo regex_i mg gf af ys ye sort_mode limit tf = []).
Proof.
  rewrite search_mongo_eq.
  set (ids := fst (actor_ids regex_i mg af)).
  exists (map (fun p => doc_id (pd_doc p))
            (sort_by (pdoc_before (sort_mode =? "rating"))
               (map (rated mg)
                    (filter (keeps regex_i (match_conditions ids gf ys ye tf))
                            (movies_col mg))))).
  split.
  - exists (match_conditions ids gf ys ye tf).
    eapply Permutation_trans.
    + apply Permutation_map, Permutation_sym, sort_by_perm.
    + rewrite map_map. cbn. apply Permutation_refl.
  - destruct ids as [[|i r]|] eqn:E; [now right| |];
      left; rewrite run_pipeline_eq, map_map;
      rewrite (map_ext (fun p => row_movie_id (row_of_doc p))
                       (fun p => doc_id (pd_doc p))) by reflexivity;
      now rewrite firstn_map.
Qed.

(** X2: no movie is listed twice: when the key [movie_id] is unique in
    [movies], so are the identifiers of the relational result; when
    [id] is unique in the movies collection, so are those of the
    document result. *)
Theorem search_lists_each_movie_once
        (pg : pg_db) (mg : mongo_db) (genre actor : option string)
        (year_start year_end : option Z) (sort_mode : string) (limit : nat)
        (title_f : option string) :
  (NoDup (map movie_id (movies pg)) ->
   NoDup (map row_movie_id
              (search_postgres ilike pg genre actor year_start year_end
                               sort_mode limit title_f))) /\
  (NoDup (map doc_id (movies_col mg)) ->
   NoDup (map row_movie_id
              (search_mongo regex_i mg genre actor year_start year_end
                            sort_mode limit title_f))).
Proof.
  split; intros H.
  - destruct (pg_result_ids pg genre actor year_start year_end sort_mode
                            limit title_f) as (l & Hp & ->).
    apply NoDup_firstn.
    eapply Permutation_NoDup; [apply Permutation_sym, Hp|].
    now apply NoDup_filter_map.
  - destruct (mongo_result_ids mg genre actor year_start year_end sort_mode
                               limit title_f) as (l & (conds & Hp) & [->| ->]).
    + apply NoDup_firstn.
      eapply Permutation_NoDup; [apply Permutation_sym, Hp|].
      now apply NoDup_filter_map.
    + constructor.
Qed.

End Search.

(** ** Order of the results *)

Section Sorting.
Context {A : Type} (before : A -> A -> bool).
Hypothesis asym : forall a b, before a b = true -> before b a = false.
Hypothesis negtrans :
  forall a b c, before a b = false -> before b c = false -> before a c = false.

(** No later element must precede an earlier one. *)
Definition ordered (l : list A) : Prop :=
  StronglySorted (fun a b => before b a = false) l.

Lemma insert_by_ordered (x : A) (l : list A) :
  ordered l -> ordered (insert_by before x l).
Proof.
  unfold ordered. induction l as [|y r IH]; cbn; intros H.
  - constructor; constructor.
  - inversion H as [|? ? Hr Hy]; subst.
    destruct (before y x) eqn:E.
    + constructor; [now apply IH|].
      apply Forall_forall. intros z Hz.
      apply (Permutation_in z (Permutation_sym (insert_by_perm before x r))) in Hz.
      destruct Hz as [<-|Hz]; [now apply asym|].
      rewrite Forall_forall in Hy. now apply Hy.
    + constructor; [exact H|].
      constructor; [exact E|].
      rewrite Forall_forall in Hy |- *. intros z Hz.
      apply (negtrans z y x); [now apply Hy|exact E].
Qed.

Lemma sort_by_ordered (l : list A) : ordered (sort_by before l).
Proof.
  induction l as [|x r IH]; cbn; [constructor|now apply insert_by_ordered].
Qed.
End Sorting.

Lemma sorted_firstn {A} (R : A -> A -> Prop) (n : nat) (l : list A) :
  StronglySorted R l -> StronglySorted R (firstn n l).
Proof.
  intros H. revert n. induction H as [|x l Hl IH Hx]; intros [|n]; cbn;
    try constructor; [apply IH|].
  rewrite Forall_forall in Hx |- *. intros y Hy. apply Hx.
  now apply in_firstn in Hy.
Qed.

Lemma sorted_map {A B} (R : A -> A -> Prop) (R' : B -> B -> Prop)
      (f : A -> B) (l : list A) :
  (forall a b, In a l -> In b l -> R a b -> R' (f a) (f b)) ->
  StronglySorted R l -> StronglySorted R' (map f l).
Proof.
  intros Himp H. induction H as [|x l Hl IH Hx]; cbn; constructor.
  - apply IH. intros a b Ha Hb. apply Himp; now right.
  - rewrite Forall_forall in Hx |- *. intros y Hy.
    apply in_map_iff in Hy as (a & <- & Ha).
    apply Himp; [now left|now right|now apply Hx].
Qed.

(** The comparisons on keys, as propositions. *)
Lemma qgtb_true (x y : Q) : qgtb x y = true <-> (y < x)%Q.
Proof.
  unfold qgtb. rewrite (Qgt_alt x y).
  destruct (x ?= y)%Q; split; congruence.
Qed.

Lemma qgtb_false (x y : Q) : qgtb x y = false <-> (x <= y)%Q.
Proof.
  split; intros H.
  - apply Qnot_lt_le. intros L. apply qgtb_true in L. congruence.
  - destruct (qgtb x y) eqn:E; [|reflexivity].
    apply qgtb_true in E. lra.
Qed.

(** The two-key descending order of both strategies. *)
Definition lex_before {A} (k1 k2 : A -> option Q) (a b : A) : bool :=
  before_desc (k1 a) (k1 b)
  || (same_key (k1 a) (k1 b) && before_desc (k2 a) (k2 b)).

Ltac keys :=
  repeat match goal with
         | H : qgtb _ _ = true |- _ => apply qgtb_true in H
         | H : qgtb _ _ = false |- _ => apply qgtb_false in H
         | H : Qeq_bool _ _ = true |- _ => apply Qeq_bool_iff in H
         | H : Qeq_bool _ _ = false |- _ => apply Qeq_bool_neq in H
         | |- qgtb _ _ = false => apply qgtb_false
         | |- qgtb _ _ = true => apply qgtb_true
         end.

Lemma before_desc_asym (x y : option Q) :
  before_desc x y = true -> before_desc y x = false.
Proof.
  destruct x as [a|], y as [b|]; cbn; intros H; try easy.
  keys. lra.
Qed.

Lemma before_desc_negtrans (x y z : option Q) :
  before_desc x y = false -> before_desc y z = false -> before_desc x z = false.
Proof.
  destruct x as [a|], y as [b|], z as [c|]; cbn; intros H1 H2; try easy.
  keys. lra.
Qed.

Lemma lex_before_asym {A} (k1 k2 : A -> option Q) (a b : A) :
  lex_before k1 k2 a b = true -> lex_before k1 k2 b a = false.
Proof.
  unfold lex_before.
  destruct (k1 a) as [x|], (k1 b) as [y|], (k2 a) as [u|], (k2 b) as [v|]; cbn;
    intros H; try easy;
    repeat match goal with
           | H : _ || _ = true |- _ => apply orb_true_iff in H as [H|H]
           | H : _ && _ = true |- _ => apply andb_true_iff in H as [? H]
           end; try easy; keys;
    repeat match goal with
           | |- _ || _ = false => apply orb_false_iff; split
           | |- _ && _ = false => apply andb_false_iff
           end; keys; try lra;
    try (destruct (Qeq_bool y x) eqn:E; [right|left; reflexivity]; keys; lra);
    try (left; apply not_true_is_false; intros E; keys; lra).
Qed.

Lemma lex_before_negtrans {A} (k1 k2 : A -> option Q) (a b c : A) :
  lex_before k1 k2 a b = false -> lex_before k1 k2 b c = false ->
  lex_before k1 k2 a c = false.
Proof.
  unfold lex_before.
  destruct (k1 a) as [x|], (k1 b) as [y|], (k1 c) as [z|],
           (k2 a) as [u|], (k2 b) as [v|], (k2 c) as [w|]; cbn;
    intros H1 H2; try easy;
    repeat match goal with
           | H : _ || _ = false |- _ => apply orb_false_iff in H as [? H]
           end; keys;
    repeat match goal with
           | |- _ || _ = false => apply orb_false_iff; split
           end; keys; try lra;
    repeat match goal with
           | H : _ && _ = false |- _ => apply andb_false_iff in H as [H|H]
           end; keys; try easy;
    apply andb_false_iff;
    try (left; apply not_true_is_false; intros E; keys; lra);
    try (right; keys; lra);
    try (destruct (Qeq_bool x z) eqn:E; [right|left; reflexivity]; keys; lra).
Qed.

Lemma sql_before_lex (o : order_by) (a b : sql_row) :
  sql_before o a b
  = match o with
    | OrderRatingPopularity =>
        lex_before (fun r => Some (c_avg_rating r)) c_popularity a b
    | OrderPopularity => lex_before c_popularity c_popularity a b
    end.
Proof.
  destruct o; cbn; [reflexivity|].
  unfold lex_before. destruct (before_desc _ _); cbn; [reflexivity|].
  now rewrite andb_false_r.
Qed.

Lemma pdoc_before_lex (by_rating : bool) (a b : pdoc) :
  pdoc_before by_rating a b
  = if by_rating
    then lex_before pd_avg_rating (fun p => doc_popularity (pd_doc p)) a b
    else lex_before (fun p => doc_popularity (pd_doc p))
                    (fun p => doc_popularity (pd_doc p)) a b.
Proof.
  destruct by_rating; cbn; [reflexivity|].
  unfold lex_before. destruct (before_desc _ _); cbn; [reflexivity|].
  now rewrite andb_false_r.
Qed.

Lemma sql_ordered (o : order_by) (l : list sql_row) :
  ordered (sql_before o) (sort_by (sql_before o) l).
Proof.
  apply sort_by_ordered.
  - intros a b. rewrite !sql_before_lex. destruct o; apply lex_before_asym.
  - intros a b c. rewrite !sql_before_lex. destruct o; apply lex_before_negtrans.
Qed.

Lemma pdoc_ordered (by_rating : bool) (l : list pdoc) :
  ordered (pdoc_before by_rating) (sort_by (pdoc_before by_rating) l).
Proof.
  apply sort_by_ordered.
  - intros a b. rewrite !pdoc_before_lex.
    destruct by_rating; apply lex_before_asym.
  - intros a b c. rewrite !pdoc_before_lex.
    destruct by_rating; apply lex_before_negtrans.
Qed.

Lemma float_or_zero_eq (q : Q) : (float_or_zero (Some q) == q)%Q.
Proof.
  unfold float_or_zero. destruct (Qeq_bool q 0) eqn:E; [|reflexivity].
  apply Qeq_bool_iff in E. now rewrite E.
Qed.

(** Rows in descending order of a displayed number. *)
Definition descending (key : result_row -> Q) (l : list result_row) : Prop :=
  StronglySorted (fun a b => (key b <= key a)%Q) l.

Section Order.
Variable ilike : string -> string -> bool.
Variable regex_i : string -> string -> bool.

(** X4: with [sort_by='rating'] the average ratings of the rows never
    increase down the list, in the result of either strategy. *)
Theorem rating_sort_is_descending
        (pg : pg_db) (mg : mongo_db) (genre actor : option string)
        (year_start year_end : option Z) (limit : nat)
        (title_f : option string) :
  descending row_avg_rating
    (search_postgres ilike pg genre actor year_start year_end
                     "rating" limit title_f) /\
  descending row_avg_rating
    (search_mongo regex_i mg genre actor year_start year_end
                  "rating" limit title_f).
Proof.
  split.
  - unfold search_postgres, execute, descending.
    cbn [q_limit q_order build_query String.eqb Ascii.eqb Bool.eqb].
    eapply sorted_map; [|apply sorted_firstn, sql_ordered].
    intros a b _ _ H. cbn [row_avg_rating row_of_sql].
    rewrite !float_or_zero_eq. cbn in H.
    apply orb_false_iff in H as [H _]. now apply qgtb_false.
  - rewrite search_mongo_eq. unfold descending.
    destruct (fst (actor_ids regex_i mg actor)) as [[|i r]|]; [constructor| |];
      rewrite run_pipeline_eq;
      (eapply sorted_map; [|apply sorted_firstn, pdoc_ordered]);
      intros a b Ha Hb H;
      apply in_firstn, in_sort_by, in_map_iff in Ha as (da & <- & _);
      apply in_firstn, in_sort_by, in_map_iff in Hb as (db & <- & _);
      cbn in H |- *; apply orb_false_iff in H as [H _];
      now apply qgtb_false.
Qed.

(** X5: with any other [sort_by], and popularity values that are not
    negative, the displayed popularity never increases down the list
    (a movie without popularity is displayed with 0 and comes last). *)
Theorem popularity_sort_is_descending
        (pg : pg_db) (mg : mongo_db) (genre actor : option string)
        (year_start year_end : option Z) (sort_mode : string) (limit : nat)
        (title_f : option string) :
  (sort_mode =? "rating") = false ->
  (Forall (fun m => forall q, popularity m = Some q -> (0 <= q)%Q) (movies pg) ->
   descending row_popularity
     (search_postgres ilike pg genre actor year_start year_end
                      sort_mode limit title_f)) /\
  (Forall (fun d => forall q, doc_popularity d = Some q -> (0 <= q)%Q)
          (movies_col mg) ->
   descending row_popularity
     (search_mongo regex_i mg genre actor year_start year_end
                   sort_mode limit title_f)).
Proof.
  intros Hmode. split; intros Hpos; rewrite Forall_forall in Hpos.
  - unfold search_postgres, execute, descending.
    cbn [q_limit q_order build_query]. rewrite Hmode.
    eapply sorted_map; [|apply sorted_firstn, sql_ordered].
    intros a b Ha _ H. cbn [row_popularity row_of_sql]. cbn in H.
    assert (Ka : forall q, c_popularity a = Some q -> (0 <= q)%Q).
    { apply in_firstn, in_sort_by in Ha. unfold grouped in Ha.
      apply in_flat_map in Ha as (m & Hm & Ha).
      destruct (group ilike pg _ m); [destruct Ha|].
      destruct Ha as [<-|[]]. cbn. now apply Hpos. }
    destruct (c_popularity b) as [y|], (c_popularity a) as [x|] eqn:Ea;
      cbn in H; try easy.
    + rewrite !float_or_zero_eq. now apply qgtb_false.
    + rewrite float_or_zero_eq. cbn. now apply Ka.
  - rewrite search_mongo_eq. unfold descending.
    destruct (fst (actor_ids regex_i mg actor)) as [[|i r]|]; [constructor| |];
      rewrite run_pipeline_eq, Hmode;
      (eapply sorted_map; [|apply sorted_firstn, pdoc_ordered]);
      intros a b Ha _ H;
      apply in_firstn, in_sort_by, in_map_iff in Ha as (da & <- & Ha);
      apply filter_In in Ha as [Ha _];
      cbn in H |- *;
      pose proof (Hpos da Ha) as Ka;
      (destruct (doc_popularity (pd_doc b)) as [y|],
               (doc_popularity da) as [x|] eqn:Ea; cbn in H; try easy;
       [rewrite !float_or_zero_eq; now apply qgtb_false
       |rewrite float_or_zero_eq; cbn; now apply Ka]).
Qed.

End Order.

Section Unfiltered.
Variable ilike : string -> string -> bool.
Variable regex_i : string -> string -> bool.

Lemma unfiltered_qualifies (pg : pg_db) (m : movie) :
  pg_qualifies ilike pg None None None None None m = true.
Proof. reflexivity. Qed.

(** X3: without any filter no movie is left out for want of ratings,
    genres or cast: each strategy returns as many rows as the limit
    allows, and every movie when the limit allows it. *)
Theorem unfiltered_search_keeps_every_movie
        (pg : pg_db) (mg : mongo_db) (sort_mode : string) (limit : nat) :
  length (search_postgres ilike pg None None None None sort_mode limit None)
    = Nat.min limit (length (movies pg)) /\
  length (search_mongo regex_i mg None None None None sort_mode limit None)
    = Nat.min limit (length (movies_col mg)) /\
  ((length (movies pg) <= limit)%nat ->
   Permutation
     (map row_movie_id
          (search_postgres ilike pg None None None None sort_mode limit None))
     (map movie_id (movies pg))) /\
  ((length (movies_col mg) <= limit)%nat ->
   Permutation
     (map row_movie_id
          (search_mongo regex_i mg None None None None sort_mode limit None))
     (map doc_id (movies_col mg))).
Proof.
  assert (Eg : map c_movie_id
                   (grouped ilike pg (build_query None None None None
                                                  sort_mode limit None))
               = map movie_id (movies pg)).
  { rewrite grouped_ids. f_equal. apply filter_all. reflexivity. }
  assert (Em : search_mongo regex_i mg None None None None sort_mode limit None
               = map row_of_doc
                   (firstn limit
                      (sort_by (pdoc_before (sort_mode =? "rating"))
                               (map (rated mg) (movies_col mg))))).
  { rewrite search_mongo_eq. cbn [actor_ids ret fst].
    rewrite run_pipeline_eq. do 3 f_equal. f_equal.
    apply filter_all. reflexivity. }
  repeat split.
  - unfold search_postgres, execute. cbn [q_limit q_order build_query].
    rewrite length_map, length_firstn, sort_by_length.
    now rewrite <- (length_map c_movie_id), Eg, length_map.
  - rewrite Em, length_map, length_firstn, sort_by_length, length_map.
    reflexivity.
  - intros H. unfold search_postgres, execute.
    cbn [q_limit q_order build_query].
    rewrite firstn_all2
      by (rewrite sort_by_length, <- (length_map c_movie_id), Eg, length_map;
          exact H).
    rewrite map_map.
    rewrite (map_ext (fun c => row_movie_id (row_of_sql c)) c_movie_id)
      by reflexivity.
    rewrite <- Eg. apply Permutation_map, Permutation_sym, sort_by_perm.
  - intros H. rewrite Em.
    rewrite firstn_all2 by (rewrite sort_by_length, length_map; exact H).
    rewrite map_map.
    rewrite (map_ext (fun p => row_movie_id (row_of_doc p))
                     (fun p => doc_id (pd_doc p))) by reflexivity.
    eapply Permutation_trans;
      [apply Permutation_map, Permutation_sym, sort_by_perm|].
    rewrite map_map. apply Permutation_refl.
Qed.

Lemma somes_length {A} (l : list (option A)) :
  (length (somes l) <= length l)%nat.
Proof. induction l as [|[x|] r IH]; cbn; lia. Qed.

Lemma actor_ids_value (mg : mongo_db) (a : string) :
  a <> "" ->
  exists q, fst (actor_ids regex_i mg (Some a))
            = Some (somes (map cr_id (firstn 500 (filter (credit_matches regex_i q)
                                                         (credits_col mg))))).
Proof.
  intros Ha. unfold actor_ids.
  destruct (String.eqb_spec a "") as [E|_]; [contradiction|].
  eexists. reflexivity.
Qed.

(** X6: the calls [search_mongo] makes on the collections: without an
    actor filter a single aggregation; with one, first the probe and
    the lookup on [credits], the lookup never asking for more than 500
    documents, and then at most one aggregation. *)
Theorem search_mongo_call_protocol
        (mg : mongo_db) (genre actor : option string)
        (year_start year_end : option Z) (sort_mode : string) (limit : nat)
        (title_f : option string) :
  let calls := search_mongo_calls regex_i mg genre actor year_start year_end
                                  sort_mode limit title_f in
  (str_true actor = false -> exists p, calls = [MoviesAggregate p]) /\
  (str_true actor = true ->
   exists q, calls = [CreditsFindOne; CreditsFind q 500] \/
             exists p, calls = [CreditsFindOne; CreditsFind q 500;
                                MoviesAggregate p]) /\
  (forall ids, fst (actor_ids regex_i mg actor) = Some ids ->
               (length ids <= 500)%nat).
Proof.
  cbn zeta. unfold search_mongo_calls, search_mongo_run, str_true.
  repeat split.
  - intros H. destruct actor as [a|]; [destruct (a =? "") eqn:E; [|easy]|];
      unfold actor_ids; rewrite ?E; cbn; eauto.
  - intros H. destruct actor as [a|]; [|easy].
    destruct (String.eqb_spec a "") as [->|Ha]; [easy|].
    destruct (actor_ids_calls regex_i mg a Ha) as [q Hq]. exists q.
    unfold bind.
    destruct (actor_ids regex_i mg (Some a)) as [[[|i r]|] calls];
      cbn [snd] in Hq; subst calls; cbn; eauto.
  - intros ids H. destruct actor as [a|]; [|discriminate H].
    destruct (String.eqb_spec a "") as [->|Ha]; [discriminate H|].
    destruct (actor_ids_value mg a Ha) as [q Hq].
    rewrite Hq in H.
    match type of H with
    | Some ?l = _ => assert (E : ids = l) by congruence
    end.
    rewrite E. eapply Nat.le_trans; [apply somes_length|].
    rewrite length_map. apply firstn_le_length.
Qed.

End Unfiltered.

(** ** The rating statistics of a row *)

Lemma map_flat_map' {A B C} (f : B -> C) (g : A -> list B) (l : list A) :
  map f (flat_map g l) = flat_map (fun x => map f (g x)) l.
Proof.
  induction l as [|x r IH]; cbn; [reflexivity|]. now rewrite map_app, IH.
Qed.

Lemma flat_map_map' {A B C} (f : A -> B) (g : B -> list C) (l : list A) :
  flat_map g (map f l) = flat_map (fun x => g (f x)) l.
Proof.
  induction l as [|x r IH]; cbn; [reflexivity|]. now rewrite IH.
Qed.

Lemma flat_map_flat_map {A B C} (f : A -> list B) (g : B -> list C) (l : list A) :
  flat_map g (flat_map f l) = flat_map (fun x => flat_map g (f x)) l.
Proof.
  induction l as [|x r IH]; cbn; [reflexivity|]. now rewrite flat_map_app, IH.
Qed.

Lemma filter_flat_map {A B} (keep : B -> bool) (expand : A -> list B) :
  forall rows,
    filter keep (flat_map expand rows)
    = flat_map (fun x => filter keep (expand x)) rows.
Proof.
  intros rows. induction rows as [|x r IH]; cbn; [reflexivity|].
  now rewrite filter_app, IH.
Qed.

Lemma filter_map_same {A} (p : A -> bool) (f : A -> A) (l : list A) :
  (forall x, p (f x) = p x) -> filter p (map f l) = map f (filter p l).
Proof.
  intros H. induction l as [|x r IH]; cbn; [reflexivity|].
  rewrite H. destruct (p x); cbn; now rewrite IH.
Qed.

(** The row with another rating in its [r] columns. *)
Definition set_r (x : option rating) (row : jrow) : jrow :=
  {| j_m := j_m row; j_r := x; j_mg2 := j_mg2 row; j_g2 := j_g2 row;
     j_mg := j_mg row; j_g := j_g row; j_mc := j_mc row; j_p := j_p row |}.

Definition ratings_of (db : pg_db) (m : movie) : list rating :=
  filter (fun r => (movie_id m =? r_movie_id r)%Z) (ratings db).

(** The joins of one movie without the ratings. *)
Definition from_unrated (db : pg_db) (m : movie) : list jrow :=
  flat_map (fun mg2 =>
      map (fun g2 =>
             {| j_m := m; j_r := None; j_mg2 := mg2; j_g2 := g2;
                j_mg := None; j_g := None; j_mc := None; j_p := None |})
          (left_join (fun g2 => match mg2 with
                                | Some x => (mg_genre_id x =? genre_id g2)%Z
                                | None => false
                                end) (genres db)))
      (left_join (fun mg2 => (movie_id m =? mg_movie_id mg2)%Z) (movie_genres db)).

Definition ratings_joined (db : pg_db) (m : movie) : list (option rating) :=
  left_join (fun r => (movie_id m =? r_movie_id r)%Z) (ratings db).

Lemma from_clause_split (db : pg_db) (m : movie) :
  from_clause db m
  = flat_map (fun x => map (set_r x) (from_unrated db m)) (ratings_joined db m).
Proof.
  unfold from_clause, ratings_joined, from_unrated.
  apply flat_map_ext. intros x. rewrite map_flat_map'.
  apply flat_map_ext. intros mg2. now rewrite map_map.
Qed.

Lemma apply_join_set_r (db : pg_db) (j : join_clause) (x : option rating)
      (row : jrow) :
  apply_join db j (set_r x row) = map (set_r x) (apply_join db j row).
Proof.
  destruct j; cbn; try (now rewrite map_map).
  - destruct (j_mg row); [now rewrite map_map|reflexivity].
  - destruct (j_mc row); [now rewrite map_map|reflexivity].
Qed.

Lemma joins_split (db : pg_db) (joins : list join_clause)
      (rows : list jrow) (l : list (option rating)) :
  fold_left (fun rows j => flat_map (apply_join db j) rows) joins
            (flat_map (fun x => map (set_r x) rows) l)
  = flat_map (fun x => map (set_r x)
                (fold_left (fun rows j => flat_map (apply_join db j) rows)
                           joins rows)) l.
Proof.
  revert rows. induction joins as [|j r IH]; intros rows; cbn; [reflexivity|].
  rewrite <- IH. f_equal. rewrite flat_map_flat_map.
  apply flat_map_ext. intros x. rewrite flat_map_map', map_flat_map'.
  apply flat_map_ext. intros row. apply apply_join_set_r.
Qed.

Section Population.
Variable ilike : string -> string -> bool.
Variable regex_i : string -> string -> bool.

Lemma holds_set_r (x : option rating) (row : jrow) (c : condition) :
  holds ilike (set_r x row) c = holds ilike row c.
Proof. destruct c; reflexivity. Qed.

(** The rows of one movie that pass [WHERE], ratings left aside. *)
Definition group_unrated (db : pg_db) (q : query) (m : movie) : list jrow :=
  filter (fun row => forallb (holds ilike row) (q_where q))
         (fold_left (fun rows j => flat_map (apply_join db j) rows)
                    (q_joins q) (from_unrated db m)).

Lemma group_split (db : pg_db) (q : query) (m : movie) :
  group ilike db q m
  = flat_map (fun x => map (set_r x) (group_unrated db q m))
             (ratings_joined db m).
Proof.
  unfold group, joined_rows, group_unrated.
  rewrite from_clause_split, joins_split, filter_flat_map.
  apply flat_map_ext. intros x. apply filter_map_same.
  intros row. induction (q_where q) as [|c r IH]; cbn; [reflexivity|].
  now rewrite holds_set_r, IH.
Qed.

Lemma ratings_joined_somes (db : pg_db) (m : movie) :
  somes (ratings_joined db m) = ratings_of db m.
Proof.
  unfold ratings_joined, left_join, ratings_of.
  destruct (filter _ _) as [|r l]; [reflexivity|].
  generalize (r :: l). intros l'. induction l'; cbn; congruence.
Qed.

Lemma somes_const_some {A B} (x : B) (l : list A) :
  somes (map (fun _ => Some x) l) = repeat x (length l).
Proof. induction l as [|a l IH]; cbn; [reflexivity|now rewrite IH]. Qed.

Lemma somes_const_none {A B} (l : list A) :
  somes (map (fun _ => @None B) l) = [].
Proof. induction l as [|a l IH]; cbn; [reflexivity|exact IH]. Qed.

(** Every rating of the movie comes as often as there are rows
    without it. *)
Lemma group_rating_list (db : pg_db) (q : query) (m : movie) :
  somes (map j_r (group ilike db q m))
  = flat_map (fun r => repeat r (length (group_unrated db q m)))
             (ratings_of db m).
Proof.
  rewrite group_split, <- ratings_joined_somes.
  induction (ratings_joined db m) as [|x l IH]; [reflexivity|].
  cbn [flat_map]. rewrite map_app.
  assert (S : forall a b : list (option rating), somes (a ++ b) = somes a ++ somes b).
  { intros a b. induction a as [|[y|] a IHa]; cbn; congruence. }
  rewrite S, IH, map_map. cbn [set_r j_r].
  destruct x as [r|]; cbn [somes flat_map].
  - now rewrite somes_const_some.
  - now rewrite somes_const_none.
Qed.

Lemma group_unrated_nonempty (db : pg_db) (q : query) (m : movie) :
  group ilike db q m <> [] -> (0 < length (group_unrated db q m))%nat.
Proof.
  rewrite group_split. destruct (group_unrated db q m); [|cbn; lia].
  intros H. exfalso. apply H.
  induction (ratings_joined db m); cbn; auto.
Qed.

Lemma in_repeated {A} (k : nat) (l : list A) (x : A) :
  (0 < k)%nat ->
  (In x (flat_map (fun r => repeat r k) l) <-> In x l).
Proof.
  intros Hk. rewrite in_flat_map. split.
  - intros (r & Hr & H). apply repeat_spec in H. now subst.
  - intros H. exists x. split; [exact H|]. destruct k; [lia|]. now left.
Qed.

Lemma nodup_length_same (l l' : list Z) :
  (forall x, In x l <-> In x l') ->
  length (nodup Z.eq_dec l) = length (nodup Z.eq_dec l').
Proof.
  intros H. apply Permutation_length, NoDup_Permutation; try apply NoDup_nodup.
  intros x. now rewrite !nodup_In.
Qed.

Lemma qsum_app (a b : list Q) : (qsum (a ++ b) == qsum a + qsum b)%Q.
Proof.
  induction a as [|x a IH].
  - cbn [app]. change (qsum []) with 0%Q. ring.
  - cbn [app]. change (qsum (x :: a ++ b)) with (x + qsum (a ++ b))%Q.
    change (qsum (x :: a)) with (x + qsum a)%Q. rewrite IH. ring.
Qed.

Lemma qsum_repeat (x : Q) (k : nat) :
  (qsum (repeat x k) == inject_Z (Z.of_nat k) * x)%Q.
Proof.
  induction k as [|k IH].
  - change (qsum (repeat x 0)) with 0%Q. change (inject_Z (Z.of_nat 0)) with 0%Q.
    ring.
  - change (qsum (repeat x (S k))) with (x + qsum (repeat x k))%Q. rewrite IH.
    rewrite Nat2Z.inj_succ. unfold Z.succ. rewrite inject_Z_plus.
    change (inject_Z 1) with 1%Q. ring.
Qed.

Lemma qsum_repeated (k : nat) (l : list rating) :
  (qsum (map r_rating (flat_map (fun r => repeat r k) l))
   == inject_Z (Z.of_nat k) * qsum (map r_rating l))%Q.
Proof.
  induction l as [|r l IH]; cbn [flat_map map].
  - change (qsum []) with 0%Q. ring.
  - rewrite map_app, qsum_app, IH.
    change (qsum (r_rating r :: map r_rating l))
      with (r_rating r + qsum (map r_rating l))%Q.
    assert (E : map r_rating (repeat r k) = repeat (r_rating r) k)
      by (clear; induction k; cbn; congruence).
    rewrite E, qsum_repeat. ring.
Qed.

Lemma length_repeated {A} (k : nat) (l : list A) :
  length (flat_map (fun r => repeat r k) l) = (k * length l)%nat.
Proof.
  induction l as [|r l IH]; cbn [flat_map length]; [lia|].
  rewrite length_app, repeat_length, IH. lia.
Qed.

Definition average_or_zero (l : list Q) : Q :=
  match average l with Some a => a | None => 0%Q end.

Lemma average_repeated (k : nat) (l : list rating) :
  (0 < k)%nat ->
  (average_or_zero (map r_rating (flat_map (fun r => repeat r k) l))
   == average_or_zero (map r_rating l))%Q.
Proof.
  intros Hk. unfold average_or_zero, average.
  destruct l as [|r l]; [reflexivity|].
  set (l' := r :: l).
  assert (Hn : (0 < length l')%nat) by (cbn; lia).
  destruct (map r_rating (flat_map (fun r => repeat r k) l')) eqn:E.
  - apply (f_equal (@length Q)) in E.
    rewrite length_map, length_repeated in E. cbn in E. nia.
  - rewrite <- E. clear E.
    destruct (map r_rating l') eqn:E'; [discriminate|]. rewrite <- E'.
    rewrite qsum_repeated, !length_map, length_repeated.
    rewrite Nat2Z.inj_mul, inject_Z_mult.
    assert (K : ~ (inject_Z (Z.of_nat k) == 0)%Q).
    { intros C. unfold Qeq in C. cbn in C. lia. }
    assert (N : ~ (inject_Z (Z.of_nat (length l')) == 0)%Q).
    { intros C. unfold Qeq in C. cbn in C. lia. }
    field. split; assumption.
Qed.

(** X7: whatever the filters, the rating statistics of a relational row
    are those of all the ratings of its movie: the joins that multiply
    the rows neither change the count nor the average. *)
Theorem postgres_ratings_cover_the_movie
        (pg : pg_db) (genre actor : option string)
        (year_start year_end : option Z) (sort_mode : string) (limit : nat)
        (title_f : option string) (row : result_row) :
  In row (search_postgres ilike pg genre actor year_start year_end
                          sort_mode limit title_f) ->
  exists m,
    In m (movies pg) /\ row_movie_id row = movie_id m /\
    row_num_ratings row
      = length (nodup Z.eq_dec (map rating_id (ratings_of pg m))) /\
    (row_avg_rating row
     == average_or_zero (map r_rating (ratings_of pg m)))%Q.
Proof.
  unfold search_postgres. intros H.
  apply in_map_iff in H as (c & <- & H).
  apply search_postgres_rows in H as (m & Hm & Hne & ->).
  exists m. split; [exact Hm|]. split; [reflexivity|].
  pose proof (group_unrated_nonempty pg _ m Hne) as Hk.
  cbn [row_of_sql row_num_ratings row_avg_rating aggregate c_num_ratings
       c_avg_rating].
  rewrite group_rating_list. split.
  - apply nodup_length_same. intros x. rewrite !in_map_iff.
    split; intros (r & E & Hr); exists r; (split; [exact E|]);
      now apply (in_repeated _ _ _ Hk).
  - rewrite float_or_zero_eq.
    exact (average_repeated _ (ratings_of pg m) Hk).
Qed.

(** X8: in the document strategy the statistics of a row are over all the
    rating documents of its movie: their number, and the average of
    those that carry a number. *)
Theorem mongo_ratings_cover_the_movie
        (mg : mongo_db) (genre actor : option string)
        (year_start year_end : option Z) (sort_mode : string) (limit : nat)
        (title_f : option string) (row : result_row) :
  In row (search_mongo regex_i mg genre actor year_start year_end
                       sort_mode limit title_f) ->
  let rs := filter (fun r => (rd_movie_id r =? row_movie_id row)%Z)
                   (ratings_col mg) in
  row_num_ratings row = length rs /\
  row_avg_rating row = average_or_zero (somes (map rd_rating rs)).
Proof.
  intros H. apply search_mongo_rows in H as (d & _ & _ & ->).
  cbn. split; reflexivity.
Qed.

End Population.

(** ** The properties on the sample catalogue *)

Lemma sample_movie_ids_unique : NoDup (map movie_id (movies Sample.pg)).
Proof.
  repeat (constructor;
          [cbn; intros H; repeat (destruct H as [H|H]; [discriminate H|]);
           destruct H|]).
  constructor.
Qed.

Lemma sample_doc_ids_unique : NoDup (map doc_id (movies_col Sample.mongo)).
Proof.
  repeat (constructor;
          [cbn; intros H; repeat (destruct H as [H|H]; [discriminate H|]);
           destruct H|]).
  constructor.
Qed.

Lemma search_lists_each_movie_once_witness :
  NoDup (map row_movie_id
             (search_postgres TextOps.ilike Sample.pg None None None None
                              "popularity" 10 None)) /\
  NoDup (map row_movie_id
             (search_mongo TextOps.literal_regex_i Sample.mongo None None None
                           None "popularity" 10 None)).
Proof.
  destruct (search_lists_each_movie_once TextOps.ilike TextOps.literal_regex_i
              Sample.pg Sample.mongo None None None None "popularity" 10 None)
    as [Hp Hm].
  split; [apply Hp, sample_movie_ids_unique|apply Hm, sample_doc_ids_unique].
Defined.

Lemma unfiltered_search_keeps_every_movie_witness :
  Permutation
    (map row_movie_id
         (search_postgres TextOps.ilike Sample.pg None None None None
                          "popularity" 10 None))
    (map movie_id (movies Sample.pg)) /\
  Permutation
    (map row_movie_id
         (search_mongo TextOps.literal_regex_i Sample.mongo None None None
                       None "popularity" 10 None))
    (map doc_id (movies_col Sample.mongo)).
Proof.
  destruct (unfiltered_search_keeps_every_movie TextOps.ilike
              TextOps.literal_regex_i Sample.pg Sample.mongo "popularity" 10)
    as (_ & _ & Hp & Hm).
  split; [apply Hp|apply Hm]; cbn; lia.
Defined.

Lemma sample_popularity_nonneg :
  Forall (fun m => forall q, popularity m = Some q -> (0 <= q)%Q)
         (movies Sample.pg).
Proof.
  repeat constructor; cbn; intros q H; try discriminate H;
    injection H as <-; easy.
Qed.

Lemma sample_doc_popularity_nonneg :
  Forall (fun d => forall q, doc_popularity d = Some q -> (0 <= q)%Q)
         (movies_col Sample.mongo).
Proof.
  repeat constructor; cbn; intros q H; try discriminate H;
    injection H as <-; easy.
Qed.

Lemma popularity_sort_is_descending_witness :
  descending row_popularity
    (search_postgres TextOps.ilike Sample.pg None None None None
                     "title" 10 None) /\
  descending row_popularity
    (search_mongo TextOps.literal_regex_i Sample.mongo None None None None
                  "title" 10 None).
Proof.
  destruct (popularity_sort_is_descending TextOps.ilike TextOps.literal_regex_i
              Sample.pg Sample.mongo None None None None "title" 10 None
              eq_refl) as [Hp Hm].
  split; [apply Hp, sample_popularity_nonneg
         |apply Hm, sample_doc_popularity_nonneg].
Defined.

Lemma search_mongo_call_protocol_witness :
  (exists p, search_mongo_calls TextOps.literal_regex_i Sample.mongo None None
                                None None "popularity" 10 None
             = [MoviesAggregate p]) /\
  (exists q, search_mongo_calls TextOps.literal_regex_i Sample.mongo None
                                (Some "hanks") None None "popularity" 10 None
             = [CreditsFindOne; CreditsFind q 500] \/
             exists p, search_mongo_calls TextOps.literal_regex_i Sample.mongo
                                          None (Some "hanks") None None
                                          "popularity" 10 None
                       = [CreditsFindOne; CreditsFind q 500; MoviesAggregate p]).
Proof.
  split.
  - apply (proj1 (search_mongo_call_protocol TextOps.literal_regex_i
                    Sample.mongo None None None None "popularity" 10 None)).
    reflexivity.
  - apply (proj1 (proj2 (search_mongo_call_protocol TextOps.literal_regex_i
                           Sample.mongo None (Some "hanks") None None
                           "popularity" 10 None))).
    reflexivity.
Defined.

Lemma postgres_ratings_cover_the_movie_witness :
  exists row m,
    In row (search_postgres TextOps.ilike Sample.pg (Some "anim") None None None
                            "popularity" 10 None) /\
    In m (movies Sample.pg) /\ row_movie_id row = movie_id m /\
    row_num_ratings row
    = length (nodup Z.eq_dec (map rating_id (ratings_of Sample.pg m))).
Proof.
  assert (H : exists row,
             In row (search_postgres TextOps.ilike Sample.pg (Some "anim") None
                                     None None "popularity" 10 None))
    by (eexists; vm_compute; left; reflexivity).
  destruct H as [row H]. exists row.
  destruct (postgres_ratings_cover_the_movie TextOps.ilike Sample.pg
              (Some "anim") None None None "popularity" 10 None row H)
    as (m & Hm & Hid & Hn & _).
  exists m. repeat split; assumption.
Defined.

Lemma mongo_ratings_cover_the_movie_witness :
  exists row,
    In row (search_mongo TextOps.literal_regex_i Sample.mongo (Some "anim") None
                         None None "popularity" 10 None) /\
    row_num_ratings row
    = length (filter (fun r => (rd_movie_id r =? row_movie_id row)%Z)
                     (ratings_col Sample.mongo)).
Proof.
  assert (H : exists row,
             In row (search_mongo TextOps.literal_regex_i Sample.mongo
                                  (Some "anim") None None None "popularity"
                                  10 None))
    by (eexists; vm_compute; left; reflexivity).
  destruct H as [row H]. exists row. split; [exact H|].
  exact (proj1 (mongo_ratings_cover_the_movie TextOps.literal_regex_i
                  Sample.mongo (Some "anim") None None None "popularity" 10
                  None row H)).
Defined.

End SearchFacts.

(* ================================================================== *)
(** * Further properties of the benchmark harness *)
(* ================================================================== *)

Module HarnessFacts.
Import Py PyFloat Stats Bench BenchFacts.
Open Scope string_scope.
Open Scope Z_scope.

(** ** A program logic for the body of the handler *)

(** From a state in [P], the computation ends in [QV] with a value, in
    [QX] with an exception, in [QR] with an early [return]. *)
Definition triple {A} (P : bstate -> Prop) (m : B A)
           (QV : A -> bstate -> Prop) (QX : exn -> bstate -> Prop)
           (QR : response -> bstate -> Prop) : Prop :=
  forall s, P s ->
    match m s with
    | (Val a, s') => QV a s'
    | (Exc e, s') => QX e s'
    | (Ret r, s') => QR r s'
    end.

Lemma triple_bind {A C} (P : bstate -> Prop) (m : B A) (f : A -> B C)
      (QV1 : A -> bstate -> Prop) QV QX QR :
  triple P m QV1 QX QR ->
  (forall a, triple (QV1 a) (f a) QV QX QR) ->
  triple P (bind m f) QV QX QR.
Proof.
  intros Hm Hf s Hs. unfold bind. specialize (Hm s Hs).
  destruct (m s) as [[a|e|r] s1]; [now apply Hf|exact Hm|exact Hm].
Qed.

Lemma triple_weaken {A} (P P' : bstate -> Prop) (m : B A)
      (QV QV' : A -> bstate -> Prop) (QX QX' : exn -> bstate -> Prop)
      (QR QR' : response -> bstate -> Prop) :
  triple P m QV QX QR ->
  (forall s, P' s -> P s) ->
  (forall a s, QV a s -> QV' a s) ->
  (forall e s, QX e s -> QX' e s) ->
  (forall r s, QR r s -> QR' r s) ->
  triple P' m QV' QX' QR'.
Proof.
  intros H HP HV HX HR s Hs. specialize (H s (HP s Hs)).
  destruct (m s) as [[a|e|r] s1]; auto.
Qed.

(** A validation step: it leaves the state alone. *)
Lemma triple_lift_bind {A C} (P : bstate -> Prop) (v : A + exn)
      (f : A -> B C) QV (QX : exn -> bstate -> Prop) QR :
  (forall a, v = inl a -> triple P (f a) QV QX QR) ->
  (forall e s, P s -> QX e s) ->
  triple P (bind (lift v) f) QV QX QR.
Proof.
  intros Hf HX s Hs. unfold bind, lift.
  destruct v as [a|e]; cbn; [now apply (Hf a eq_refl)|now apply HX].
Qed.

(** A computation is [quiet] when it never returns early and leaves
    the count of open cursors as it found it; when it yields a value
    no engine error has been added to the record, and [Q] holds of
    the value. *)
Definition quiet {A} (m : B A) (Q : A -> Prop) : Prop :=
  forall s,
    match m s with
    | (Val a, s') => open_cursors s' = open_cursors s /\
                     engine_errors s' = engine_errors s /\ Q a
    | (Exc _, s') => open_cursors s' = open_cursors s
    | (Ret _, _) => False
    end.

Definition any {A} (a : A) : Prop := True.

Lemma quiet_ret {A} (a : A) (Q : A -> Prop) : Q a -> quiet (ret a) Q.
Proof. intros H s. cbn. auto. Qed.

Lemma quiet_lift {A} (v : A + exn) : quiet (lift v) any.
Proof. intros s. destruct v; cbn; unfold any; auto. Qed.

Lemma quiet_bind {A C} (m : B A) (f : A -> B C) (Q1 : A -> Prop)
      (Q2 : C -> Prop) :
  quiet m Q1 -> (forall a, Q1 a -> quiet (f a) Q2) -> quiet (bind m f) Q2.
Proof.
  intros Hm Hf s. unfold bind. specialize (Hm s).
  destruct (m s) as [[a|e|r] s1]; [|exact Hm|exact Hm].
  destruct Hm as (Ho & He & Ha). specialize (Hf a Ha s1).
  destruct (f a s1) as [[c|e|r] s2]; [|congruence|exact Hf].
  destruct Hf as (Ho' & He' & Hc). repeat split; [congruence|congruence|assumption].
Qed.

Lemma quiet_any {A} (m : B A) (Q : A -> Prop) : quiet m Q -> quiet m any.
Proof.
  intros H s. specialize (H s). destruct (m s) as [[a|e|r] s1]; auto.
  destruct H as (Ho & He & _). repeat split; assumption.
Qed.

Section Quiet.
Variable E : env.

Lemma quiet_pg (stmt : pg_stmt) : quiet (pg E stmt) any.
Proof.
  intros s. unfold pg. cbn.
  destruct (pg_execute E (pg_calls s) stmt); cbn; unfold any; auto.
Qed.

Lemma quiet_mongo (c : mongo_call) : quiet (mongo E c) any.
Proof.
  intros s. unfold mongo. cbn.
  destruct (mongo_find E (mongo_calls s) c); cbn; unfold any; auto.
Qed.

Lemma quiet_sample : quiet (sample_credit E) any.
Proof.
  intros s. unfold sample_credit. cbn.
  destruct (mongo_sample E (mongo_calls s)); cbn; unfold any; auto.
Qed.

Lemma quiet_explain_mongo (c : mongo_call) : quiet (explain_mongo E c) any.
Proof.
  intros s. unfold explain_mongo. cbn.
  destruct (mongo_explain E (mongo_calls s) c); cbn; unfold any; auto.
Qed.

Lemma quiet_perf : quiet (perf_counter E) any.
Proof. intros s. cbn. unfold any. auto. Qed.

Lemma quiet_discard {A} (call : B A) (Q : A -> Prop) :
  quiet call Q -> quiet (discard call) any.
Proof.
  intros H. unfold discard. eapply quiet_bind; [exact H|].
  intros a _. now apply quiet_ret.
Qed.

Lemma quiet_repeat (n : nat) (body : B unit) :
  quiet body any -> quiet (repeat_ n body) any.
Proof.
  intros Hb. induction n; cbn; [now apply quiet_ret|].
  eapply quiet_bind; [exact Hb|]. intros _ _. exact IHn.
Qed.

Lemma quiet_count_rows (call : B (list json)) :
  quiet call any -> quiet (count_rows call) any.
Proof.
  intros H. unfold count_rows. eapply quiet_bind; [exact H|].
  intros a _. now apply quiet_ret.
Qed.

Lemma quiet_count_one (call : B (list json)) :
  quiet call any -> quiet (count_one call) any.
Proof.
  intros H. unfold count_one. eapply quiet_bind; [exact H|].
  intros a _. now apply quiet_ret.
Qed.

(** The measuring loop appends one latency for each run. *)
Lemma quiet_measure (n : nat) (call : B nat) :
  quiet call any ->
  forall l c, quiet (measure E n call l c)
                    (fun r => length (fst r) = (length l + n)%nat).
Proof.
  intros Hc. induction n; intros l c; cbn [measure].
  - apply quiet_ret. cbn. lia.
  - eapply quiet_bind; [apply quiet_perf|]. intros start _.
    eapply quiet_bind; [exact Hc|]. intros k _.
    eapply quiet_bind; [apply quiet_perf|]. intros stop _.
    intros s. specialize (IHn (l ++ [mul (sub stop start) (of_Z 1000)])%list k s).
    destruct (measure E n call _ k s) as [[r|e|r] s1]; auto.
    destruct IHn as (Ho & He & Hl). split; [exact Ho|]. split; [exact He|].
    rewrite Hl, length_app. cbn. lia.
Qed.

Lemma quiet_explain_pg (stmt : pg_stmt) : quiet (explain_pg E stmt) any.
Proof.
  unfold explain_pg. eapply quiet_bind; [apply quiet_pg|]. intros rows _.
  eapply quiet_bind; [apply quiet_lift|]. intros lines _.
  now apply quiet_ret.
Qed.

(** What a test must leave behind: as many latencies as runs, for
    each engine. *)
Definition measured (n : nat) (smp : samples) : Prop :=
  length (pg_latencies smp) = n /\ length (mongo_latencies smp) = n.

Lemma quiet_explains (include_explain : bool) (stmt : pg_stmt)
      (call : mongo_call) :
  quiet (if include_explain
         then bind (explain_pg E stmt)
                   (fun p => bind (explain_mongo E call)
                                  (fun m => ret (Some p, Some m)))
         else ret (None, None)) any.
Proof.
  destruct include_explain; [|now apply quiet_ret].
  eapply quiet_bind; [apply quiet_explain_pg|]. intros p _.
  eapply quiet_bind; [apply quiet_explain_mongo|]. intros m _.
  now apply quiet_ret.
Qed.

Lemma quiet_list_test stmt prepare runs ie notes0 :
  quiet prepare any ->
  quiet (list_test E stmt prepare runs ie notes0) (measured runs).
Proof.
  intros Hp. unfold list_test.
  eapply quiet_bind; [apply quiet_repeat, (quiet_discard _ any), quiet_pg|].
  intros _ _.
  eapply quiet_bind; [apply quiet_measure, quiet_count_rows, quiet_pg|].
  intros pgm Hpg.
  eapply quiet_bind; [exact Hp|]. intros prep _.
  eapply quiet_bind; [apply quiet_repeat, (quiet_discard _ any), quiet_mongo|].
  intros _ _.
  eapply quiet_bind; [apply quiet_measure, quiet_count_rows, quiet_mongo|].
  intros mgm Hmg.
  eapply quiet_bind; [apply quiet_explains|]. intros ex _.
  apply quiet_ret. split; cbn; assumption.
Qed.

Lemma quiet_triple {A} (m : B A) (Q : A -> Prop) (k : nat)
      (QR : response -> bstate -> Prop) :
  quiet m Q ->
  triple (fun s => open_cursors s = k /\ engine_errors s = 0%nat) m
         (fun a s => open_cursors s = k /\ engine_errors s = 0%nat /\ Q a)
         (fun _ s => open_cursors s = k) QR.
Proof.
  intros H s [Hs He]. specialize (H s).
  destruct (m s) as [[a|e|r] s1]; [|congruence|destruct H].
  destruct H as (Ho & He' & Ha). repeat split; [congruence|congruence|assumption].
Qed.

(** The state once the cursor is open. *)
Definition opened : bstate :=
  {| open_cursors := 1; pg_calls := 0; mongo_calls := 0;
     engine_errors := 0; ticks := 0 |}.

(** The early returns: a request without JSON data or an unknown
    test type leaves no trace; a [deep_fetch] that finds no movie
    leaves the cursor open. *)
Definition rejected (r : response) (s : bstate) : Prop :=
  ((r = ErrorResponse 400 NoJsonData \/
    exists t, r = ErrorResponse 400 (UnknownTestType t)) /\ s = initial) \/
  ((r = ErrorResponse 400 NoMoviesPostgres \/
    r = ErrorResponse 400 NoMoviesMongo) /\ open_cursors s = 1%nat).

Definition tested (n : nat) (smp : samples) (s : bstate) : Prop :=
  open_cursors s = 1%nat /\ engine_errors s = 0%nat /\ measured n smp.

(** An exception ends the run either before any engine has failed,
    or with the cursor open. *)
Definition anyhow (e : exn) (s : bstate) : Prop :=
  engine_errors s = 0%nat \/ open_cursors s = 1%nat.

Ltac weaken :=
  try (intros; subst; cbv beta in *; unfold anyhow, tested in *;
       (reflexivity || tauto || (split; reflexivity))).

Lemma triple_quiet_test (n : nat) (m : B samples) :
  quiet m (measured n) ->
  triple (fun s => s = opened) m (tested n) anyhow rejected.
Proof.
  intros H. eapply triple_weaken; [apply (quiet_triple m (measured n) 1 rejected H)| | | |];
    weaken.
Qed.

Lemma effective_runs_bounds (data : list (string * json)) (runs : Z) :
  effective_runs data = inl runs -> 5 <= runs <= 200.
Proof.
  unfold effective_runs, clamp.
  destruct (int_of_json _); intros [= <-]. lia.
Qed.

Lemma calc_metrics_runs (w : nat) (l : list float) (c : nat) :
  l <> [] ->
  calc_metrics w l c = CalcRaised \/
  exists m, calc_metrics w l c = Metrics m /\ runs_f m = length l.
Proof.
  intros Hl. unfold calc_metrics. destruct l as [|x l]; [contradiction|].
  repeat match goal with
         | |- context [match ?x with Some _ => _ | None => _ end] =>
             destruct x; [|now left]
         end.
  right. eexists. split; reflexivity.
Qed.

(** A report carries, for each engine, the metrics of exactly the
    runs asked for. *)
Definition reports_runs (data : list (string * json)) (r : response) : Prop :=
  exists rep runs mp mm,
    r = Report rep /\ effective_runs data = inl runs /\
    rep_postgres rep = Some mp /\ rep_mongodb rep = Some mm /\
    runs_f mp = Z.to_nat runs /\ runs_f mm = Z.to_nat runs.

Definition finished (request : body) (r : response) (s : bstate) : Prop :=
  open_cursors s = 0%nat /\ engine_errors s = 0%nat /\
  exists data, request = Object data /\ reports_runs data r.

Lemma body_spec (request : body) :
  triple (fun s => s = initial) (benchmark_body E request)
         (finished request) anyhow rejected.
Proof.
  unfold benchmark_body.
  destruct request as [data|v].
  2:{ intros s ->. destruct (truthy v); cbn; [now left|].
      left. split; [now left|reflexivity]. }
  destruct data as [|kv data'].
  { intros s ->. cbn. left. split; [now left|reflexivity]. }
  set (data := kv :: data').
  apply triple_lift_bind; [intros year_from _|intros; subst; now left].
  apply triple_lift_bind; [intros year_to _|intros; subst; now left].
  apply triple_lift_bind; [intros runs Hruns|intros; subst; now left].
  apply triple_lift_bind; [intros limit _|intros; subst; now left].
  apply triple_lift_bind; [intros t _|intros; subst; now left].
  apply triple_lift_bind; [intros g _|intros; subst; now left].
  apply triple_lift_bind; [intros a _|intros; subst; now left].
  pose proof (effective_runs_bounds data runs Hruns) as Hb.
  apply (triple_bind _ _ _ (fun _ s => s = opened));
    [intros s ->; reflexivity|intros _].
  apply (triple_bind _ _ _ (tested (Z.to_nat runs))).
  - (* the tests *)
    repeat match goal with
           | |- triple _ (if test_is ?t ?n then _ else _) _ _ _ =>
               destruct (test_is t n)
           end.
    + apply triple_quiet_test, quiet_list_test. now apply quiet_ret.
    + apply triple_quiet_test, quiet_list_test. now apply quiet_ret.
    + apply triple_quiet_test, quiet_list_test. now apply quiet_ret.
    + apply triple_quiet_test, quiet_list_test.
      eapply quiet_bind; [apply quiet_sample|]. intros sample _.
      now apply quiet_ret.
    + apply triple_quiet_test.
      eapply quiet_bind; [apply quiet_repeat, (quiet_discard _ any), quiet_pg|].
      intros _ _.
      eapply quiet_bind; [apply quiet_measure, quiet_count_rows, quiet_pg|].
      intros pgm Hpg.
      eapply quiet_bind; [apply quiet_repeat, (quiet_discard _ any), quiet_mongo|].
      intros _ _.
      eapply quiet_bind; [apply quiet_measure, quiet_count_rows, quiet_mongo|].
      intros mgm Hmg.
      apply quiet_ret. split; cbn; assumption.
    + (* deep_fetch *)
      apply (triple_bind _ _ _
               (fun _ s => open_cursors s = 1%nat /\ engine_errors s = 0%nat)).
      * destruct (truthy (dict_get data "movie_id" JNull)).
        { intros s ->. cbn. split; reflexivity. }
        apply (triple_bind _ _ _
                 (fun _ s => open_cursors s = 1%nat /\ engine_errors s = 0%nat)).
        { eapply triple_weaken;
            [apply (quiet_triple _ any 1 rejected), quiet_pg| | | |];
            weaken. }
        intros [|first rows].
        { intros s [Hs _]. cbn. right. split; [now left|exact Hs]. }
        apply (triple_bind _ _ _
                 (fun _ s => open_cursors s = 1%nat /\ engine_errors s = 0%nat)).
        { eapply triple_weaken;
            [apply (quiet_triple _ any 1 rejected), quiet_mongo| | | |];
            weaken. }
        intros [|d ds]; intros s Hs; cbn.
        { right. split; [now right|exact (proj1 Hs)]. }
        exact Hs.
      * intros resolved.
        eapply triple_weaken;
          [apply (quiet_triple _ (measured (Z.to_nat runs)) 1 rejected)| | | |];
          weaken.
        eapply quiet_bind; [apply quiet_lift|]. intros id _.
        eapply quiet_bind; [apply quiet_repeat, (quiet_discard _ any), quiet_pg|].
        intros _ _.
        eapply quiet_bind; [apply quiet_measure, quiet_count_one, quiet_pg|].
        intros pgm Hpg.
        eapply quiet_bind; [apply quiet_repeat, (quiet_discard _ any), quiet_mongo|].
        intros _ _.
        eapply quiet_bind; [apply quiet_measure, quiet_count_one, quiet_mongo|].
        intros mgm Hmg.
        eapply quiet_bind; [apply quiet_explains|]. intros ex _.
        apply quiet_ret. split; cbn; assumption.
    + (* unknown test type *)
      intros s ->. cbn. left. split; [right; eauto|reflexivity].
  - (* closing and reporting *)
    intros smp s (Ho & He & L1 & L2). unfold bind, close_cursor.
    cbn [fst snd].
    assert (N1 : pg_latencies smp <> []).
    { intros C. rewrite C in L1. cbn in L1. lia. }
    assert (N2 : mongo_latencies smp <> []).
    { intros C. rewrite C in L2. cbn in L2. lia. }
    destruct (calc_metrics_runs warmup_runs _ (pg_result_count smp) N1)
      as [C1|(mp & C1 & R1)]; rewrite C1; cbn; [now left|].
    destruct (calc_metrics_runs warmup_runs _ (mongo_result_count smp) N2)
      as [C2|(mm & C2 & R2)]; rewrite C2; cbn; [now left|].
    split; [now rewrite Ho|]. split; [exact He|].
    exists data. split; [reflexivity|].
    eexists _, runs, mp, mm. cbn.
    repeat split; try reflexivity; [exact Hruns|congruence|congruence].
Qed.

(** The three ways a run ends. *)
Lemma run_spec (request : body) :
  let '(r, s) := benchmark_run E request in
  finished request r s \/ rejected r s \/
  (exists e, r = ErrorResponse 500 (Uncaught e) /\ anyhow e s).
Proof.
  unfold benchmark_run.
  pose proof (body_spec request initial eq_refl) as H.
  destruct (benchmark_body E request initial) as [[r|e|r] s]; eauto.
Qed.

Lemma finished_report request r s :
  finished request r s -> exists rep, r = Report rep.
Proof. intros (_ & _ & data & _ & rep & ? & ? & ? & -> & _). eauto. Qed.

Lemma rejected_400 r s :
  rejected r s -> exists b, r = ErrorResponse 400 b /\ forall e, b <> Uncaught e.
Proof.
  intros [[[->|[t ->]] _]|[[->| ->] _]]; eexists; split; try reflexivity;
    discriminate.
Qed.

(** X9: a request without JSON data and a request for an unknown test
    type are rejected without a trace: no engine has been called, no
    clock read, no cursor left open. *)
Theorem rejection_leaves_no_trace (request : body) :
  (fst (benchmark_run E request) = ErrorResponse 400 NoJsonData \/
   exists t, fst (benchmark_run E request)
             = ErrorResponse 400 (UnknownTestType t)) ->
  snd (benchmark_run E request) = initial.
Proof.
  pose proof (run_spec request) as H.
  destruct (benchmark_run E request) as [r s]. cbn [fst snd]. intros Hr.
  destruct H as [H|[H|(e & -> & _)]].
  - apply finished_report in H as [rep ->].
    destruct Hr as [Hr|[t Hr]]; discriminate.
  - destruct H as [[_ H]|[[->| ->] _]]; [exact H| |];
      destruct Hr as [Hr|[t Hr]]; discriminate.
  - destruct Hr as [Hr|[t Hr]]; discriminate.
Qed.

(** X10: a report carries, for both engines, the metrics of exactly the
    number of runs asked for, clamped to 5..200: the warm-up calls
    are not among the measurements.  The run that produced it has
    seen no engine error and has closed its cursor. *)
Theorem report_measures_the_runs_asked (request : body) (rep : report) :
  fst (benchmark_run E request) = Report rep ->
  (exists data runs mp mm,
     request = Object data /\ effective_runs data = inl runs /\
     5 <= runs <= 200 /\
     rep_postgres rep = Some mp /\ rep_mongodb rep = Some mm /\
     runs_f mp = Z.to_nat runs /\ runs_f mm = Z.to_nat runs) /\
  engine_errors (snd (benchmark_run E request)) = 0%nat /\
  open_cursors (snd (benchmark_run E request)) = 0%nat.
Proof.
  pose proof (run_spec request) as H.
  destruct (benchmark_run E request) as [r s]. cbn [fst snd]. intros ->.
  destruct H as [H|[H|(e & H & _)]].
  - destruct H as (Ho & He & data & -> & rep' & runs & mp & mm & Hr & Hruns & H).
    injection Hr as <-. split; [|now split].
    exists data, runs, mp, mm.
    pose proof (effective_runs_bounds data runs Hruns). tauto.
  - apply rejected_400 in H as (b & H & _). discriminate.
  - discriminate.
Qed.

(** X11: the cursor is left open whenever an engine call has failed, and
    whenever a [deep_fetch] run finds no movie to fetch. *)
Theorem failed_run_leaves_cursor_open (request : body) :
  ((0 < engine_errors (snd (benchmark_run E request)))%nat \/
   fst (benchmark_run E request) = ErrorResponse 400 NoMoviesPostgres \/
   fst (benchmark_run E request) = ErrorResponse 400 NoMoviesMongo) ->
  open_cursors (snd (benchmark_run E request)) = 1%nat.
Proof.
  pose proof (run_spec request) as H.
  destruct (benchmark_run E request) as [r s]. cbn [fst snd]. intros Hr.
  destruct H as [H|[H|(e & -> & H)]].
  - pose proof (finished_report _ _ _ H) as [rep ->].
    destruct H as (_ & He & _).
    destruct Hr as [Hr|[Hr|Hr]]; [lia|discriminate|discriminate].
  - destruct H as [[H ->]|[_ H]]; [|exact H].
    destruct Hr as [Hr|[Hr|Hr]]; [cbn in Hr; lia| |];
      destruct H as [->|[t ->]]; discriminate.
  - destruct Hr as [Hr|[Hr|Hr]]; [|discriminate|discriminate].
    destruct H as [H|H]; [lia|exact H].
Qed.

Definition numeric_fields : list (string * json) :=
  [("year_from", JInt 1990); ("year_to", JInt 2000);
   ("runs", JInt 50); ("limit", JInt 50)].

(** A value whose text, if it is one, is ASCII. *)
Definition ascii_value (v : json) : bool :=
  match v with
  | JStr t => is_ascii t
  | _ => true
  end.

(** X12: with numeric fields that are numbers, other values or ASCII
    text, a numeric field that [int] refuses ends the run before the
    cursor is opened and before any engine is called: the response is
    the error of status 500 and the state is untouched. *)
Theorem invalid_number_stops_before_engines (data : list (string * json)) :
  data <> [] ->
  forallb (fun field => ascii_value (dict_get data (fst field) (snd field)))
          numeric_fields = true ->
  (exists key default e,
      In (key, default) numeric_fields /\
      int_of_json (dict_get data key default) = inr e) ->
  exists e, benchmark_run E (Object data)
            = (ErrorResponse 500 (Uncaught e), initial).
Proof.
  intros Hne _ (key & default & e & Hin & Hbad).
  unfold benchmark_run, benchmark_body.
  destruct data as [|kv data']; [contradiction|].
  set (data := kv :: data') in *.
  unfold effective_runs, effective_limit.
  destruct (int_of_json (dict_get data "year_from" (JInt 1990))) as [yf|e1] eqn:E1;
    [|eexists; reflexivity].
  destruct (int_of_json (dict_get data "year_to" (JInt 2000))) as [yt|e2] eqn:E2;
    [|eexists; reflexivity].
  destruct (int_of_json (dict_get data "runs" (JInt 50))) as [rn|e3] eqn:E3;
    [|eexists; reflexivity].
  destruct (int_of_json (dict_get data "limit" (JInt 50))) as [lm|e4] eqn:E4;
    [|eexists; reflexivity].
  exfalso. unfold numeric_fields in Hin.
  destruct Hin as [H|[H|[H|[H|[]]]]]; injection H as <- <-; congruence.
Qed.

End Quiet.

(** A request whose [runs] field is not a number. *)
Definition bad_runs_request : list (string * json) :=
  [("test_type", JStr "title"); ("runs", JStr "many")].

Lemma rejection_leaves_no_trace_witness :
  snd (benchmark_run healthy (Object [("test_type", JStr "bogus")])) = initial.
Proof.
  apply rejection_leaves_no_trace. right. eexists. vm_compute. reflexivity.
Defined.

Lemma report_measures_the_runs_asked_witness :
  exists rep mp mm,
    fst (benchmark_run healthy title_request) = Report rep /\
    rep_postgres rep = Some mp /\ rep_mongodb rep = Some mm /\
    runs_f mp = 5%nat /\ runs_f mm = 5%nat.
Proof.
  assert (H : exists rep, fst (benchmark_run healthy title_request) = Report rep)
    by (eexists; vm_compute; reflexivity).
  destruct H as [rep H].
  destruct (report_measures_the_runs_asked healthy title_request rep H)
    as ((data & runs & mp & mm & Hd & Hr & _ & Hp & Hm & Rp & Rm) & _).
  injection Hd as <-. vm_compute in Hr. injection Hr as <-.
  exists rep, mp, mm. repeat split; assumption.
Defined.

Lemma failed_run_leaves_cursor_open_witness :
  open_cursors (snd (benchmark_run mongo_fails_midrun title_request)) = 1%nat /\
  open_cursors (snd (benchmark_run no_movies deep_fetch_request)) = 1%nat.
Proof.
  split; apply failed_run_leaves_cursor_open.
  - left. vm_compute. lia.
  - right. left. vm_compute. reflexivity.
Defined.

Lemma invalid_number_stops_before_engines_witness :
  exists e, benchmark_run healthy (Object bad_runs_request)
            = (ErrorResponse 500 (Uncaught e), initial).
Proof.
  apply invalid_number_stops_before_engines; [discriminate|reflexivity|].
  exists "runs", (JInt 50), ValueError. split; [cbn; tauto|reflexivity].
Defined.

End HarnessFacts.

(* ================================================================== *)
(** * Further properties of the interactive search handlers *)
(* ================================================================== *)

Module HandlerFacts.
Import Py Catalog Web.
Open Scope string_scope.
Open Scope list_scope.

Definition is_opened (e : event) : bool :=
  match e with CursorOpened => true | _ => false end.

Definition is_closed (e : event) : bool :=
  match e with CursorClosed => true | _ => false end.

Definition is_mongo_search (e : event) : bool :=
  match e with SearchedMongo _ _ _ _ _ _ => true | _ => false end.

(** The sort mode a search was run with. *)
Definition searched_with (e : event) : option string :=
  match e with
  | SearchedPostgres _ _ _ _ s _ | SearchedMongo _ _ _ _ s _ => Some s
  | _ => None
  end.

Definition known_sort (s : string) : Prop := s = "popularity" \/ s = "rating".

(** The engine the handler turns to. *)
Definition fault_of (use_mongo : bool) (w : world) : option string :=
  if use_mongo then w_mongo_fault w else w_pg_fault w.

Section Handlers.
Variable ilike : string -> string -> bool.
Variable regex_i : string -> string -> bool.

Lemma sanitised (s : string) :
  known_sort (if (s =? "popularity") || (s =? "rating") then s else "popularity").
Proof.
  destruct (String.eqb_spec s "popularity") as [->|_]; [now left|].
  destruct (String.eqb_spec s "rating") as [->|_]; [now right|now left].
Qed.

Ltac run_handler args :=
  unfold combined_search, user_advanced_search, search_handler;
  destruct args as [|kv args'];
  [|set (args0 := kv :: args') in *;
    destruct (year_int (strip (args_get args0 "year_start" ""))) as [ys'|e1];
    [destruct (year_int (strip (args_get args0 "year_end" ""))) as [ye'|e2]|]].

(** X13: when the year fields are valid, an engine that fails does not
    make the handler fail: the page is rendered without movies, with
    the error on it, and the error is flashed. *)
Theorem search_failure_is_rendered
        (db_type : string) (w : world) (args : list (string * string))
        (ys ye : option Z) :
  args <> [] ->
  year_int (strip (args_get args "year_start" "")) = inl ys ->
  year_int (strip (args_get args "year_end" "")) = inl ye ->
  exists p,
    fst (combined_search ilike regex_i db_type w args) = Rendered p /\
    p_search_performed p = true /\
    match fault_of (db_type =? "mongodb") w with
    | Some msg =>
        p_movies p = [] /\ p_error p = Some (EngineError msg) /\
        In (Flashed (EngineError msg))
           (snd (combined_search ilike regex_i db_type w args))
    | None => p_error p = None
    end.
Proof.
  intros Hne Hs He. unfold combined_search, search_handler.
  destruct args as [|kv args']; [contradiction|].
  rewrite Hs, He. unfold fault_of.
  destruct (db_type =? "mongodb"); unfold mongo_block, postgres_block.
  - destruct (w_mongo_fault w) as [msg|]; eexists; cbn;
      repeat split; auto.
  - destruct (w_pg_fault w) as [msg|]; eexists; cbn;
      repeat split; auto.
Qed.

(** X14: both handlers close the cursor they open for the search, on
    every path, the failing ones included; with the document store
    selected [combined_search] opens none for it, and the user view
    never sends its search to the document store. *)
Theorem search_handlers_close_their_cursor
        (db_type : string) (w : world) (args : list (string * string)) :
  let evs := snd (combined_search ilike regex_i db_type w args) in
  let uevs := snd (user_advanced_search ilike regex_i w args) in
  length (filter is_opened evs) = length (filter is_closed evs) /\
  length (filter is_opened uevs) = length (filter is_closed uevs) /\
  (db_type = "mongodb" -> filter is_opened evs = []) /\
  filter is_mongo_search uevs = [].
Proof.
  cbn zeta.
  assert (G : forall use_mongo,
             let evs := snd (search_handler ilike regex_i use_mongo w args) in
             length (filter is_opened evs) = length (filter is_closed evs) /\
             (use_mongo = true -> filter is_opened evs = []) /\
             (use_mongo = false -> filter is_mongo_search evs = [])).
  { intros use_mongo. cbn zeta. unfold search_handler.
    destruct args as [|kv args']; [repeat split|].
    set (args0 := kv :: args').
    destruct (year_int (strip (args_get args0 "year_start" ""))) as [ys'|e1];
      [|repeat split].
    destruct (year_int (strip (args_get args0 "year_end" ""))) as [ye'|e2];
      [|repeat split].
    destruct use_mongo; unfold mongo_block, postgres_block;
      [destruct (w_mongo_fault w)|destruct (w_pg_fault w)];
      repeat split; intros; try reflexivity; discriminate. }
  unfold combined_search, user_advanced_search.
  split; [apply G|]. split; [apply G|]. split.
  - intros ->. now apply (G true).
  - now apply (G false).
Qed.

(** X15: whatever [sort_by] the request carries, the page shows, and the
    search has been run with, one of the two known sort modes. *)
Theorem sort_mode_is_sanitised
        (db_type : string) (w : world) (args : list (string * string)) :
  (forall p, fst (combined_search ilike regex_i db_type w args) = Rendered p ->
             known_sort (p_sort_by p)) /\
  (forall e s, In e (snd (combined_search ilike regex_i db_type w args)) ->
               searched_with e = Some s -> known_sort s).
Proof.
  split.
  - intros p. run_handler args; cbn [fst].
    + intros [= <-]. cbn. now left.
    + destruct (db_type =? "mongodb"); unfold mongo_block, postgres_block;
        [destruct (w_mongo_fault w)|destruct (w_pg_fault w)]; cbn [fst];
        intros [= <-]; cbn [p_sort_by]; apply sanitised.
    + discriminate.
    + discriminate.
  - intros e s. run_handler args; cbn [snd]; try (intros []).
    destruct (db_type =? "mongodb"); unfold mongo_block, postgres_block;
      [destruct (w_mongo_fault w)|destruct (w_pg_fault w)]; cbn [snd app];
      intros Hin; repeat (destruct Hin as [<-|Hin]); try destruct Hin;
      cbn; try discriminate; intros [= <-]; apply sanitised.
Qed.

End Handlers.

Lemma search_failure_is_rendered_witness :
  exists p,
    fst (combined_search TextOps.ilike TextOps.literal_regex_i "postgres"
           {| w_pg := Sample.pg; w_mongo := Sample.mongo;
              w_pg_fault := Some "server closed the connection";
              w_mongo_fault := None |}
           [("title", "toy")]) = Rendered p /\
    p_movies p = [] /\
    p_error p = Some (EngineError "server closed the connection").
Proof.
  destruct (search_failure_is_rendered TextOps.ilike TextOps.literal_regex_i
              "postgres"
              {| w_pg := Sample.pg; w_mongo := Sample.mongo;
                 w_pg_fault := Some "server closed the connection";
                 w_mongo_fault := None |}
              [("title", "toy")] None None)
    as (p & Hp & _ & H); [discriminate|reflexivity|reflexivity|].
  exists p. cbn in H. tauto.
Defined.

Lemma sort_mode_is_sanitised_witness :
  exists p,
    fst (combined_search TextOps.ilike TextOps.literal_regex_i "postgres"
           Sample.world [("sort_by", "title")]) = Rendered p /\
    known_sort (p_sort_by p).
Proof.
  assert (H : exists p,
             fst (combined_search TextOps.ilike TextOps.literal_regex_i
                    "postgres" Sample.world [("sort_by", "title")])
             = Rendered p) by (eexists; reflexivity).
  destruct H as [p H]. exists p. split; [exact H|].
  exact (proj1 (sort_mode_is_sanitised TextOps.ilike TextOps.literal_regex_i
                  "postgres" Sample.world [("sort_by", "title")]) p H).
Defined.

Lemma search_handlers_close_their_cursor_witness :
  filter is_opened
         (snd (combined_search TextOps.ilike TextOps.literal_regex_i "mongodb"
                 Sample.world [("title", "toy")])) = [].
Proof.
  apply (proj1 (proj2 (proj2 (search_handlers_close_their_cursor
                                TextOps.ilike TextOps.literal_regex_i "mongodb"
                                Sample.world [("title", "toy")])))).
  reflexivity.
Defined.

End HandlerFacts.

(* ================================================================== *)
(** * Properties of the database selector *)
(* ================================================================== *)

Module SessionFacts.
Import Session.
Open Scope string_scope.

Ltac names :=
  repeat match goal with
         | |- context [String.eqb ?a ?b] =>
             destruct (String.eqb_spec a b); subst; cbn in *
         | H : context [String.eqb ?a ?b] |- _ =>
             destruct (String.eqb_spec a b); subst; cbn in *
         end.

(** X16: [switch_database] leaves in the session one of the two canonical
    names, or leaves the session as it was: it accepts, whatever the
    case of the letters, the four names it knows, and stores
    [postgres] for the two relational ones and [mongodb] for the two
    others. *)
Theorem switch_database_normalises
        (DB_TYPE : option string) (form_db_type : option string) (s : session) :
  let asked := lower (match form_db_type with
                      | Some v => v
                      | None => DEFAULT_DB_TYPE DB_TYPE
                      end) in
  let s' := fst (switch_database DB_TYPE form_db_type s) in
  (among asked ["postgres"; "postgresql"] = true /\ s' = Some "postgres") \/
  (among asked ["mongodb"; "mongo"] = true /\ s' = Some "mongodb") \/
  (among asked ["postgres"; "postgresql"; "mongodb"; "mongo"] = false /\
   s' = s /\
   snd (switch_database DB_TYPE form_db_type s)
   = Flash "Invalid database type" "danger").
Proof.
  cbn zeta. unfold switch_database.
  set (asked := lower _). unfold among. cbn [existsb].
  names; auto 10; try congruence.
Qed.

(** X17: once a switch has been accepted, everything that reads the
    session agrees on the engine: the display name, the test of the
    admin pages, the test of the combined search, and the message
    flashed. *)
Theorem readers_agree_after_switch
        (DB_TYPE : option string) (form_db_type : option string) (s : session)
        (v : string) :
  fst (switch_database DB_TYPE form_db_type s) = Some v ->
  (exists m, snd (switch_database DB_TYPE form_db_type s) = Flash m "info") ->
  is_using_mongodb DB_TYPE (Some v) = search_uses_mongo DB_TYPE (Some v) /\
  get_db_display_name DB_TYPE (Some v)
  = (if is_using_mongodb DB_TYPE (Some v) then "MongoDB" else "PostgreSQL") /\
  snd (switch_database DB_TYPE form_db_type s)
  = Flash ("Successfully switched to " ++ get_db_display_name DB_TYPE (Some v)
           ++ "!") "info".
Proof.
  unfold switch_database.
  set (asked := lower _). unfold among. cbn [existsb].
  intros H [m Hm]. revert H Hm.
  names; intros H Hm; try discriminate Hm; try discriminate H;
    try (injection H as <-); repeat split; congruence.
Qed.

(** X18: without a switch the readers need not agree.  The admin pages and
    the combined search disagree exactly when the type in force is
    [mongo]; the display name says [MongoDB] while the admin pages
    use the relational store exactly when the type in force is none
    of the four known names. *)
Theorem readers_disagree_on_unnormalised_type
        (DB_TYPE : option string) (s : session) :
  (is_using_mongodb DB_TYPE s <> search_uses_mongo DB_TYPE s
   <-> session_db_type DB_TYPE s = "mongo") /\
  ((get_db_display_name DB_TYPE s = "MongoDB" /\
    is_using_mongodb DB_TYPE s = false)
   <-> among (session_db_type DB_TYPE s)
             ["postgres"; "postgresql"; "mongodb"; "mongo"] = false).
Proof.
  unfold is_using_mongodb, search_uses_mongo, get_db_display_name, among.
  cbn [existsb]. set (t := session_db_type DB_TYPE s).
  split; split; names; try tauto; try congruence; try discriminate;
    intros; try (split; congruence); try easy;
    try (destruct H; discriminate).
Qed.

Lemma readers_agree_after_switch_witness :
  is_using_mongodb None (Some "mongodb") = search_uses_mongo None (Some "mongodb") /\
  get_db_display_name None (Some "mongodb") = "MongoDB".
Proof.
  destruct (readers_agree_after_switch None (Some "MONGO") None "mongodb")
    as (H1 & H2 & _); [reflexivity|eexists; reflexivity|].
  split; [exact H1|exact H2].
Defined.

End SessionFacts.

(* ================================================================== *)
(** * Properties of the benchmark of the comparison API *)
(* ================================================================== *)

Module CompareBenchFacts.
Import Py PyFloat Stats CompareBench.
Open Scope string_scope.
Open Scope Z_scope.

Lemma test_is_exclusive (query_type : Bench.json) :
  Bench.test_is query_type "trending" = true ->
  Bench.test_is query_type "top_movies" = false.
Proof.
  destruct query_type; cbn; try discriminate.
  intros H. apply String.eqb_eq in H. now subst.
Qed.

Section Loop.
Variable E : env.

(** How a run of the loop has gone so far: [k] turns done from the
    state [s]. *)
Definition advanced (k : nat) (s s' : cstate) : Prop :=
  open_conns s' = open_conns s /\ sql_failures s' = sql_failures s /\
  sql_calls s' = (sql_calls s + k)%nat /\
  nosql_calls s' = (nosql_calls s + k)%nat.

(** The ways the loop breaks off: before any statement has failed and
    with no connection open, or on a failed statement, with the
    connection of that turn still open. *)
Definition broken (e : exn) (s' : cstate) : Prop :=
  (sql_failures s' = 0%nat /\ open_conns s' = 0%nat) \/
  (sql_failures s' = 1%nat /\ open_conns s' = 1%nat /\
   exists msg, e = EngineError msg).

Lemma iteration_spec (query_type : Bench.json) (p : params)
      (times : list float * list float) (s : cstate) :
  open_conns s = 0%nat -> sql_failures s = 0%nat ->
  match iteration E query_type p times s with
  | (inl times', s') =>
      if Bench.test_is query_type "top_movies"
      then advanced 1 s s' /\
           length (fst times') = S (length (fst times)) /\
           length (snd times') = S (length (snd times))
      else s' = s /\ times' = times
  | (inr e, s') =>
      Bench.test_is query_type "top_movies" = true /\ broken e s'
  end.
Proof.
  intros Ho Hf. unfold iteration, advanced, broken.
  destruct (Bench.test_is query_type "top_movies"); [|now cbn].
  destruct p as [members|]; [|cbn; auto].
  unfold bind, now, get_db_connection, run_sql, close_connection,
    get_top_viewed_movies, ret. cbn.
  destruct (connect E (connects s)); cbn; [|auto].
  destruct (execute E (sql_calls s) _); cbn;
    [|split; [reflexivity|right; rewrite Ho, Hf; eauto]].
  destruct (top_viewed E (nosql_calls s) _ _); cbn.
  - rewrite !length_app. cbn. repeat split; lia.
  - split; [reflexivity|left; rewrite Ho, Hf; auto].
Qed.

Lemma iterate_spec (n : nat) (query_type : Bench.json) (p : params) :
  forall (times : list float * list float) (s : cstate),
  open_conns s = 0%nat -> sql_failures s = 0%nat ->
  match iterate E n query_type p times s with
  | (inl times', s') =>
      if Bench.test_is query_type "top_movies"
      then advanced n s s' /\
           length (fst times') = (length (fst times) + n)%nat /\
           length (snd times') = (length (snd times) + n)%nat
      else s' = s /\ times' = times
  | (inr e, s') =>
      Bench.test_is query_type "top_movies" = true /\ broken e s'
  end.
Proof.
  induction n as [|n IH]; intros times s Ho Hf; cbn [iterate].
  - unfold ret, advanced. destruct (Bench.test_is _ _); repeat split; lia.
  - unfold bind. pose proof (iteration_spec query_type p times s Ho Hf) as H1.
    destruct (iteration E query_type p times s) as [[times1|e] s1]; [|exact H1].
    destruct (Bench.test_is query_type "top_movies") eqn:T.
    + destruct H1 as ((Ho1 & Hf1 & Hs1 & Hn1) & L1 & L2).
      specialize (IH times1 s1 ltac:(congruence) ltac:(congruence)).
      destruct (iterate E n query_type p times1 s1) as [[times2|e] s2];
        [|exact IH].
      destruct IH as ((Ho2 & Hf2 & Hs2 & Hn2) & L3 & L4).
      unfold advanced. repeat split; lia.
    + destruct H1 as [-> ->]. specialize (IH times s Ho Hf).
      destruct (iterate E n query_type p times s) as [[times2|e] s2];
        exact IH.
Qed.

Lemma statistics_nonempty (times : list float) (st : stats) :
  statistics times = inl st -> times <> [].
Proof. intros H ->. discriminate H. Qed.

(** X19: a benchmark of [trending], and one of [top_movies] with an
    iteration count that is not positive, measure nothing: no engine
    is called, and the statistics of the empty sample end the request
    with status 500. *)
Theorem benchmark_without_measurements_fails
        (data : list (string * Bench.json)) (prm : option params) (n : Z) :
  Bench.int_of_json (Bench.dict_get data "iterations" (Bench.JInt 10)) = inl n ->
  let query_type := Bench.dict_get data "query_type" (Bench.JStr "top_movies") in
  (Bench.test_is query_type "trending" = true \/
   (Bench.test_is query_type "top_movies" = true /\ n <= 0)) ->
  benchmark E (Payload data prm) = (Error500 ValueError, initial).
Proof.
  intros Hn query_type H. unfold benchmark, benchmark_body.
  fold query_type. rewrite Hn. unfold bind at 1. cbn [lift ret].
  destruct H as [H|[H Hle]].
  - rewrite H, orb_true_r. cbn [negb].
    pose proof (test_is_exclusive _ H) as T.
    unfold bind at 1.
    pose proof (iterate_spec (Z.to_nat (Z.min n 100)) query_type
                  (match prm with Some v => v | None => ParamsObject [] end)
                  ([], []) initial eq_refl eq_refl) as S.
    destruct (iterate E _ _ _ _ _) as [[times|e] s]; rewrite T in *.
    + destruct S as [-> ->]. reflexivity.
    + destruct S as [S _]. discriminate S.
  - rewrite H. cbn [orb negb].
    replace (Z.to_nat (Z.min n 100)) with 0%nat by lia. reflexivity.
Qed.

(** X20: a report is only made of measured runs: the iteration count it
    carries lies between 1 and 100, both engines have been called
    exactly that many times, no statement has failed and every
    connection opened has been closed. *)
Theorem benchmark_report_counts (request : payload) (r : report) :
  fst (benchmark E request) = Stats200 r ->
  let s := snd (benchmark E request) in
  1 <= rp_iterations r <= 100 /\
  sql_calls s = Z.to_nat (rp_iterations r) /\
  nosql_calls s = Z.to_nat (rp_iterations r) /\
  sql_failures s = 0%nat /\ open_conns s = 0%nat.
Proof.
  cbn zeta. destruct (benchmark E request) as [resp s] eqn:B.
  cbn [fst snd]. intros ->. revert B.
  unfold benchmark, benchmark_body.
  destruct request as [data prm|]; [|discriminate].
  set (query_type := Bench.dict_get data "query_type" (Bench.JStr "top_movies")).
  set (p := match prm with Some v => v | None => ParamsObject [] end).
  destruct (Bench.int_of_json _) as [n|e]; [|discriminate].
  unfold bind at 1. cbn [lift ret].
  destruct (negb _); [discriminate|].
  unfold bind at 1.
  pose proof (iterate_spec (Z.to_nat (Z.min n 100)) query_type p
                ([], []) initial eq_refl eq_refl) as S.
  destruct (iterate E _ _ _ _ _) as [[times|e] s1]; [|discriminate].
  unfold bind, lift.
  destruct (statistics (fst times)) as [st1|e1] eqn:S1; [|discriminate].
  destruct (statistics (snd times)) as [st2|e2] eqn:S2; [|discriminate].
  cbn. intros [= <- <-]. cbn [rp_iterations].
  apply statistics_nonempty in S1.
  destruct (Bench.test_is query_type "top_movies").
  - destruct S as ((Ho & Hf & Hs & Hn) & L1 & L2).
    change (open_conns initial) with 0%nat in Ho.
    change (sql_failures initial) with 0%nat in Hf.
    change (sql_calls initial) with 0%nat in Hs.
    change (nosql_calls initial) with 0%nat in Hn.
    cbn [fst snd length] in *.
    assert (Z.to_nat (Z.min n 100) <> 0%nat).
    { intros C. rewrite C in L1. destruct (fst times); [now apply S1|].
      discriminate L1. }
    repeat split; lia.
  - destruct S as [_ ->]. now contradiction S1.
Qed.

(** X21: a statement that fails ends the request with status 500 and
    leaves the connection of that turn open. *)
Theorem failed_statement_leaves_connection_open (request : payload) :
  (0 < sql_failures (snd (benchmark E request)))%nat ->
  open_conns (snd (benchmark E request)) = 1%nat /\
  exists msg, fst (benchmark E request) = Error500 (EngineError msg).
Proof.
  destruct (benchmark E request) as [resp s] eqn:B.
  cbn [fst snd]. revert B.
  unfold benchmark, benchmark_body.
  destruct request as [data prm|];
    [|cbn; intros B; injection B as <- <-; cbn; lia].
  set (query_type := Bench.dict_get data "query_type" (Bench.JStr "top_movies")).
  set (p := match prm with Some v => v | None => ParamsObject [] end).
  destruct (Bench.int_of_json _) as [n|e];
    [|cbn; intros B; injection B as <- <-; cbn; lia].
  unfold bind at 1. cbn [lift ret].
  destruct (negb _); [cbn; intros B; injection B as <- <-; cbn; lia|].
  unfold bind at 1.
  pose proof (iterate_spec (Z.to_nat (Z.min n 100)) query_type p
                ([], []) initial eq_refl eq_refl) as S.
  destruct (iterate E _ _ _ _ _) as [[times|e] s1].
  - assert (Hf : sql_failures s1 = 0%nat).
    { destruct (Bench.test_is query_type "top_movies").
      - destruct S as ((_ & Hf & _) & _). exact Hf.
      - destruct S as [-> _]. reflexivity. }
    unfold bind, lift.
    destruct (statistics (fst times));
      [|cbn; intros B; injection B as <- <-; lia].
    destruct (statistics (snd times)); cbn; intros B; injection B as <- <-; lia.
  - intros B Hf. injection B as <- <-.
    destruct S as [_ [[S _]|(_ & Ho & msg & ->)]]; [lia|eauto].
Qed.

End Loop.

(** ** The percentiles of at most 100 samples *)

Definition percentile_ok (n : Z) : bool :=
  match percentile_index (Z.to_nat n) 50, percentile_index (Z.to_nat n) 95,
        percentile_index (Z.to_nat n) 99 with
  | Some a, Some b, Some c =>
      (a =? n / 2) && (b =? 95 * n / 100) && (c =? n - 1)
  | _, _, _ => false
  end.

Lemma percentiles_checked :
  Range.all_from percentile_ok (Z.to_nat (100 - 1 + 1)) 1 = true.
Proof. vm_compute. reflexivity. Qed.

Lemma sorted_size (l : list float) : length (sorted l) = length l.
Proof.
  assert (I : forall x r, length (insert x r) = S (length r)).
  { intros x r. induction r as [|y r IH]; cbn; [reflexivity|].
    destruct (ltb y x); cbn; now rewrite ?IH. }
  induction l as [|x r IH]; cbn; [reflexivity|]. now rewrite I, IH.
Qed.

(** X22: on the samples of a report, which are at most 100,
    [calculate_percentile] never needs its guard [min(index, len - 1)]:
    it returns the sample at index [floor(n * p / 100)] of the sorted
    list, and for [p = 99] that is always the last, the largest one. *)
Theorem percentiles_of_a_report (times : list float) :
  let n := length times in
  (1 <= n <= 100)%nat ->
  calculate_percentile times 50 = nth_error (sorted times) (n / 2) /\
  calculate_percentile times 95 = nth_error (sorted times) (95 * n / 100) /\
  calculate_percentile times 99 = nth_error (sorted times) (n - 1) /\
  calculate_percentile times 99 <> None.
Proof.
  intros n Hn. unfold calculate_percentile. rewrite sorted_size. fold n.
  pose proof (Range.all_in_range percentile_ok 1 100 percentiles_checked
                (Z.of_nat n) ltac:(lia)) as C.
  unfold percentile_ok in C. rewrite Nat2Z.id in C.
  destruct (percentile_index n 50) as [a|]; [|discriminate].
  destruct (percentile_index n 95) as [b|]; [|discriminate].
  destruct (percentile_index n 99) as [c|]; [|discriminate].
  apply andb_true_iff in C as [C C3]. apply andb_true_iff in C as [C1 C2].
  apply Z.eqb_eq in C1, C2, C3. subst a b c.
  assert (D2 : Z.of_nat n / 2 = Z.of_nat (n / 2))
    by (now rewrite Nat2Z.inj_div).
  assert (D95 : 95 * Z.of_nat n / 100 = Z.of_nat (95 * n / 100))
    by (rewrite Nat2Z.inj_div, Nat2Z.inj_mul; reflexivity).
  assert (B2 : (n / 2 < n)%nat) by (apply Nat.Div0.div_lt_upper_bound; lia).
  assert (B95 : (95 * n / 100 < n)%nat)
    by (apply Nat.Div0.div_lt_upper_bound; lia).
  unfold py_index. rewrite sorted_size. fold n.
  rewrite !Z.min_l by lia.
  repeat split.
  - destruct (Z.ltb_spec (Z.of_nat n / 2) 0); [lia|].
    now rewrite D2, Nat2Z.id.
  - destruct (Z.ltb_spec (95 * Z.of_nat n / 100) 0); [lia|].
    now rewrite D95, Nat2Z.id.
  - destruct (Z.ltb_spec (Z.of_nat n - 1) 0); [lia|].
    f_equal. lia.
  - destruct (Z.ltb_spec (Z.of_nat n - 1) 0); [lia|].
    intros C. apply nth_error_None in C. rewrite sorted_size in C.
    fold n in C. lia.
Qed.

(** Engines that answer every call, and a relational engine whose
    third statement fails. *)
Definition steady : env :=
  {| connect := fun _ => inl tt;
     execute := fun _ _ => inl tt;
     top_viewed := fun _ _ _ => inl tt;
     clock := fun k => of_Z (Z.of_nat (k * k)) |}.

Definition third_statement_fails : env :=
  {| connect := fun _ => inl tt;
     execute := fun k _ => if (k =? 2)%nat then inr "deadlock detected"
                           else inl tt;
     top_viewed := fun _ _ _ => inl tt;
     clock := fun k => of_Z (Z.of_nat (k * k)) |}.

Definition seven_runs : payload :=
  Payload [("query_type", Bench.JStr "top_movies"); ("iterations", Bench.JInt 7)]
          None.

Definition trending_request : list (string * Bench.json) :=
  [("query_type", Bench.JStr "trending"); ("iterations", Bench.JInt 7)].

Lemma benchmark_without_measurements_fails_witness :
  benchmark steady (Payload trending_request None)
  = (Error500 ValueError, initial).
Proof.
  apply (benchmark_without_measurements_fails steady trending_request None 7).
  - reflexivity.
  - left. reflexivity.
Defined.

Lemma benchmark_report_counts_witness :
  exists r, fst (benchmark steady seven_runs) = Stats200 r /\
            rp_iterations r = 7 /\
            sql_calls (snd (benchmark steady seven_runs)) = 7%nat /\
            nosql_calls (snd (benchmark steady seven_runs)) = 7%nat.
Proof.
  assert (H : exists r, fst (benchmark steady seven_runs) = Stats200 r)
    by (eexists; vm_compute; reflexivity).
  destruct H as [r H]. exists r.
  destruct (benchmark_report_counts steady seven_runs r H)
    as (_ & Hs & Hn & _).
  assert (R : rp_iterations r = 7).
  { revert H. vm_compute. intros [= <-]. reflexivity. }
  rewrite R in Hs, Hn. repeat split; assumption.
Defined.

Lemma failed_statement_leaves_connection_open_witness :
  open_conns (snd (benchmark third_statement_fails seven_runs)) = 1%nat /\
  exists msg, fst (benchmark third_statement_fails seven_runs)
              = Error500 (EngineError msg).
Proof.
  apply failed_statement_leaves_connection_open. vm_compute. lia.
Defined.

Definition three_samples : list float := map of_Z [30; 10; 20].

Lemma percentiles_of_a_report_witness :
  calculate_percentile three_samples 50 = Some (of_Z 20) /\
  calculate_percentile three_samples 99 = Some (of_Z 30).
Proof.
  destruct (percentiles_of_a_report three_samples) as (H50 & _ & H99 & _);
    [cbn; lia|].
  rewrite H50, H99. split; reflexivity.
Defined.

End CompareBenchFacts.

(* ================================================================== *)
(** * Properties of the ratings browser *)
(* ================================================================== *)

Module UserRatingsFacts.
Import Py UserRatings.
Open Scope string_scope.
Open Scope list_scope.

Lemma build_both (args : list (string * string)) (m u : Z) :
  let movie_id_search := strip (Web.args_get args "movie_id" "") in
  let user_id_search := strip (Web.args_get args "user_id" "") in
  int_of_string movie_id_search = Some m ->
  int_of_string user_id_search = Some u ->
  exists f, build args = inl (f, [m; u]) /\
            placeholders f = [JoinUserId; WhereMovieId].
Proof.
  cbn zeta. intros Hm Hu. unfold build, field_int.
  destruct (String.eqb_spec (strip (Web.args_get args "movie_id" "")) "") as [E|_].
  { rewrite E in Hm. discriminate Hm. }
  rewrite Hm.
  destruct (String.eqb_spec (strip (Web.args_get args "user_id" "")) "") as [E|_].
  { rewrite E in Hu. discriminate Hu. }
  rewrite Hu. eexists. split; reflexivity.
Qed.

Section Facts.
Variable run : engine.

(** X23: with both filters given, the statements are run with the filters
    crossed: the placeholder of the user identifier, which comes first
    in the text, receives the movie identifier, which comes first in
    the parameter list, and the placeholder of the movie identifier
    receives the user identifier.  (With a cursor at hand a statement
    is run; no statement is ever run otherwise.) *)
Theorem both_filters_are_bound_crosswise
        (args : list (string * string)) (m u : Z) :
  int_of_string (strip (Web.args_get args "movie_id" "")) = Some m ->
  int_of_string (strip (Web.args_get args "user_id" "")) = Some u ->
  (exists st binding,
      In (Executed st binding) (snd (user_ratings run GotCursor args))) /\
  forall get_db_cursor st binding,
    In (Executed st binding) (snd (user_ratings run get_db_cursor args)) ->
    binding = [(JoinUserId, m); (WhereMovieId, u)].
Proof.
  intros Hm Hu.
  destruct (build_both args m u Hm Hu) as (f & Hb & Hp).
  assert (H : (exists st binding,
                  In (Executed st binding) (snd (with_cursor run args))) /\
              forall st binding,
                In (Executed st binding) (snd (with_cursor run args)) ->
                binding = [(JoinUserId, m); (WhereMovieId, u)]).
  { unfold with_cursor. rewrite Hb. unfold bound. rewrite Hp. cbn [combine].
    destruct (run (MainQuery f) _) as [movies|msg];
      [destruct (run (CountQuery f) _) as [count|msg]|];
      (split; [do 2 eexists; right; left; reflexivity|]);
      intros st binding Hin; cbn in Hin;
      repeat (destruct Hin as [Hin|Hin]; [try discriminate Hin|]);
      try (injection Hin as <- <-; reflexivity); try destruct Hin. }
  destruct H as [H1 H2]. split; [exact H1|].
  intros [|msg] st binding Hin; [exact (H2 st binding Hin)|].
  cbn in Hin. destruct Hin as [Hin|[]]. discriminate Hin.
Qed.

(** X24: a cursor that was opened is closed, on every path, and when
    [get_db_cursor()] raises, no cursor is opened, rolled back or
    closed.  With a cursor at hand, a filter of ASCII text that is
    no integer is answered by a redirection without any statement
    having been run. *)
Theorem user_ratings_closes_its_cursor (args : list (string * string)) :
  (forall msg,
      user_ratings run (NoCursor msg) args
      = (Redirected, [Flashed (EngineError msg)])) /\
  (exists evs, snd (user_ratings run GotCursor args)
               = CursorOpened :: evs ++ [CursorClosed] /\
               ~ In CursorOpened evs /\ ~ In CursorClosed evs) /\
  (forall e,
      is_ascii (Web.args_get args "movie_id" "") = true ->
      is_ascii (Web.args_get args "user_id" "") = true ->
      build args = inr e ->
      user_ratings run GotCursor args
      = (Redirected, [CursorOpened; RolledBack; Flashed e; CursorClosed])).
Proof.
  split; [reflexivity|]. split.
  - unfold user_ratings, with_cursor.
    destruct (build args) as [[f params]|e];
      [destruct (run (MainQuery f) _) as [movies|msg];
       [destruct (run (CountQuery f) _) as [count|msg]|]|];
      cbn [snd];
      match goal with
      | |- exists evs, CursorOpened :: ?l = _ /\ _ =>
          exists (removelast l)
      end; cbn; (split; [reflexivity|]); split; intros H;
      repeat (destruct H as [H|H]; [discriminate H|]); destruct H.
  - intros e _ _ H. unfold user_ratings, with_cursor. now rewrite H.
Qed.

End Facts.

(** A request for the ratings of movie 862 by user 7. *)
Definition movie_and_user : list (string * string) :=
  [("movie_id", "862"); ("user_id", " 7 ")].

Definition no_rows : engine := fun _ _ => inl [].

Definition both_filters : fragments :=
  {| user_id_join := true; where_conditions := [WhereMovieId];
     having_conditions := [HasRatings]; order_by := Random |}.

Lemma both_filters_are_bound_crosswise_witness :
  In (Executed (MainQuery both_filters) (bound both_filters [862; 7]))
     (snd (user_ratings no_rows GotCursor movie_and_user)) /\
  bound both_filters [862; 7] = [(JoinUserId, 862); (WhereMovieId, 7)].
Proof.
  assert (H : In (Executed (MainQuery both_filters) (bound both_filters [862; 7]))
                 (snd (user_ratings no_rows GotCursor movie_and_user)))
    by (right; left; reflexivity).
  split; [exact H|].
  exact (proj2 (both_filters_are_bound_crosswise no_rows movie_and_user 862 7
                  eq_refl eq_refl) _ _ _ H).
Defined.

Lemma user_ratings_closes_its_cursor_witness :
  user_ratings no_rows GotCursor [("movie_id", "abc")]
  = (Redirected, [CursorOpened; RolledBack; Flashed ValueError; CursorClosed]).
Proof.
  apply (proj2 (proj2 (user_ratings_closes_its_cursor
                         no_rows [("movie_id", "abc")])));
    reflexivity.
Defined.

End UserRatingsFacts.

(* ================================================================== *)
(** * Properties of the administration functions *)
(* ================================================================== *)

Module AdminFacts.
Import Catalog Admin.
Open Scope string_scope.
Open Scope list_scope.

Lemma find_app_none {A} (p : A -> bool) (l l' : list A) :
  existsb p l = false -> find p (l ++ l') = find p l'.
Proof.
  induction l as [|x r IH]; cbn; [reflexivity|].
  destruct (p x); [discriminate|]. exact IH.
Qed.

Lemma find_app_other {A} (p : A -> bool) (l : list A) (x : A) :
  p x = false -> find p (l ++ [x]) = find p l.
Proof.
  intros H. induction l as [|y r IH]; cbn; [now rewrite H|].
  destruct (p y); [reflexivity|exact IH].
Qed.

(** X25: a genre that has been created can be read back under the
    identifier returned, with its name trimmed of the white space
    around it, ASCII or not; the other genres read as before, and no
    other table has changed. *)
Theorem created_genre_can_be_read
        (new_id : Z) (db db' : pg_db) (name : string) (id : Z) :
  admin_create_genre new_id db name = inl (Some id, db') ->
  admin_get_genre db' id
  = Some {| genre_id := id; genre_name := Py.strip name |} /\
  (forall id', id' <> id -> admin_get_genre db' id' = admin_get_genre db id') /\
  movie_genres db' = movie_genres db /\ movies db' = movies db /\
  ratings db' = ratings db.
Proof.
  unfold admin_create_genre.
  destruct ((name =? "") || (Py.strip name =? "")); [discriminate|].
  destruct (existsb (fun g => genre_name g =? Py.strip name) (genres db));
    [discriminate|].
  destruct (existsb (fun g => (genre_id g =? new_id)%Z) (genres db)) eqn:F;
    [discriminate|].
  intros [= <- <-]. unfold admin_get_genre. cbn [genres with_genres].
  repeat split.
  - rewrite find_app_none by exact F. cbn. now rewrite Z.eqb_refl.
  - intros id' Hne. apply find_app_other. cbn. now apply Z.eqb_neq.
Qed.

(** ** Unique identifiers and unique names *)

Definition keyed (db : pg_db) : Prop :=
  NoDup (map genre_id (genres db)) /\ NoDup (map genre_name (genres db)).

Lemma existsb_false_not_in {A B} (f : A -> B) (eqb : B -> B -> bool)
      (l : list A) (v : B) :
  (forall a b, eqb a b = true <-> a = b) ->
  existsb (fun x => eqb (f x) v) l = false -> ~ In v (map f l).
Proof.
  intros Heq H Hin. apply in_map_iff in Hin as (x & <- & Hx).
  assert (C : existsb (fun y => eqb (f y) (f x)) l = true).
  { apply existsb_exists. exists x. split; [exact Hx|now apply Heq]. }
  congruence.
Qed.

Lemma NoDup_snoc {A} (l : list A) (x : A) :
  NoDup l -> ~ In x l -> NoDup (l ++ [x]).
Proof.
  intros Hl Hx. apply NoDup_app; [exact Hl|repeat constructor; intros []|].
  intros y Hy [<-|[]]. now apply Hx.
Qed.

Lemma renamed_unique (id : Z) (clean : string) (l : list genre) :
  NoDup (map genre_id l) -> NoDup (map genre_name l) ->
  existsb (fun g => negb (genre_id g =? id)%Z && (genre_name g =? clean)) l
  = false ->
  let l' := map (fun g => if (genre_id g =? id)%Z
                          then {| genre_id := genre_id g; genre_name := clean |}
                          else g) l in
  map genre_id l' = map genre_id l /\ NoDup (map genre_name l').
Proof.
  cbn zeta. induction l as [|g r IH]; intros Hi Hn Hc; cbn;
    [split; [reflexivity|constructor]|].
  cbn in Hi, Hn, Hc. inversion Hi as [|? ? Hgi Hri]; subst.
  inversion Hn as [|? ? Hgn Hrn]; subst.
  apply orb_false_iff in Hc as [Hg Hc].
  destruct (IH Hri Hrn Hc) as [E1 E2]. split.
  - rewrite E1. destruct (genre_id g =? id)%Z; reflexivity.
  - constructor; [|exact E2].
    intros Hin. apply in_map_iff in Hin as (h' & En & Hin).
    apply in_map_iff in Hin as (h & <- & Hh).
    destruct (Z.eqb_spec (genre_id h) id) as [Eh|Nh];
      destruct (Z.eqb_spec (genre_id g) id) as [Eg|Ng]; cbn in *.
    + apply Hgi. apply in_map_iff. exists h. split; [congruence|exact Hh].
    + apply String.eqb_neq in Hg. congruence.
    + assert (C : existsb (fun g0 => negb (genre_id g0 =? id)%Z
                                     && (genre_name g0 =? clean)) r = true).
      { apply existsb_exists. exists h. split; [exact Hh|].
        apply andb_true_iff. split; [now apply negb_true_iff, Z.eqb_neq|].
        now apply String.eqb_eq. }
      congruence.
    + apply Hgn. apply in_map_iff. exists h. split; [exact En|exact Hh].
Qed.

(** X26: creating, renaming and deleting genres keep the identifiers and
    the names of the genres unique. *)
Theorem genre_keys_stay_unique (db db' : pg_db) (r : option Z) :
  keyed db ->
  ((exists new_id name, admin_create_genre new_id db name = inl (r, db')) \/
   (exists id name, admin_update_genre db id name = inl (r, db')) \/
   (exists id, admin_delete_genre db id = inl (r, db'))) ->
  keyed db'.
Proof.
  intros [Hi Hn] [(new_id & name & H)|[(id & name & H)|(id & H)]].
  - unfold admin_create_genre in H.
    destruct ((name =? "") || (Py.strip name =? "")); [discriminate|].
    destruct (existsb (fun g => genre_name g =? Py.strip name) (genres db))
      eqn:F1; [injection H as <- <-; now split|].
    destruct (existsb (fun g => (genre_id g =? new_id)%Z) (genres db)) eqn:F2;
      [discriminate|].
    injection H as <- <-. unfold keyed. cbn [genres with_genres].
    rewrite !map_app. cbn [map genre_id genre_name]. split.
    + apply NoDup_snoc; [exact Hi|].
      apply (existsb_false_not_in genre_id Z.eqb); [apply Z.eqb_eq|exact F2].
    + apply NoDup_snoc; [exact Hn|].
      apply (existsb_false_not_in genre_name String.eqb);
        [apply String.eqb_eq|exact F1].
  - unfold admin_update_genre in H.
    destruct ((name =? "") || (Py.strip name =? "")); [discriminate|].
    destruct (existsb (fun g => (genre_id g =? id)%Z) (genres db));
      [|injection H as <- <-; now split].
    destruct (existsb _ (genres db)) eqn:F; [discriminate|].
    injection H as <- <-. unfold keyed. cbn [genres with_genres].
    destruct (renamed_unique id (Py.strip name) (genres db) Hi Hn F) as [E1 E2].
    rewrite E1. now split.
  - unfold admin_delete_genre in H.
    destruct (0 <? _)%nat; [discriminate|].
    injection H as <- <-. unfold keyed. cbn [genres with_genres].
    split.
    + clear Hn. induction (genres db) as [|g l IH]; cbn; [constructor|].
      inversion Hi as [|? ? Hg Hl]; subst.
      destruct (negb (genre_id g =? id)%Z); cbn; [constructor|]; auto.
      intros Hin. apply Hg. apply in_map_iff in Hin as (h & E & Hh).
      apply filter_In in Hh as [Hh _]. apply in_map_iff. eauto.
    + clear Hi. induction (genres db) as [|g l IH]; cbn; [constructor|].
      inversion Hn as [|? ? Hg Hl]; subst.
      destruct (negb (genre_id g =? id)%Z); cbn; [constructor|]; auto.
      intros Hin. apply Hg. apply in_map_iff in Hin as (h & E & Hh).
      apply filter_In in Hh as [Hh _]. apply in_map_iff. eauto.
Qed.

(** ** Deleting a genre *)

(** Every genre a movie bears is in the table of genres. *)
Definition references_valid (db : pg_db) : Prop :=
  forall mg, In mg (movie_genres db) ->
             exists g, In g (genres db) /\ genre_id g = mg_genre_id mg.

Lemma unused_genre (db : pg_db) (id : Z) :
  (0 <? length (filter (fun mg => (mg_genre_id mg =? id)%Z) (movie_genres db)))%nat
  = false ->
  forall mg, In mg (movie_genres db) -> mg_genre_id mg <> id.
Proof.
  intros H mg Hin E.
  assert (C : In mg (filter (fun mg => (mg_genre_id mg =? id)%Z) (movie_genres db))).
  { apply filter_In. split; [exact Hin|now apply Z.eqb_eq]. }
  destruct (filter _ _); [destruct C|]. cbn in H. discriminate H.
Qed.

(** X27: a genre is deleted only when no movie bears it, so that the
    genres the movies bear all remain; afterwards the genre cannot be
    read any more, and the answer tells whether there was one. *)
Theorem deleting_a_genre_keeps_references_valid
        (db db' : pg_db) (id : Z) (r : option Z) :
  references_valid db ->
  admin_delete_genre db id = inl (r, db') ->
  references_valid db' /\
  admin_get_genre db' id = None /\
  (r = Some id <-> admin_get_genre db id <> None) /\
  (r = None <-> admin_get_genre db id = None).
Proof.
  intros Hv. unfold admin_delete_genre.
  destruct (0 <? _)%nat eqn:U; [discriminate|]. intros [= <- <-].
  pose proof (unused_genre db id U) as Hu.
  unfold admin_get_genre. cbn [genres with_genres].
  repeat split.
  - intros mg Hin. cbn [movie_genres with_genres] in Hin.
    destruct (Hv mg Hin) as (g & Hg & E). exists g. split; [|exact E].
    cbn [genres with_genres]. apply filter_In. split; [exact Hg|].
    apply negb_true_iff, Z.eqb_neq. rewrite E. now apply Hu.
  - induction (genres db) as [|g l IH]; cbn; [reflexivity|].
    destruct (Z.eqb_spec (genre_id g) id) as [E|N]; cbn; [exact IH|].
    destruct (Z.eqb_spec (genre_id g) id); [contradiction|exact IH].
  - induction (genres db) as [|g l IH]; cbn; [discriminate|].
    destruct (genre_id g =? id)%Z; cbn; [discriminate|exact IH].
  - induction (genres db) as [|g l IH]; cbn; [easy|].
    destruct (genre_id g =? id)%Z; cbn; [reflexivity|exact IH].
  - induction (genres db) as [|g l IH]; cbn; [reflexivity|].
    destruct (genre_id g =? id)%Z; cbn; [discriminate|exact IH].
  - induction (genres db) as [|g l IH]; cbn; [reflexivity|].
    destruct (genre_id g =? id)%Z; cbn; [discriminate|exact IH].
Qed.

(** ** Updating a rating *)

Definition in_range (db : pg_db) : Prop :=
  forall r, In r (ratings db) -> (0 <= r_rating r <= 10)%Q.

(** X28: [admin_update_rating] stores only ratings between 0 and 10: a
    table whose ratings lie in that range keeps them there (no
    rating, in particular, becomes negative), and the rating updated
    reads back with its new value. *)
Theorem updated_rating_stays_in_range
        (db db' : pg_db) (id : Z) (new_rating : Q) (r : option Z) :
  in_range db ->
  admin_update_rating db id new_rating = inl (r, db') ->
  in_range db' /\
  (0 <= new_rating <= 10)%Q /\
  (r = Some id ->
   exists x, admin_get_rating db' id = Some x /\ r_rating x = new_rating) /\
  (r = None -> db' = db).
Proof.
  intros Hr. unfold admin_update_rating.
  destruct (Qlt_le_dec new_rating 0) as [|H0]; [discriminate|].
  destruct (Qlt_le_dec 10 new_rating) as [|H10]; [discriminate|].
  intros [= <- <-]. repeat split; try assumption.
  - cbn [ratings with_ratings] in H.
    apply in_map_iff in H as (x & <- & Hx).
    destruct (rating_id x =? id)%Z; [exact H0|now apply Hr].
  - cbn [ratings with_ratings] in H.
    apply in_map_iff in H as (x & <- & Hx).
    destruct (rating_id x =? id)%Z; [exact H10|now apply Hr].
  - unfold admin_get_rating. cbn [ratings with_ratings].
    induction (ratings db) as [|x l IH]; cbn; [discriminate|].
    destruct (Z.eqb_spec (rating_id x) id) as [E|N]; cbn.
    + rewrite E, Z.eqb_refl. eexists. split; reflexivity.
    + destruct (Z.eqb_spec (rating_id x) id); [contradiction|]. exact IH.
  - intros H. destruct db as [ms rs gs mgs ps mcs]. unfold with_ratings. cbn in *.
    f_equal. induction rs as [|x l IH]; cbn in *; [reflexivity|].
    destruct (rating_id x =? id)%Z; cbn in *; [discriminate|].
    f_equal. apply IH; [|exact H]. intros y Hy. apply Hr. now right.
Qed.

(** ** Gender codes *)

(** X29: [validate_gender] yields one of the four codes and changes none of
    them; a code it replaces by "unknown" is one that
    [get_gender_display] shows as "Unknown", so that a gender displays
    the same before and after validation. *)
Theorem gender_display_agrees_with_validation (gender : option Z) :
  0 <= validate_gender gender <= 3 /\
  validate_gender (Some (validate_gender gender)) = validate_gender gender /\
  get_gender_display (Some (validate_gender gender)) = get_gender_display gender /\
  In (get_gender_display gender) ["Unknown"; "Female"; "Male"; "Non-binary"].
Proof.
  unfold validate_gender, get_gender_display, GENDER_MAP, GENDER_UNKNOWN,
    GENDER_FEMALE, GENDER_MALE, GENDER_NON_BINARY.
  destruct gender as [g|]; [|cbn; repeat split; try lia; auto].
  cbn [existsb find fst snd].
  rewrite (Z.eqb_sym 0 g), (Z.eqb_sym 1 g), (Z.eqb_sym 2 g), (Z.eqb_sym 3 g).
  destruct (Z.eqb_spec g 0) as [->|N0]; [cbn; repeat split; try lia; auto 8|].
  destruct (Z.eqb_spec g 1) as [->|N1]; [cbn; repeat split; try lia; auto 8|].
  destruct (Z.eqb_spec g 2) as [->|N2]; [cbn; repeat split; try lia; auto 8|].
  destruct (Z.eqb_spec g 3) as [->|N3]; [cbn; repeat split; try lia; auto 8|].
  cbn. repeat split; try lia; auto 8.
Qed.

Lemma flat_map_same {A B} (f g : A -> list B) (l : list A) :
  (forall x, In x l -> f x = g x) -> flat_map f l = flat_map g l.
Proof.
  intros H. induction l as [|x r IH]; cbn; [reflexivity|].
  rewrite (H x) by now left. f_equal. apply IH. intros y Hy. apply H. now right.
Qed.

Lemma filter_filter_implied {A} (p q : A -> bool) (l : list A) :
  (forall x, In x l -> p x = true -> q x = true) ->
  filter p (filter q l) = filter p l.
Proof.
  intros H. induction l as [|x r IH]; cbn; [reflexivity|].
  assert (IH' : filter p (filter q r) = filter p r)
    by (apply IH; intros y Hy; apply H; now right).
  destruct (q x) eqn:Q; cbn.
  - now rewrite IH'.
  - destruct (p x) eqn:P; [|exact IH'].
    rewrite (H x) in Q by (now left || exact P). discriminate Q.
Qed.

Section Deletion.
Variable db : pg_db.
Variable id : Z.
Hypothesis unused : forall mg, In mg (movie_genres db) -> mg_genre_id mg <> id.

Definition db' : pg_db :=
  with_genres db (filter (fun g => negb (genre_id g =? id)%Z) (genres db)).

Lemma genre_lookup (x : Z) :
  x <> id ->
  filter (fun g => (x =? genre_id g)%Z) (genres db')
  = filter (fun g => (x =? genre_id g)%Z) (genres db).
Proof.
  intros Hx. unfold db'. cbn [genres with_genres].
  apply filter_filter_implied. intros g _ H.
  apply Z.eqb_eq in H. apply negb_true_iff, Z.eqb_neq. congruence.
Qed.

Lemma left_join_member {B} (on : B -> bool) (bs : list B) (x : B) :
  In (Some x) (left_join on bs) -> In x bs.
Proof.
  unfold left_join. destruct (filter on bs) as [|b l] eqn:E.
  - intros [H|[]]. discriminate H.
  - intros H. apply in_map_iff in H as (y & [= ->] & Hy).
    rewrite <- E in Hy. now apply filter_In in Hy.
Qed.

Lemma from_clause_same (m : movie) : from_clause db' m = from_clause db m.
Proof.
  unfold from_clause. cbn [ratings movie_genres db' with_genres].
  apply flat_map_ext. intros r. apply flat_map_same. intros mg2 Hmg2.
  f_equal. unfold left_join.
  destruct mg2 as [x|].
  - apply left_join_member in Hmg2. rewrite (genre_lookup _ (unused x Hmg2)).
    reflexivity.
  - replace (filter (fun _ : genre => false) (genres db')) with (@nil genre)
      by (induction (genres db'); cbn; auto).
    replace (filter (fun _ : genre => false) (genres db)) with (@nil genre)
      by (induction (genres db); cbn; auto).
    reflexivity.
Qed.

(** The genre a row has been joined with is one a movie bears. *)
Definition joined_ok (row : jrow) : Prop :=
  forall mg, j_mg row = Some mg -> In mg (movie_genres db).

Lemma apply_join_same (j : join_clause) (row : jrow) :
  joined_ok row ->
  apply_join db' j row = apply_join db j row /\
  Forall joined_ok (apply_join db j row).
Proof.
  intros Hok. destruct j; cbn [apply_join movie_genres movie_casts people db'
                                 with_genres].
  - split; [reflexivity|]. apply Forall_forall. intros row' H.
    apply in_map_iff in H as (mg & <- & Hmg). apply filter_In in Hmg as [Hmg _].
    intros mg' [= <-]. exact Hmg.
  - destruct (j_mg row) as [mg|] eqn:E; [|split; [reflexivity|constructor]].
    rewrite (genre_lookup _ (unused mg (Hok mg E))).
    split; [reflexivity|]. apply Forall_forall. intros row' H.
    apply in_map_iff in H as (g & <- & _). intros mg' H'. cbn in H'.
    apply Hok. congruence.
  - split; [reflexivity|]. apply Forall_forall. intros row' H.
    apply in_map_iff in H as (mc & <- & _). exact Hok.
  - split; [reflexivity|].
    destruct (j_mc row); [|constructor]. apply Forall_forall. intros row' H.
    apply in_map_iff in H as (p & <- & _). exact Hok.
Qed.

Lemma joins_same (joins : list join_clause) (rows : list jrow) :
  Forall joined_ok rows ->
  fold_left (fun rows j => flat_map (apply_join db' j) rows) joins rows
  = fold_left (fun rows j => flat_map (apply_join db j) rows) joins rows.
Proof.
  revert rows. induction joins as [|j r IH]; intros rows Hok; cbn;
    [reflexivity|].
  rewrite Forall_forall in Hok.
  rewrite (flat_map_same (apply_join db' j) (apply_join db j))
    by (intros row Hrow; apply apply_join_same; now apply Hok).
  apply IH. apply Forall_forall. intros row' H.
  apply in_flat_map in H as (row & Hrow & H).
  destruct (apply_join_same j row (Hok row Hrow)) as [_ F].
  rewrite Forall_forall in F. now apply F.
Qed.

Lemma joined_rows_same (joins : list join_clause) (m : movie) :
  joined_rows db' joins m = joined_rows db joins m.
Proof.
  unfold joined_rows. rewrite from_clause_same. apply joins_same.
  apply Forall_forall. intros row H mg Hmg.
  unfold from_clause in H. apply in_flat_map in H as (r & _ & H).
  apply in_flat_map in H as (mg2 & _ & H).
  apply in_map_iff in H as (g2 & <- & _). discriminate Hmg.
Qed.

Lemma execute_same (ilike : string -> string -> bool) (q : query) :
  execute ilike db' q = execute ilike db q.
Proof.
  unfold execute, grouped, group. cbn [movies db' with_genres].
  do 2 f_equal. apply flat_map_ext. intros m.
  now rewrite joined_rows_same.
Qed.

End Deletion.

(** X30: deleting a genre changes the result of no search: a genre that
    can be deleted is borne by no movie. *)
Theorem deleting_a_genre_changes_no_search
        (ilike : string -> string -> bool) (db db1 : pg_db) (id : Z)
        (r : option Z) (genre actor : option string)
        (year_start year_end : option Z) (sort_mode : string) (limit : nat)
        (title_f : option string) :
  admin_delete_genre db id = inl (r, db1) ->
  search_postgres ilike db1 genre actor year_start year_end sort_mode limit title_f
  = search_postgres ilike db genre actor year_start year_end sort_mode limit title_f.
Proof.
  unfold admin_delete_genre.
  destruct (0 <? _)%nat eqn:U; [discriminate|]. intros [= _ <-].
  unfold search_postgres. f_equal.
  apply (execute_same db id (unused_genre db id U)).
Qed.

(** ** The properties on the sample catalogue *)

(** The sample catalogue with a genre that no movie bears. *)
Definition with_western : pg_db :=
  with_genres Sample.pg
    (genres Sample.pg ++ [{| genre_id := 37; genre_name := "Western" |}]).

(** The name [Western] between a no-break space (U+00A0) with a blank
    and an ideographic space (U+3000). *)
Definition padded_western : string :=
  String "194" (String "160" (" Western" ++
  String "227" (String "128" (String "128" "")))).

Lemma created_genre_can_be_read_witness :
  admin_get_genre with_western 37
  = Some {| genre_id := 37; genre_name := "Western" |}.
Proof.
  exact (proj1 (created_genre_can_be_read 37 Sample.pg with_western
                  padded_western 37 eq_refl)).
Defined.

Lemma sample_keyed : keyed Sample.pg.
Proof.
  split;
    repeat (constructor;
            [cbn; intros H; repeat (destruct H as [H|H]; [discriminate H|]);
             destruct H|]);
    constructor.
Qed.

Lemma genre_keys_stay_unique_witness : keyed with_western.
Proof.
  apply (genre_keys_stay_unique Sample.pg with_western (Some 37) sample_keyed).
  left. exists 37, "  Western ". reflexivity.
Defined.

Lemma sample_references_valid : references_valid with_western.
Proof.
  intros mg H. cbn in H. destruct H as [<-|[<-|[<-|[]]]].
  - exists {| genre_id := 16; genre_name := "Animation" |}. cbn. tauto.
  - exists {| genre_id := 18; genre_name := "Drama" |}. cbn. tauto.
  - exists {| genre_id := 18; genre_name := "Drama" |}. cbn. tauto.
Qed.

Lemma deleting_a_genre_keeps_references_valid_witness :
  references_valid Sample.pg /\ admin_get_genre Sample.pg 37 = None.
Proof.
  destruct (deleting_a_genre_keeps_references_valid with_western Sample.pg 37
              (Some 37) sample_references_valid eq_refl) as (H1 & H2 & _).
  split; assumption.
Defined.

Lemma sample_in_range : in_range Sample.pg.
Proof.
  intros r H. cbn in H.
  repeat (destruct H as [<-|H]; [cbn; split; easy|]). destruct H.
Qed.

Lemma updated_rating_stays_in_range_witness :
  exists db', admin_update_rating Sample.pg 1 (9 # 2) = inl (Some 1, db') /\
              in_range db' /\
              exists x, admin_get_rating db' 1 = Some x /\ r_rating x = 9 # 2.
Proof.
  eexists. split; [reflexivity|].
  destruct (updated_rating_stays_in_range Sample.pg _ 1 (9 # 2) (Some 1)
              sample_in_range eq_refl) as (H1 & _ & H2 & _).
  split; [exact H1|exact (H2 eq_refl)].
Defined.

Lemma deleting_a_genre_changes_no_search_witness :
  search_postgres TextOps.ilike Sample.pg (Some "anim") None None None
                  "rating" 10 None
  = search_postgres TextOps.ilike with_western (Some "anim") None None None
                    "rating" 10 None.
Proof.
  apply (deleting_a_genre_changes_no_search TextOps.ilike with_western
           Sample.pg 37 (Some 37)).
  reflexivity.
Defined.

End AdminFacts.
